(** * BNPL dashboard: metrics aggregation service

    A shallow embedding of the TypeScript service behind [GET /api/bnpl]:
    the store client (vercel-app/lib/snowflake.ts), the query catalog and the
    loader (module [@/lib/bnpl-queries], whose text is the second part of
    vercel-app/lib/constants.ts), the route handler
    (vercel-app/app/api/bnpl/route.ts, its later version) and the funnel
    arithmetic of the dashboard page (vercel-app/app/page.tsx); then the
    connection options of the store client, the two diagnostic routes
    ([GET /api/check-env] and vercel-app/app/api/check-snowflake/route.ts),
    the earlier route [GET /api/metrics] and the revenue, the funding gap and
    the time of the last run as the page computes them; followed by the
    properties established about them.

    Conventions of the embedding.
    - A JavaScript [number] is an IEEE-754 binary64 value.  The finite ones are
      represented by the rational they denote; every arithmetic operation
      computes the exact rational result and rounds it to 53 significant bits,
      ties to even ([fl]).  NaN, the infinities, the sign of zero and the
      bounds of the exponent range are outside the model.
    - [T | null] is [option T].
    - A promise is the time (in milliseconds) at which it settles together with
      its outcome, or [None] when it never settles.  The body of an [async]
      function is a function of the time at which it starts to run.
    - The warehouse, the connection attempt and the event loop's choice between
      two callbacks that are due in the same millisecond form the [World]. *)

From Stdlib Require Import ZArith QArith Qround Qabs Qpower Lia Lqa Psatz.
From Stdlib Require Import String Ascii List Bool Floats.
Import ListNotations.
Close Scope Q_scope.

(* ================================================================== *)
(** * Part I. The embedding *)
(* ================================================================== *)

(** ** JavaScript numbers *)

Module Double.
Local Open Scope Q_scope.

Definition number := Q.

Definition pow2 (e : Z) : Q := 2 ^ e.

(** [ilog2 q] is the binary exponent of a positive rational:
    [2 ^ ilog2 q <= q < 2 ^ (ilog2 q + 1)]. *)
Definition ilog2 (q : Q) : Z :=
  let e0 := (Z.log2 (Qnum q) - Z.log2 (Zpos (Qden q)))%Z in
  if Qle_bool (pow2 e0) q then e0 else (e0 - 1)%Z.

(** Round to the nearest integer, ties to the even one. *)
Definition rne (q : Q) : Z :=
  let f := Qfloor q in
  match Qcompare (q - inject_Z f) (1 # 2) with
  | Lt => f
  | Gt => (f + 1)%Z
  | Eq => if Z.even f then f else (f + 1)%Z
  end.

(** The spacing of the binary64 numbers around a positive [q]. *)
Definition ulp_scale (q : Q) : Q := pow2 (ilog2 q - 52).

Definition fl_pos (q : Q) : Q :=
  inject_Z (rne (q / ulp_scale q)) * ulp_scale q.

(** Rounding of an exact result to binary64, in lowest terms. *)
Definition fl (q : Q) : number :=
  Qred (match Qcompare q 0 with
        | Eq => 0
        | Gt => fl_pos q
        | Lt => - fl_pos (- q)
        end).

(** Unit roundoff. *)
Definition u53 : Q := pow2 (-53).

(** The operators [+], [-], [*], [/] on numbers. *)
Definition add (a b : number) : number := fl (a + b).
Definition sub (a b : number) : number := fl (a - b).
Definition mul (a b : number) : number := fl (a * b).
Definition div (a b : number) : number := fl (a / b).

(** A numeric literal or an integer-valued quantity such as [array.length]. *)
Definition of_Z (n : Z) : number := fl (inject_Z n).

(** [a > b], [a === b] and the truthiness of a number. *)
Definition gt (a b : number) : bool := negb (Qle_bool a b).
Definition eqb (a b : number) : bool := Qeq_bool a b.
Definition truthy (a : number) : bool := negb (Qeq_bool a 0).

(** [Math.round]: the nearest integer, ties towards plus infinity. *)
Definition Math_round (x : number) : number :=
  inject_Z (Qfloor (x + (1 # 2))).

(** [Math.max] of two numbers. *)
Definition Math_max (a b : number) : number :=
  if Qle_bool a b then b else a.

(** The rational that a finite hardware binary64 number denotes, for the
    comparison of [fl] with the primitive floating-point operations. *)
Definition Q_of_float (f : float) : option Q :=
  match Prim2SF f with
  | S754_zero _ => Some 0
  | S754_finite s m e =>
      Some (Qred ((if s then - (1) else 1) * inject_Z (Zpos m) * pow2 e))
  | _ => None
  end.

End Double.

(** ** JavaScript values and strings *)

Module Js.
Import Double.
Local Open Scope string_scope.

(** A column value handed over by the warehouse driver.  [VOther] stands for
    any value that is neither nullish, a number nor a string (a boolean, a
    [Date], ...); it carries what [String] and [Number] make of it ([None]
    for NaN). *)
Inductive value : Type :=
| VUndefined
| VNull
| VNaN
| VNum (x : number)
| VStr (s : string)
| VOther (as_string : string) (as_number : option number).

(** An element of the [rows] array ([unknown[]]): an object with its own
    properties in order, or a primitive value. *)
Inductive row : Type :=
| RObject (fields : list (string * value))
| RPrimitive (v : value).

(** A thrown value, as the handlers look at it:
    [e instanceof Error ? e.message : String(e)]. *)
Inductive thrown : Type :=
| ErrorObj (message : string)
| NonError (as_string : string).

Definition error_message (e : thrown) : string :=
  match e with
  | ErrorObj m => m
  | NonError s => s
  end.

(** [a ?? b] on values. *)
Definition nullish (v : value) : bool :=
  match v with
  | VUndefined | VNull => true
  | _ => false
  end.

Definition coalesce (a b : value) : value := if nullish a then b else a.

(** [a ?? b] where [a : T | null | undefined] and [b : T]. *)
Definition or_default {A : Type} (a : option A) (b : A) : A :=
  match a with
  | Some x => x
  | None => b
  end.

(** [x ?? null] where [x] is itself [T | null] or the result of a race that
    may have produced [null]. *)
Definition or_null {A : Type} (a : option (option A)) : option A :=
  match a with
  | Some x => x
  | None => None
  end.

(** Truthiness of an optional string ([undefined] and [''] are falsy). *)
Definition str_truthy (s : option string) : bool :=
  match s with
  | Some (String _ _) => true
  | _ => false
  end.

(** Property lookup [r[key]] in an object with the given own properties. *)
Fixpoint get_prop (fields : list (string * value)) (key : string) : value :=
  match fields with
  | [] => VUndefined
  | (k, v) :: rest => if String.eqb k key then v else get_prop rest key
  end.

Definition is_digit (c : ascii) : bool :=
  let n := nat_of_ascii c in (48 <=? n)%nat && (n <=? 57)%nat.

Definition digit_val (c : ascii) : Z := Z.of_nat (nat_of_ascii c - 48).

Fixpoint all_digits (s : string) : bool :=
  match s with
  | EmptyString => true
  | String c s' => is_digit c && all_digits s'
  end.

(** The value of a string of decimal digits read after the prefix [acc]. *)
Fixpoint digits_val (acc : Z) (s : string) : Z :=
  match s with
  | EmptyString => acc
  | String c s' => digits_val (10 * acc + digit_val c) s'
  end.

(** [/^\d+$/.test(s)] *)
Definition matches_digits (s : string) : bool :=
  match s with
  | EmptyString => false
  | _ => all_digits s
  end.

(** [parseInt(s, 10)] on a string accepted by [matches_digits]. *)
Definition parseInt10 (s : string) : number := of_Z (digits_val 0 s).

(** Splits a string at its first dot. *)
Fixpoint split_dot (s : string) : string * option string :=
  match s with
  | EmptyString => (EmptyString, None)
  | String c s' =>
      if Ascii.eqb c "."%char then (EmptyString, Some s')
      else let (a, b) := split_dot s' in (String c a, b)
  end.

Definition strip_minus (s : string) : bool * string :=
  match s with
  | String c s' => if Ascii.eqb c "-"%char then (true, s') else (false, s)
  | EmptyString => (false, s)
  end.

(** [/^-?\d*\.?\d+$/.test(s)] *)
Definition matches_decimal (s : string) : bool :=
  let (_, body) := strip_minus s in
  match split_dot body with
  | (ip, None) => matches_digits ip
  | (ip, Some fp) => all_digits ip && matches_digits fp
  end.

(** [parseFloat(s)] on a string accepted by [matches_decimal]: the binary64
    number nearest to the decimal that the string denotes. *)
Definition parseFloat (s : string) : number :=
  let (neg, body) := strip_minus s in
  let (ip, fp) := split_dot body in
  let frac := or_default fp EmptyString in
  let mag := (inject_Z (digits_val 0 (ip ++ frac))
              / inject_Z (10 ^ Z.of_nat (String.length frac)))%Q in
  fl (if neg then (- mag)%Q else mag).

Definition lower_ascii (c : ascii) : ascii :=
  let n := nat_of_ascii c in
  if (65 <=? n)%nat && (n <=? 90)%nat then ascii_of_nat (n + 32) else c.

Definition upper_ascii (c : ascii) : ascii :=
  let n := nat_of_ascii c in
  if (97 <=? n)%nat && (n <=? 122)%nat then ascii_of_nat (n - 32) else c.

Fixpoint map_string (f : ascii -> ascii) (s : string) : string :=
  match s with
  | EmptyString => EmptyString
  | String c s' => String (f c) (map_string f s')
  end.

(** [toLowerCase] and [toUpperCase] on the ASCII strings the service handles. *)
Definition toLowerCase : string -> string := map_string lower_ascii.
Definition toUpperCase : string -> string := map_string upper_ascii.

(** [s.slice(0, n)] *)
Definition slice0 (n : nat) (s : string) : string := substring 0 n s.

(** [s.startsWith(p)] *)
Fixpoint startsWith (p s : string) : bool :=
  match p with
  | EmptyString => true
  | String a p' =>
      match s with
      | EmptyString => false
      | String b s' => Ascii.eqb a b && startsWith p' s'
      end
  end.

(** [s.includes(p)] *)
Fixpoint includes (p s : string) : bool :=
  startsWith p s ||
  match s with
  | EmptyString => false
  | String _ s' => includes p s'
  end.

(** [s.replace(p, r)] with a string pattern: the first occurrence only. *)
Fixpoint replace_first (p r s : string) : string :=
  if startsWith p s then r ++ substring (String.length p) (String.length s) s
  else match s with
       | EmptyString => EmptyString
       | String c s' => String c (replace_first p r s')
       end.

Definition is_space (c : ascii) : bool :=
  let n := nat_of_ascii c in
  (n =? 32)%nat || ((9 <=? n)%nat && (n <=? 13)%nat).

Fixpoint trim_start (s : string) : string :=
  match s with
  | String c s' => if is_space c then trim_start s' else s
  | EmptyString => EmptyString
  end.

Fixpoint trim_end (s : string) : string :=
  match s with
  | EmptyString => EmptyString
  | String c s' =>
      match trim_end s' with
      | EmptyString => if is_space c then EmptyString else String c EmptyString
      | t => String c t
      end
  end.

(** [s.trim()] *)
Definition trim (s : string) : string := trim_end (trim_start s).

Definition nl : string := String (ascii_of_nat 10) EmptyString.
Definition dquote : string := String (ascii_of_nat 34) EmptyString.

End Js.

(** ** The query catalog (module bnpl-queries, in lib/constants.ts) *)

Module Catalog.
Import Js.
Local Open Scope string_scope.

Section WithEnvironment.

(** [process.env.EXCLUDE_TEST_USERS], read once when the module is loaded. *)
Variable env_EXCLUDE_TEST_USERS : option string.

Definition EXCLUDE_TEST_USERS : bool :=
  String.eqb (toLowerCase (or_default env_EXCLUDE_TEST_USERS "true")) "true"
  || String.eqb (or_default env_EXCLUDE_TEST_USERS "true") "1".

Definition EXCL_CP : string :=
  if EXCLUDE_TEST_USERS
  then " AND ID NOT IN (SELECT ID FROM CDC_CONSUMER_PROFILE_PRODUCTION.PUBLIC.CONSUMER_PROFILE WHERE LOWER(EMAIL) LIKE '%stitch.money%')"
  else "".

Definition EXCL_PLAN : string :=
  if EXCLUDE_TEST_USERS
  then " AND CONSUMER_PROFILE_ID NOT IN (SELECT ID FROM CDC_CONSUMER_PROFILE_PRODUCTION.PUBLIC.CONSUMER_PROFILE WHERE LOWER(EMAIL) LIKE '%stitch.money%')"
  else "".

(** [(f || '').slice(0, 10)] *)
Definition fd (f : string) : string := slice0 10 f.

(** The test [from && to] of every builder, which also hands the two strings
    to the branch it guards. *)
Definition both (from to : option string) : option (string * string) :=
  match from, to with
  | Some f, Some t => if str_truthy from && str_truthy to then Some (f, t) else None
  | _, _ => None
  end.

Definition appliedCountSql (from to : option string) : string :=
  match both from to with
  | Some (from, to) =>
      "SELECT COUNT(*) AS n FROM CDC_CONSUMER_PROFILE_PRODUCTION.PUBLIC.CONSUMER_PROFILE WHERE DATE(CREATED_AT) >= '" ++ fd from ++ "' AND DATE(CREATED_AT) <= '" ++ fd to ++ "'" ++ EXCL_CP
  | None =>
      "SELECT COUNT(*) AS n FROM CDC_CONSUMER_PROFILE_PRODUCTION.PUBLIC.CONSUMER_PROFILE WHERE 1=1" ++ EXCL_CP
  end.

Definition approvedCountSql (from to : option string) : string :=
  match both from to with
  | Some (from, to) =>
      "SELECT COUNT(*) AS n FROM CDC_CONSUMER_PROFILE_PRODUCTION.PUBLIC.CONSUMER_PROFILE WHERE UPPER(TRIM(CREDIT_CHECK_STATUS)) != 'REJECTED' AND DATE(CREATED_AT) >= '" ++ fd from ++ "' AND DATE(CREATED_AT) <= '" ++ fd to ++ "'" ++ EXCL_CP
  | None =>
      "SELECT COUNT(*) AS n FROM CDC_CONSUMER_PROFILE_PRODUCTION.PUBLIC.CONSUMER_PROFILE WHERE UPPER(TRIM(CREDIT_CHECK_STATUS)) != 'REJECTED'" ++ EXCL_CP
  end.

Definition kycVerifiedCountSql (from to : option string) : string :=
  match both from to with
  | Some (from, to) =>
      "SELECT COUNT(*) AS n FROM CDC_CONSUMER_PROFILE_PRODUCTION.PUBLIC.CONSUMER_PROFILE WHERE UPPER(TRIM(kyc_status)) IN ('VERIFIED', 'COMPLETE', 'SUCCESS') AND DATE(CREATED_AT) >= '" ++ fd from ++ "' AND DATE(CREATED_AT) <= '" ++ fd to ++ "'" ++ EXCL_CP
  | None =>
      "SELECT COUNT(*) AS n FROM CDC_CONSUMER_PROFILE_PRODUCTION.PUBLIC.CONSUMER_PROFILE WHERE UPPER(TRIM(kyc_status)) IN ('VERIFIED', 'COMPLETE', 'SUCCESS')" ++ EXCL_CP
  end.

Definition planCreationSql (from to : option string) : string :=
  match both from to with
  | Some (from, to) =>
      "SELECT COUNT(*) AS n FROM (SELECT DISTINCT ip.CONSUMER_PROFILE_ID FROM CDC_BNPL_PRODUCTION.PUBLIC.COLLECTION_ATTEMPT ca INNER JOIN CDC_BNPL_PRODUCTION.PUBLIC.COLLECTION_ATTEMPT_INSTALMENT_LINK cal ON cal.COLLECTION_ATTEMPT_ID = ca.ID INNER JOIN CDC_BNPL_PRODUCTION.PUBLIC.INSTALMENT i ON i.ID = cal.INSTALMENT_ID INNER JOIN CDC_BNPL_PRODUCTION.PUBLIC.INSTALMENT_PLAN ip ON ip.ID = i.INSTALMENT_PLAN_ID WHERE UPPER(TRIM(ca.TYPE)) = 'INITIAL' AND DATE(COALESCE(ca.EXECUTED_AT, ca.CREATED_AT)) >= '" ++ fd from ++ "' AND DATE(COALESCE(ca.EXECUTED_AT, ca.CREATED_AT)) <= '" ++ fd to ++ "'" ++ EXCL_PLAN ++ ") t"
  | None =>
      "SELECT COUNT(*) AS n FROM (SELECT DISTINCT ip.CONSUMER_PROFILE_ID FROM CDC_BNPL_PRODUCTION.PUBLIC.COLLECTION_ATTEMPT ca INNER JOIN CDC_BNPL_PRODUCTION.PUBLIC.COLLECTION_ATTEMPT_INSTALMENT_LINK cal ON cal.COLLECTION_ATTEMPT_ID = ca.ID INNER JOIN CDC_BNPL_PRODUCTION.PUBLIC.INSTALMENT i ON i.ID = cal.INSTALMENT_ID INNER JOIN CDC_BNPL_PRODUCTION.PUBLIC.INSTALMENT_PLAN ip ON ip.ID = i.INSTALMENT_PLAN_ID WHERE UPPER(TRIM(ca.TYPE)) = 'INITIAL'" ++ EXCL_PLAN ++ ") t"
  end.

Definition initialCollectionSql (from to : option string) : string :=
  match both from to with
  | Some (from, to) =>
      "SELECT COUNT(*) AS n FROM (SELECT DISTINCT ip.CONSUMER_PROFILE_ID FROM CDC_BNPL_PRODUCTION.PUBLIC.COLLECTION_ATTEMPT ca INNER JOIN CDC_BNPL_PRODUCTION.PUBLIC.COLLECTION_ATTEMPT_INSTALMENT_LINK cal ON cal.COLLECTION_ATTEMPT_ID = ca.ID INNER JOIN CDC_BNPL_PRODUCTION.PUBLIC.INSTALMENT i ON i.ID = cal.INSTALMENT_ID INNER JOIN CDC_BNPL_PRODUCTION.PUBLIC.INSTALMENT_PLAN ip ON ip.ID = i.INSTALMENT_PLAN_ID WHERE UPPER(TRIM(ca.TYPE)) = 'INITIAL' AND UPPER(TRIM(ca.STATUS)) = 'COMPLETED' AND DATE(COALESCE(ca.EXECUTED_AT, ca.CREATED_AT)) >= '" ++ fd from ++ "' AND DATE(COALESCE(ca.EXECUTED_AT, ca.CREATED_AT)) <= '" ++ fd to ++ "'" ++ EXCL_PLAN ++ ") t"
  | None =>
      "SELECT COUNT(*) AS n FROM (SELECT DISTINCT ip.CONSUMER_PROFILE_ID FROM CDC_BNPL_PRODUCTION.PUBLIC.COLLECTION_ATTEMPT ca INNER JOIN CDC_BNPL_PRODUCTION.PUBLIC.COLLECTION_ATTEMPT_INSTALMENT_LINK cal ON cal.COLLECTION_ATTEMPT_ID = ca.ID INNER JOIN CDC_BNPL_PRODUCTION.PUBLIC.INSTALMENT i ON i.ID = cal.INSTALMENT_ID INNER JOIN CDC_BNPL_PRODUCTION.PUBLIC.INSTALMENT_PLAN ip ON ip.ID = i.INSTALMENT_PLAN_ID WHERE UPPER(TRIM(ca.TYPE)) = 'INITIAL' AND UPPER(TRIM(ca.STATUS)) = 'COMPLETED'" ++ EXCL_PLAN ++ ") t"
  end.

Definition consumersWithPlanSql (from to : option string) : string :=
  match both from to with
  | Some (from, to) =>
      "SELECT COUNT(*) AS n FROM (SELECT DISTINCT CONSUMER_PROFILE_ID FROM CDC_BNPL_PRODUCTION.PUBLIC.INSTALMENT_PLAN WHERE DATE(CREATED_AT) >= '" ++ fd from ++ "' AND DATE(CREATED_AT) <= '" ++ fd to ++ "'" ++ EXCL_PLAN ++ ") t"
  | None =>
      "SELECT COUNT(*) AS n FROM (SELECT DISTINCT CONSUMER_PROFILE_ID FROM CDC_BNPL_PRODUCTION.PUBLIC.INSTALMENT_PLAN WHERE 1=1" ++ EXCL_PLAN ++ ") t"
  end.

Definition OVERDUE_COUNT_SQL : string :=
  "SELECT COUNT(*) AS n FROM CDC_BNPL_PRODUCTION.PUBLIC.INSTALMENT i WHERE i.next_execution_date IS NOT NULL AND (UPPER(TRIM(i.status)) = 'PENDING' OR UPPER(TRIM(i.status)) = 'OVERDUE')".

Definition CREDIT_ALLOCATED_SQL : string :=
  "SELECT COALESCE(SUM(CREDIT_LIMIT), 0) AS total FROM "
  ++ dquote ++ "CDC_CREDITMASTER_PRODUCTION" ++ dquote ++ "."
  ++ dquote ++ "PUBLIC" ++ dquote ++ "."
  ++ dquote ++ "CREDIT_BALANCE" ++ dquote.

Definition loanBookSettledSql (from to : option string) : string :=
  match both from to with
  | Some (from, to) =>
      "SELECT COALESCE(SUM(COALESCE(ip.QUANTITY, ip.VALUE, ip.AMOUNT, ip.TOTAL_AMOUNT, 0)), 0) AS total FROM CDC_BNPL_PRODUCTION.PUBLIC.INSTALMENT_PLAN ip WHERE DATE(ip.CREATED_AT) >= '" ++ fd from ++ "' AND DATE(ip.CREATED_AT) <= '" ++ fd to ++ "'" ++ EXCL_PLAN
  | None =>
      "SELECT COALESCE(SUM(COALESCE(ip.QUANTITY, ip.VALUE, ip.AMOUNT, ip.TOTAL_AMOUNT, 0)), 0) AS total FROM CDC_BNPL_PRODUCTION.PUBLIC.INSTALMENT_PLAN ip WHERE 1=1" ++ EXCL_PLAN
  end.

Definition loanBookCollectedSql (from to : option string) : string :=
  let base := "SELECT COALESCE(SUM(COALESCE(i.QUANTITY, i.AMOUNT, 0)), 0) AS total FROM CDC_BNPL_PRODUCTION.PUBLIC.INSTALMENT i INNER JOIN CDC_BNPL_PRODUCTION.PUBLIC.INSTALMENT_PLAN ip ON ip.ID = i.INSTALMENT_PLAN_ID WHERE EXISTS (SELECT 1 FROM CDC_BNPL_PRODUCTION.PUBLIC.COLLECTION_ATTEMPT_INSTALMENT_LINK cail INNER JOIN CDC_BNPL_PRODUCTION.PUBLIC.COLLECTION_ATTEMPT ca ON ca.ID = cail.COLLECTION_ATTEMPT_ID WHERE cail.INSTALMENT_ID = i.ID AND UPPER(TRIM(ca.STATUS)) = 'COMPLETED')" in
  let excl := replace_first "CONSUMER_PROFILE_ID" "ip.CONSUMER_PROFILE_ID" EXCL_PLAN in
  match both from to with
  | Some (from, to) =>
      base ++ " AND DATE(i.CREATED_AT) >= '" ++ fd from ++ "' AND DATE(i.CREATED_AT) <= '" ++ fd to ++ "'" ++ excl
  | None => base ++ excl
  end.

Definition INSTALMENT_PLAN_COUNT_SQL : string :=
  "SELECT COUNT(*) AS n FROM CDC_BNPL_PRODUCTION.PUBLIC.INSTALMENT_PLAN WHERE (UPPER(TRIM(STATUS)) = 'ACTIVE' OR UPPER(TRIM(STATUS)) = 'COMPLETED')".

Definition merchantBreakdownSql (from to : option string) : string :=
  let where_ :=
    match both from to with
    | Some (from, to) =>
        "WHERE (UPPER(TRIM(ip.STATUS)) = 'ACTIVE' OR UPPER(TRIM(ip.STATUS)) = 'COMPLETED') AND DATE(ip.CREATED_AT) >= '" ++ fd from ++ "' AND DATE(ip.CREATED_AT) <= '" ++ fd to ++ "'" ++ EXCL_PLAN
    | None =>
        "WHERE (UPPER(TRIM(ip.STATUS)) = 'ACTIVE' OR UPPER(TRIM(ip.STATUS)) = 'COMPLETED')" ++ EXCL_PLAN
    end in
  trim (nl
    ++ "SELECT COALESCE(ip.CLIENT_NAME, '(blank)') AS merchant," ++ nl
    ++ "       COUNT(*) AS plan_count," ++ nl
    ++ "       COALESCE(SUM(COALESCE(ip.QUANTITY, ip.VALUE, ip.AMOUNT, ip.TOTAL_AMOUNT, 0)), 0) AS total_plan_amount" ++ nl
    ++ "FROM CDC_BNPL_PRODUCTION.PUBLIC.INSTALMENT_PLAN ip" ++ nl
    ++ where_ ++ nl
    ++ "GROUP BY ip.CLIENT_NAME" ++ nl
    ++ "ORDER BY total_plan_amount DESC" ++ nl
    ++ "LIMIT 50" ++ nl).

(** The nine builders of the catalog. *)
Inductive builder : Type :=
| AppliedCount | ApprovedCount | KycVerifiedCount | PlanCreation
| InitialCollection | ConsumersWithPlan | LoanBookSettled | LoanBookCollected
| MerchantBreakdown.

Definition build (b : builder) : option string -> option string -> string :=
  match b with
  | AppliedCount => appliedCountSql
  | ApprovedCount => approvedCountSql
  | KycVerifiedCount => kycVerifiedCountSql
  | PlanCreation => planCreationSql
  | InitialCollection => initialCollectionSql
  | ConsumersWithPlan => consumersWithPlanSql
  | LoanBookSettled => loanBookSettledSql
  | LoanBookCollected => loanBookCollectedSql
  | MerchantBreakdown => merchantBreakdownSql
  end.

(** The timestamp expression each builder filters on. *)
Definition date_column (b : builder) : string :=
  match b with
  | AppliedCount | ApprovedCount | KycVerifiedCount | ConsumersWithPlan =>
      "CREATED_AT"
  | PlanCreation | InitialCollection =>
      "COALESCE(ca.EXECUTED_AT, ca.CREATED_AT)"
  | LoanBookSettled | MerchantBreakdown => "ip.CREATED_AT"
  | LoanBookCollected => "i.CREATED_AT"
  end.

End WithEnvironment.

(** The date-range predicate on the expression [col], between the two bounds. *)
Definition date_predicate (col f t : string) : string :=
  "DATE(" ++ col ++ ") >= '" ++ f ++ "' AND DATE(" ++ col ++ ") <= '" ++ t ++ "'".

(** Does the statement filter on a date at all? *)
Definition has_date_filter (sql : string) : bool := includes "DATE(" sql.

End Catalog.

(** ** Promises and [async] functions *)

Module Async.
Import Js.
Local Open Scope N_scope.

(** Milliseconds since an arbitrary origin. *)
Definition time := N.

Inductive settled (A : Type) : Type :=
| Fulfilled (v : A)
| Rejected (e : thrown).
Arguments Fulfilled {A} v.
Arguments Rejected {A} e.

(** When and how a promise settles; [None] when it stays pending for ever. *)
Definition promise (A : Type) : Type := option (time * settled A).

(** The body of an [async] function: started at a given time, it completes as
    the promise it returns settles. *)
Definition async (A : Type) : Type := time -> promise A.

Definition ret {A : Type} (v : A) : async A :=
  fun now => Some (now, Fulfilled v).

Definition throw {A : Type} (e : thrown) : async A :=
  fun now => Some (now, Rejected e).

(** [const x = <m>; <k x>] where [m] may suspend. *)
Definition bind {A B : Type} (m : async A) (k : A -> async B) : async B :=
  fun now =>
    match m now with
    | None => None
    | Some (t, Fulfilled v) => k v t
    | Some (t, Rejected e) => Some (t, Rejected e)
    end.

(** [await p]: resume when [p] has settled, not before now. *)
Definition await {A : Type} (p : promise A) : async A :=
  fun now =>
    match p with
    | None => None
    | Some (t, s) => Some (N.max now t, s)
    end.

(** [await f(...)]: call a function that returns a promise, then wait for
    that promise. *)
Definition await_call {A : Type} (f : time -> promise A) : async A :=
  fun now => await (f now) now.

(** [try { body } catch (e) { handler e }] *)
Definition try_catch {A : Type}
    (body : async A) (handler : thrown -> async A) : async A :=
  fun now =>
    match body now with
    | Some (t, Rejected e) => handler e t
    | r => r
    end.

(** [try { body } finally { cleanup }] for a synchronous [cleanup] that
    swallows its own errors: the outcome of [body] passes through. *)
Definition try_finally {A : Type} (body : async A) (cleanup : unit) : async A :=
  body.

(** The promise [new Promise(r => setTimeout(() => r(outcome), ms))] created
    at time [now]. *)
Definition after {A : Type} (now : time) (ms : N) (outcome : settled A) : promise A :=
  Some (now + ms, outcome).

(** [Promise.race([p, timer])]: the first to settle decides.  When both are
    due in the same millisecond the event loop decides, and [timer_first]
    records its choice. *)
Definition Promise_race {A : Type} (timer_first : bool)
    (p timer : promise A) : promise A :=
  match p, timer with
  | None, _ => timer
  | _, None => p
  | Some (t1, _), Some (t2, _) =>
      if (t1 <? t2) || ((t1 =? t2) && negb timer_first) then p else timer
  end.

(** [Promise.all([p, q])]: fulfilled once both are, rejected as soon as one
    rejects.  The array of thirteen promises of the loader is a nest of
    pairs. *)
Definition Promise_all2 {A B : Type}
    (p : promise A) (q : promise B) : promise (A * B) :=
  match p, q with
  | Some (t1, Fulfilled a), Some (t2, Fulfilled b) =>
      Some (N.max t1 t2, Fulfilled (a, b))
  | Some (t1, Rejected e1), Some (t2, Rejected e2) =>
      if t1 <=? t2 then Some (t1, Rejected e1) else Some (t2, Rejected e2)
  | Some (t1, Rejected e1), _ => Some (t1, Rejected e1)
  | _, Some (t2, Rejected e2) => Some (t2, Rejected e2)
  | _, _ => None
  end.

(** The coercion of a [Promise<T>] to a [Promise<T | null>]. *)
Definition widen {A : Type} (p : promise A) : promise (option A) :=
  match p with
  | None => None
  | Some (t, Fulfilled v) => Some (t, Fulfilled (Some v))
  | Some (t, Rejected e) => Some (t, Rejected e)
  end.

End Async.

(** ** The store client (lib/snowflake.ts) *)

Module Store.
Import Double Js Async.
Local Open Scope N_scope.

(** The thirteen statements one request issues, in the order of the array
    handed to [Promise.all].  The same text can be issued twice, and the two
    executions can fare differently, so the world answers per statement. *)
Inductive query : Type :=
| Q_applied | Q_credit_check_completed | Q_kyc_completed | Q_plan_creation
| Q_initial_collection | Q_consumers_with_plan | Q_total_settled
| Q_total_collected | Q_total_plan_amount | Q_merchant_rows
| Q_consumers_with_plan_all | Q_overdue | Q_credit_allocated.

(** What lies outside the service during one request. *)
Record World : Type := {
  (** [snowflake.createConnection] may throw on its options. *)
  create_throws : option thrown;
  (** How long [connection.connect] takes to call back, and with which error;
      [None] when it never calls back. *)
  connect_outcome : option (N * option thrown);
  (** How long the execution of a statement takes to complete, and with which
      error or rows ([rows] may be undefined); [None] when [complete] is never
      called. *)
  execute_outcome : query -> string -> option (N * (thrown + option (list row)));
  (** The event loop's choice when a timer and a completion are due in the same
      millisecond. *)
  timer_first : bool
}.

(** [connectAsync(connection)] called at [now]. *)
Definition connectAsync (w : World) (now : time) : promise unit :=
  match connect_outcome w with
  | None => None
  | Some (d, Some err) => Some (now + d, Rejected err)
  | Some (d, None) => Some (now + d, Fulfilled tt)
  end.

(** [executeAsync(connection, sql)] called at [now]. *)
Definition executeAsync (w : World) (q : query) (sql : string) (now : time)
    : promise (list row) :=
  match execute_outcome w q sql with
  | None => None
  | Some (d, inl err) => Some (now + d, Rejected err)
  | Some (d, inr rows) => Some (now + d, Fulfilled (or_default rows []))
  end.

(** [Object.values(first)[0]] *)
Definition first_value (fields : list (string * value)) : value :=
  match fields with
  | [] => VUndefined
  | (_, v) :: _ => v
  end.

Definition runCount (w : World) (q : query) (sql : string) : async (option number) :=
  bind (await_call (executeAsync w q sql)) (fun rows =>
  match rows with
  | RObject first :: _ =>
      match first_value first with
      | VNum val => ret (Some val)
      | VStr val => if matches_digits val then ret (Some (parseInt10 val)) else ret None
      | _ => ret None
      end
  | _ => ret None
  end).

Definition runScalar (w : World) (q : query) (sql : string) : async (option number) :=
  bind (await_call (executeAsync w q sql)) (fun rows =>
  match rows with
  | RObject first :: _ =>
      match first_value first with
      | VUndefined | VNull => ret None
      | VNum val => ret (Some val)
      | VStr val => if matches_decimal val then ret (Some (parseFloat val)) else ret None
      | _ => ret None
      end
  | _ => ret None
  end).

(** [withConnection(fn)]: create, connect, run [fn], destroy. *)
Definition withConnection {T : Type} (w : World) (fn : World -> async T) : async T :=
  match create_throws w with
  | Some err => throw err
  | None =>
      bind (await_call (connectAsync w)) (fun _ =>
      try_finally (bind (await_call (fn w)) ret) tt)
  end.

End Store.

(** ** The loader (module bnpl-queries, in lib/constants.ts) *)

Module Bnpl.
Import Double Js Async Store Catalog.
Local Open Scope string_scope.

(** The two conversions of ECMAScript whose definition the service relies on
    without containing it: the decimal rendering of a number and the numeric
    reading of a string ([None] for NaN). *)
Record Runtime : Type := {
  NumberToString : number -> string;
  StringToNumber : string -> option number
}.

(** [String(v)] *)
Definition js_String (rt : Runtime) (v : value) : string :=
  match v with
  | VUndefined => "undefined"
  | VNull => "null"
  | VNaN => "NaN"
  | VNum x => NumberToString rt x
  | VStr s => s
  | VOther s _ => s
  end.

(** [Number(v)], [None] for NaN. *)
Definition js_Number (rt : Runtime) (v : value) : option number :=
  match v with
  | VUndefined => None
  | VNull => Some 0%Q
  | VNaN => None
  | VNum x => Some x
  | VStr s => StringToNumber rt s
  | VOther _ n => n
  end.

(** [Number(v) || 0] *)
Definition number_or_zero (rt : Runtime) (v : value) : number :=
  match js_Number rt v with
  | Some x => if truthy x then x else 0%Q
  | None => 0%Q
  end.

Record MerchantRow : Type := {
  merchant : string;
  plan_count : number;
  total_plan_amount : number
}.

Record LoanBook : Type := {
  credit_allocated : option number;
  operations_settled : option number;
  operations_collected : option number;
  total_settled : option number;
  total_collected : option number
}.

Record MerchantBlock : Type := {
  top3_volume_pct : option number;
  n_merchants : option number;
  by_merchant : list MerchantRow
}.

Record BnplPayload : Type := {
  from : option string;
  to : option string;
  refreshed_at : time;
  applications : option number;
  approval_rate_pct : option number;
  n_applied : option number;
  n_kyc_completed : option number;
  n_credit_check_completed : option number;
  n_plan_creation : option number;
  n_initial_collection : option number;
  n_consumers_with_plan : option number;
  n_consumers_with_plan_all : option number;
  n_overdue : option number;
  loan_book : option LoanBook;
  payload_total_plan_amount : option number;
  first_attempt_pct : option number;
  default_rate_pct : option number;
  penalty_ratio_pct : option number;
  payload_merchant : MerchantBlock;
  error : option string
}.

(** The mapping of one row of the merchant breakdown.  Reading a property of
    [null] or [undefined] throws. *)
Definition merchant_row_of (rt : Runtime) (r : row) : thrown + MerchantRow :=
  match r with
  | RPrimitive VUndefined | RPrimitive VNull =>
      inl (ErrorObj "Cannot read properties of null or undefined")
  | _ =>
      let fields := match r with RObject fs => fs | RPrimitive _ => [] end in
      let get (key : string) : value :=
        coalesce (coalesce (get_prop fields key) (get_prop fields (toLowerCase key)))
                 (get_prop fields (toUpperCase key)) in
      inr {| merchant :=
               js_String rt (coalesce (coalesce (get "merchant") (get "MERCHANT"))
                                      (VStr "(blank)"));
             plan_count :=
               number_or_zero rt (coalesce (coalesce (get "plan_count") (get "PLAN_COUNT"))
                                           (VNum 0%Q));
             total_plan_amount :=
               number_or_zero rt (coalesce (coalesce (get "total_plan_amount")
                                                     (get "TOTAL_PLAN_AMOUNT"))
                                           (VNum 0%Q)) |}
  end.

(** [rows.map(...)], stopping at the first callback that throws. *)
Fixpoint map_rows (rt : Runtime) (rows : list row) : thrown + list MerchantRow :=
  match rows with
  | [] => inr []
  | r :: rest =>
      match merchant_row_of rt r with
      | inl e => inl e
      | inr m =>
          match map_rows rt rest with
          | inl e => inl e
          | inr ms => inr (m :: ms)
          end
      end
  end.

Section WithEnvironment.

Variable env_EXCLUDE_TEST_USERS : option string.
Variable rt : Runtime.

Definition loadMerchantBreakdown (conn : World) (from to : option string)
    : async (list MerchantRow) :=
  try_catch
    (bind (await_call
             (executeAsync conn Q_merchant_rows
                (merchantBreakdownSql env_EXCLUDE_TEST_USERS from to)))
       (fun rows =>
          match rows with
          | [] => ret []
          | _ => match map_rows rt rows with
                 | inl e => throw e
                 | inr ms => ret ms
                 end
          end))
    (fun _ => ret []).

(** Run promise; on timeout return null instead of throwing. *)
Definition withTimeoutNull {T : Type} (timer_first : bool)
    (promise_ : promise T) (ms : N) : async (option T) :=
  fun now =>
    let timeout : promise (option T) := after now ms (Fulfilled None) in
    try_catch
      (bind (await (Promise_race timer_first (widen promise_) timeout))
         (fun result => ret result))
      (fun _ => ret None)
      now.

Definition BOUNDED_QUERY_TIMEOUT_MS : N := 20000.
Definition SLOW_QUERY_TIMEOUT_MS : N := 8000.

(** The derived fields, by the names of the local variables that hold them. *)

Definition approval_rate (n_credit_check_completed n_applied : option number)
    : option number :=
  match n_credit_check_completed, n_applied with
  | Some credit, Some applied =>
      if gt applied 0%Q
      then Some (div (Math_round (mul (div (mul 100%Q credit) applied) 10%Q)) 10%Q)
      else None
  | _, _ => None
  end.

Definition totalVol (byMerchant : list MerchantRow) : number :=
  fold_left (fun s r => add s (total_plan_amount r)) byMerchant 0%Q.

Definition top3Vol (byMerchant : list MerchantRow) : number :=
  fold_left (fun s r => add s (total_plan_amount r)) (firstn 3 byMerchant) 0%Q.

Definition top3_share (byMerchant : list MerchantRow) : option number :=
  if gt (totalVol byMerchant) 0%Q
  then Some (Math_round (div (mul 100%Q (top3Vol byMerchant)) (totalVol byMerchant)))
  else None.

Definition merchant_block (merchantRows : option (list MerchantRow)) : MerchantBlock :=
  let byMerchant := or_default merchantRows [] in
  {| top3_volume_pct := top3_share byMerchant;
     n_merchants := Some (of_Z (Z.of_nat (List.length byMerchant)));
     by_merchant := byMerchant |}.

(** The payload as it is first created. *)
Definition initial_payload (from to : option string) (now : time) : BnplPayload :=
  {| from := from;
     to := to;
     refreshed_at := now;
     applications := None;
     approval_rate_pct := None;
     n_applied := None;
     n_kyc_completed := None;
     n_credit_check_completed := None;
     n_plan_creation := None;
     n_initial_collection := None;
     n_consumers_with_plan := None;
     n_consumers_with_plan_all := None;
     n_overdue := None;
     loan_book := None;
     payload_total_plan_amount := None;
     first_attempt_pct := None;
     default_rate_pct := None;
     penalty_ratio_pct := None;
     payload_merchant :=
       {| top3_volume_pct := None; n_merchants := None; by_merchant := [] |};
     error := None |}.

(** [payload.error = message] *)
Definition set_error (p : BnplPayload) (message : string) : BnplPayload :=
  {| from := from p;
     to := to p;
     refreshed_at := refreshed_at p;
     applications := applications p;
     approval_rate_pct := approval_rate_pct p;
     n_applied := n_applied p;
     n_kyc_completed := n_kyc_completed p;
     n_credit_check_completed := n_credit_check_completed p;
     n_plan_creation := n_plan_creation p;
     n_initial_collection := n_initial_collection p;
     n_consumers_with_plan := n_consumers_with_plan p;
     n_consumers_with_plan_all := n_consumers_with_plan_all p;
     n_overdue := n_overdue p;
     loan_book := loan_book p;
     payload_total_plan_amount := payload_total_plan_amount p;
     first_attempt_pct := first_attempt_pct p;
     default_rate_pct := default_rate_pct p;
     penalty_ratio_pct := penalty_ratio_pct p;
     payload_merchant := payload_merchant p;
     error := Some message |}.

(** What the thirteen promises have resolved to. *)
Record Gathered : Type := {
  g_applied : option (option number);
  g_credit_check_completed : option (option number);
  g_kyc_completed : option (option number);
  g_plan_creation : option (option number);
  g_initial_collection : option (option number);
  g_consumers_with_plan : option (option number);
  g_total_settled : option (option number);
  g_total_collected : option (option number);
  g_total_plan_amount : option (option number);
  g_merchantRows : option (list MerchantRow);
  g_consumers_with_plan_all : option (option number);
  g_overdue : option (option number);
  g_credit_allocated : option (option number)
}.

(** The assignments that follow the [await Promise.all]. *)
Definition fill (p : BnplPayload) (g : Gathered) : BnplPayload :=
  {| from := from p;
     to := to p;
     refreshed_at := refreshed_at p;
     applications := or_null (g_initial_collection g);
     approval_rate_pct :=
       match approval_rate (or_null (g_credit_check_completed g))
                           (or_null (g_applied g)) with
       | Some r => Some r
       | None => approval_rate_pct p
       end;
     n_applied := or_null (g_applied g);
     n_kyc_completed := or_null (g_kyc_completed g);
     n_credit_check_completed := or_null (g_credit_check_completed g);
     n_plan_creation := or_null (g_plan_creation g);
     n_initial_collection := or_null (g_initial_collection g);
     n_consumers_with_plan := or_null (g_consumers_with_plan g);
     n_consumers_with_plan_all := or_null (g_consumers_with_plan_all g);
     n_overdue := or_null (g_overdue g);
     loan_book :=
       Some {| credit_allocated := or_null (g_credit_allocated g);
               operations_settled := or_null (g_total_settled g);
               operations_collected := or_null (g_total_collected g);
               total_settled := or_null (g_total_settled g);
               total_collected := or_null (g_total_collected g) |};
     payload_total_plan_amount := or_null (g_total_plan_amount g);
     first_attempt_pct := first_attempt_pct p;
     default_rate_pct := default_rate_pct p;
     penalty_ratio_pct := penalty_ratio_pct p;
     payload_merchant := merchant_block (g_merchantRows g);
     error := error p |}.

Definition loadBnplData (conn : World) (fromDate toDate : option string)
    : async BnplPayload :=
  fun now =>
    let from := option_map (slice0 10) fromDate in
    let to := option_map (slice0 10) toDate in
    let payload := initial_payload from to now in
    let run (fn : async (option number)) (timeoutMs : N) :=
      withTimeoutNull (timer_first conn) (fn now) timeoutMs now in
    let runCountT (q : query) (sql : string) :=
      run (runCount conn q sql) BOUNDED_QUERY_TIMEOUT_MS in
    let runScalarT (q : query) (sql : string) :=
      run (runScalar conn q sql) BOUNDED_QUERY_TIMEOUT_MS in
    let env := env_EXCLUDE_TEST_USERS in
    try_catch
      (bind
         (await
            (Promise_all2 (runCountT Q_applied (appliedCountSql env from to))
            (Promise_all2 (runCountT Q_credit_check_completed (approvedCountSql env from to))
            (Promise_all2 (runCountT Q_kyc_completed (kycVerifiedCountSql env from to))
            (Promise_all2 (runCountT Q_plan_creation (planCreationSql env from to))
            (Promise_all2 (runCountT Q_initial_collection (initialCollectionSql env from to))
            (Promise_all2 (runCountT Q_consumers_with_plan (consumersWithPlanSql env from to))
            (Promise_all2 (runScalarT Q_total_settled (loanBookSettledSql env from to))
            (Promise_all2 (runScalarT Q_total_collected (loanBookCollectedSql env from to))
            (Promise_all2 (runScalarT Q_total_plan_amount (loanBookSettledSql env from to))
            (Promise_all2
               (withTimeoutNull (timer_first conn)
                  (loadMerchantBreakdown conn from to now)
                  BOUNDED_QUERY_TIMEOUT_MS now)
            (Promise_all2
               (withTimeoutNull (timer_first conn)
                  (runCount conn Q_consumers_with_plan_all
                     (consumersWithPlanSql env None None) now)
                  SLOW_QUERY_TIMEOUT_MS now)
            (Promise_all2
               (withTimeoutNull (timer_first conn)
                  (runCount conn Q_overdue OVERDUE_COUNT_SQL now)
                  SLOW_QUERY_TIMEOUT_MS now)
               (withTimeoutNull (timer_first conn)
                  (runScalar conn Q_credit_allocated CREDIT_ALLOCATED_SQL now)
                  SLOW_QUERY_TIMEOUT_MS now))))))))))))))
         (fun '(n_applied, (n_credit_check_completed, (n_kyc_completed,
                (n_plan_creation, (n_initial_collection, (n_consumers_with_plan,
                (total_settled, (total_collected, (total_plan_amount,
                (merchantRows, (n_consumers_with_plan_all, (n_overdue,
                 credit_allocated)))))))))))) =>
            ret (fill payload
                   {| g_applied := n_applied;
                      g_credit_check_completed := n_credit_check_completed;
                      g_kyc_completed := n_kyc_completed;
                      g_plan_creation := n_plan_creation;
                      g_initial_collection := n_initial_collection;
                      g_consumers_with_plan := n_consumers_with_plan;
                      g_total_settled := total_settled;
                      g_total_collected := total_collected;
                      g_total_plan_amount := total_plan_amount;
                      g_merchantRows := merchantRows;
                      g_consumers_with_plan_all := n_consumers_with_plan_all;
                      g_overdue := n_overdue;
                      g_credit_allocated := credit_allocated |})))
      (fun e => ret (set_error payload (error_message e)))
      now.

End WithEnvironment.

End Bnpl.

(** ** The entry point (app/api/bnpl/route.ts) *)

Module Route.
Import Double Js Async Store Bnpl.
Local Open Scope string_scope.

Definition emptyPayload (from to : option string) (error : string) (now : time)
    : BnplPayload :=
  {| Bnpl.from := from;
     Bnpl.to := to;
     refreshed_at := now;
     Bnpl.error := Some error;
     applications := None;
     approval_rate_pct := None;
     n_applied := None;
     n_kyc_completed := None;
     n_credit_check_completed := None;
     n_plan_creation := None;
     n_initial_collection := None;
     n_consumers_with_plan := None;
     n_consumers_with_plan_all := None;
     n_overdue := None;
     loan_book := None;
     payload_total_plan_amount := None;
     first_attempt_pct := None;
     default_rate_pct := None;
     penalty_ratio_pct := None;
     payload_merchant :=
       {| top3_volume_pct := None; n_merchants := None; by_merchant := [] |} |}.

Definition TIMEOUT_MS : N := 55000.

Definition timeout_message : string :=
  "Request timed out. Snowflake took too long — try a smaller date range or try again.".

(** [withTimeout(promise, ms)] called at [now]: the promise against a timer
    that rejects. *)
Definition withTimeout {T : Type} (timer_first : bool)
    (promise_ : promise T) (ms : N) (now : time) : promise T :=
  Promise_race timer_first promise_ (after now ms (Rejected (ErrorObj timeout_message))).

(** The query parameters of the request, [null] when absent. *)
Record Request : Type := {
  param_from : option string;
  param_to : option string
}.

(** [NextResponse.json(body, { status })] *)
Record Response : Type := {
  body : BnplPayload;
  status : N
}.

Section WithEnvironment.

Variable env_EXCLUDE_TEST_USERS : option string.
Variable rt : Runtime.

Definition GET (w : World) (request : Request) : async Response :=
  let from := param_from request in
  let to := param_to request in
  try_catch
    (bind
       (await_call (fun now =>
          withTimeout (timer_first w)
            (withConnection w
               (fun conn => loadBnplData env_EXCLUDE_TEST_USERS rt conn from to) now)
            TIMEOUT_MS now))
       (fun payload => ret {| body := payload; status := 200 |}))
    (fun err now =>
       let message := error_message err in
       ret {| body := emptyPayload from to message now; status := 500 |} now).

End WithEnvironment.

End Route.

(** ** The funnel arithmetic of the page (app/page.tsx) *)

Module Page.
Import Double Js Bnpl.
Local Open Scope string_scope.

Record DropItem : Type := {
  label : string;
  pct : number
}.

(** [Array.prototype.sort] with a comparator: the sort is stable, and a stable
    sort has one possible result, which insertion from the right computes.
    [cmp x y > 0] places [x] after [y]. *)
Fixpoint insert {A : Type} (cmp : A -> A -> number) (x : A) (l : list A) : list A :=
  match l with
  | [] => [x]
  | y :: l' => if gt (cmp x y) 0%Q then y :: insert cmp x l' else x :: l
  end.

Definition sort {A : Type} (cmp : A -> A -> number) (l : list A) : list A :=
  fold_right (insert cmp) [] l.

(** [d?.field] *)
Definition opt_field {A : Type} (d : option BnplPayload)
    (field : BnplPayload -> option A) : option A :=
  match d with
  | Some p => field p
  | None => None
  end.

(** [Math.max(0, prev - next)] *)
Definition drop (prev next : number) : number := Math_max 0%Q (sub prev next).

(** [prev ? Math.round((1000 * drop) / prev) / 10 : 0] *)
Definition pctDrop (prev dropped : number) : number :=
  if truthy prev
  then div (Math_round (div (mul 1000%Q dropped) prev)) 10%Q
  else 0%Q.

Section Derived.

(** The state [data] of the component. *)
Variable d : option BnplPayload.

Definition nApplied : number := or_default (opt_field d n_applied) 0%Q.
Definition nKyc : number := or_default (opt_field d n_kyc_completed) 0%Q.
Definition nCredit : number := or_default (opt_field d n_credit_check_completed) 0%Q.
Definition nPlan : number := or_default (opt_field d n_plan_creation) 0%Q.
Definition nInitial : number := or_default (opt_field d n_initial_collection) 0%Q.

Definition dropKyc : number := drop nApplied nKyc.
Definition dropCredit : number := drop nKyc nCredit.
Definition dropPlan : number := drop nCredit nPlan.
Definition dropInitial : number := drop nPlan nInitial.

Definition pctDropKyc : number := pctDrop nApplied dropKyc.
Definition pctDropCredit : number := pctDrop nKyc dropCredit.
Definition pctDropPlan : number := pctDrop nCredit dropPlan.
Definition pctDropInitial : number := pctDrop nPlan dropInitial.

Definition drops : list DropItem :=
  [ {| label := "Signed up → KYC"; pct := pctDropKyc |};
    {| label := "KYC → Credit check"; pct := pctDropCredit |};
    {| label := "Credit check → Plan"; pct := pctDropPlan |};
    {| label := "Plan → Initial collection"; pct := pctDropInitial |} ].

Definition sortedDrops : list DropItem :=
  sort (fun a b => sub (pct b) (pct a)) drops.

Definition firstDrop : option DropItem := hd_error sortedDrops.

(** The largest drop: [None] is the marker, rendered as a dash; [Some x] is
    rendered as the label of [x] followed by its percentage in brackets. *)
Definition largestDrop : option DropItem :=
  if forallb (fun x => eqb (pct x) 0%Q) sortedDrops
  then None
  else firstDrop.

End Derived.

End Page.

(** ** The words of the specification *)

Module Spec.
Import Double Js Async Store Catalog Bnpl Route.
Local Open Scope Q_scope.

(** [round(q, 1)]: [r] is the binary64 number nearest to [K/10], for an
    integer [K] such that no decimal with one fractional digit is nearer to
    [q] than [K/10]. *)
Definition nearest_tenth (q : Q) (r : number) : Prop :=
  exists K : Z, r = fl (inject_Z K / 10) /\ Qabs (inject_Z K - 10 * q) <= 1 # 2.

(** A rational that is a binary64 number. *)
Definition is_double (q : Q) : Prop := fl q == q.

(** [sum(volume of rows)], added up from the left. *)
Definition sum_volumes (rows : list MerchantRow) : number :=
  fold_left add (map total_plan_amount rows) 0.

(** The running sum of the two [reduce] calls of the loader, from the
    accumulator [s] on. *)
Definition vol_sum (s : number) (l : list MerchantRow) : number :=
  fold_left (fun s r => add s (total_plan_amount r)) l s.

(** [round(100 * sum(volume of first 3 rows) / sum(volume of all rows))] when
    the total volume is positive; else unknown. *)
Definition top3Share_spec (rows : list MerchantRow) : option number :=
  if gt (sum_volumes rows) 0
  then Some (Math_round (div (mul 100 (sum_volumes (firstn 3 rows))) (sum_volumes rows)))
  else None.

Section Timing.
Local Open Scope N_scope.

(** *** Timeouts *)

(** Does an operation that settles at [t] beat a timer that fires at
    [deadline]? *)
Definition operation_first (timer_first : bool) (t deadline : time) : bool :=
  (t <? deadline) || ((t =? deadline) && negb timer_first).

(** What [withTimeoutNull] resolves to, and when. *)
Definition timeout_result {T : Type} (timer_first : bool)
    (p : promise T) (ms : N) (now : time) : option T :=
  match p with
  | Some (t, Fulfilled v) =>
      if operation_first timer_first t (now + ms) then Some v else None
  | _ => None
  end.

Definition timeout_time {T : Type} (timer_first : bool)
    (p : promise T) (ms : N) (now : time) : time :=
  match p with
  | Some (t, _) =>
      if operation_first timer_first t (now + ms) then N.max now t else now + ms
  | None => now + ms
  end.


(** The budget of each statement. *)
Definition timeout_of (q : query) : N :=
  match q with
  | Q_consumers_with_plan_all | Q_overdue | Q_credit_allocated => SLOW_QUERY_TIMEOUT_MS
  | _ => BOUNDED_QUERY_TIMEOUT_MS
  end.

(** The execution of a statement fails, never completes, or completes after
    its budget. *)
Definition fails_or_times_out (timer_first : bool) (ms : N)
    (o : option (N * (thrown + option (list row)))) : Prop :=
  match o with
  | None => True
  | Some (_, inl _) => True
  | Some (d, inr _) => operation_first timer_first d ms = false
  end.

(** The place of each statement's result in the payload. *)
Inductive query_result : Type :=
| Count (n : option number)
| Rows (rows : list MerchantRow).

Definition book_field (p : BnplPayload) (f : LoanBook -> option number) : option number :=
  match loan_book p with
  | Some lb => f lb
  | None => None
  end.

Definition result_of (q : query) (p : BnplPayload) : query_result :=
  match q with
  | Q_applied => Count (n_applied p)
  | Q_credit_check_completed => Count (n_credit_check_completed p)
  | Q_kyc_completed => Count (n_kyc_completed p)
  | Q_plan_creation => Count (n_plan_creation p)
  | Q_initial_collection => Count (n_initial_collection p)
  | Q_consumers_with_plan => Count (n_consumers_with_plan p)
  | Q_total_settled => Count (book_field p total_settled)
  | Q_total_collected => Count (book_field p total_collected)
  | Q_total_plan_amount => Count (payload_total_plan_amount p)
  | Q_merchant_rows => Rows (by_merchant (payload_merchant p))
  | Q_consumers_with_plan_all => Count (n_consumers_with_plan_all p)
  | Q_overdue => Count (n_overdue p)
  | Q_credit_allocated => Count (book_field p credit_allocated)
  end.


(** *** The store is unreachable *)

Definition unreachable (w : World) : Prop :=
  match create_throws w, connect_outcome w with
  | Some _, _ => True
  | None, None => True
  | None, Some (_, Some _) => True
  | None, Some (_, None) => False
  end.

(** The error with which the connection attempt fails, if it does. *)
Definition connection_failure (w : World) : option thrown :=
  match create_throws w, connect_outcome w with
  | Some e, _ => Some e
  | None, Some (_, Some e) => Some e
  | None, _ => None
  end.

(** Every metric field holds the representation of unknown. *)
Definition all_unknown (p : BnplPayload) : Prop :=
  applications p = None /\ approval_rate_pct p = None /\ n_applied p = None
  /\ n_kyc_completed p = None /\ n_credit_check_completed p = None
  /\ n_plan_creation p = None /\ n_initial_collection p = None
  /\ n_consumers_with_plan p = None /\ n_consumers_with_plan_all p = None
  /\ n_overdue p = None /\ loan_book p = None /\ payload_total_plan_amount p = None
  /\ first_attempt_pct p = None /\ default_rate_pct p = None
  /\ penalty_ratio_pct p = None
  /\ payload_merchant p
     = {| top3_volume_pct := None; n_merchants := None; by_merchant := [] |}.


(** What the handler makes of the promise that [withTimeout] returns. *)
Definition respond (request : Request) (p : promise BnplPayload) (now : time)
    : promise Response :=
  match p with
  | None => None
  | Some (t, Fulfilled payload) =>
      Some (N.max now t, Fulfilled {| body := payload; status := 200 |})
  | Some (t, Rejected err) =>
      Some (N.max now t,
            Fulfilled {| body := emptyPayload (param_from request) (param_to request)
                                   (error_message err) (N.max now t);
                         status := 500 |})
  end.


Section WithEnvironment.
Variable env : option string.
Variable rt : Runtime.

(** What the thirteen promises of the loader resolve to. *)
Definition gathered (w : World) (from to : option string) (now : time) : Gathered :=
  let tf := timer_first w in
  {| g_applied :=
       timeout_result tf (runCount w Q_applied (appliedCountSql env from to) now)
         BOUNDED_QUERY_TIMEOUT_MS now;
     g_credit_check_completed :=
       timeout_result tf
         (runCount w Q_credit_check_completed (approvedCountSql env from to) now)
         BOUNDED_QUERY_TIMEOUT_MS now;
     g_kyc_completed :=
       timeout_result tf (runCount w Q_kyc_completed (kycVerifiedCountSql env from to) now)
         BOUNDED_QUERY_TIMEOUT_MS now;
     g_plan_creation :=
       timeout_result tf (runCount w Q_plan_creation (planCreationSql env from to) now)
         BOUNDED_QUERY_TIMEOUT_MS now;
     g_initial_collection :=
       timeout_result tf
         (runCount w Q_initial_collection (initialCollectionSql env from to) now)
         BOUNDED_QUERY_TIMEOUT_MS now;
     g_consumers_with_plan :=
       timeout_result tf
         (runCount w Q_consumers_with_plan (consumersWithPlanSql env from to) now)
         BOUNDED_QUERY_TIMEOUT_MS now;
     g_total_settled :=
       timeout_result tf (runScalar w Q_total_settled (loanBookSettledSql env from to) now)
         BOUNDED_QUERY_TIMEOUT_MS now;
     g_total_collected :=
       timeout_result tf
         (runScalar w Q_total_collected (loanBookCollectedSql env from to) now)
         BOUNDED_QUERY_TIMEOUT_MS now;
     g_total_plan_amount :=
       timeout_result tf
         (runScalar w Q_total_plan_amount (loanBookSettledSql env from to) now)
         BOUNDED_QUERY_TIMEOUT_MS now;
     g_merchantRows :=
       timeout_result tf (loadMerchantBreakdown env rt w from to now)
         BOUNDED_QUERY_TIMEOUT_MS now;
     g_consumers_with_plan_all :=
       timeout_result tf
         (runCount w Q_consumers_with_plan_all (consumersWithPlanSql env None None) now)
         SLOW_QUERY_TIMEOUT_MS now;
     g_overdue :=
       timeout_result tf (runCount w Q_overdue OVERDUE_COUNT_SQL now)
         SLOW_QUERY_TIMEOUT_MS now;
     g_credit_allocated :=
       timeout_result tf (runScalar w Q_credit_allocated CREDIT_ALLOCATED_SQL now)
         SLOW_QUERY_TIMEOUT_MS now |}.


End WithEnvironment.

End Timing.

End Spec.

(** ** The scenarios of the specification *)

Module Scenarios.
Import Double Js Async Store Bnpl Route Page.
Local Open Scope string_scope.

(** A payload that carries the five funnel counts and nothing else. *)
Definition funnel_payload (applied kyc credit plan initial : option number)
    : BnplPayload :=
  {| from := None;
     to := None;
     refreshed_at := 0%N;
     applications := initial;
     approval_rate_pct := None;
     n_applied := applied;
     n_kyc_completed := kyc;
     n_credit_check_completed := credit;
     n_plan_creation := plan;
     n_initial_collection := initial;
     n_consumers_with_plan := None;
     n_consumers_with_plan_all := None;
     n_overdue := None;
     loan_book := None;
     payload_total_plan_amount := None;
     first_attempt_pct := None;
     default_rate_pct := None;
     penalty_ratio_pct := None;
     payload_merchant :=
       {| top3_volume_pct := None; n_merchants := None; by_merchant := [] |};
     error := None |}.

(** Scenario A: applied 1000, KYC 800, credit check 720, plan creation 650,
    initial collection 600. *)
Definition scenario_A : BnplPayload :=
  funnel_payload (Some 1000%Q) (Some 800%Q) (Some 720%Q) (Some 650%Q) (Some 600%Q).

(** Scenario B: merchants A, B, C, D with volumes 1000, 600, 400, 100. *)
Definition scenario_B : list MerchantRow :=
  [ {| merchant := "A"; plan_count := 1%Q; total_plan_amount := 1000%Q |};
    {| merchant := "B"; plan_count := 1%Q; total_plan_amount := 600%Q |};
    {| merchant := "C"; plan_count := 1%Q; total_plan_amount := 400%Q |};
    {| merchant := "D"; plan_count := 1%Q; total_plan_amount := 100%Q |} ].

(** One merchant whose plans add up to nothing. *)
Definition zero_volume_merchant : list MerchantRow :=
  [ {| merchant := "A"; plan_count := 1%Q; total_plan_amount := 0%Q |} ].

(** A runtime for scenarios in which no number is rendered and no string is
    read as a number. *)
Definition plain_runtime : Runtime :=
  {| NumberToString := fun _ => "";
     StringToNumber := fun _ => None |}.

(** The single row of a count or of a sum. *)
Definition one_row (n : number) : option (list row) :=
  Some [RObject [("N", VNum n)]].

Definition merchant_object (name : string) (count volume : number) : row :=
  RObject [("MERCHANT", VStr name); ("PLAN_COUNT", VNum count);
           ("TOTAL_PLAN_AMOUNT", VNum volume)].

(** A store that answers every statement in time: the funnel of scenario A,
    the merchants of scenario B, and 7 for everything else. *)
Definition healthy_store : World :=
  {| create_throws := None;
     connect_outcome := Some (40%N, None);
     execute_outcome := fun q _ =>
       match q with
       | Q_applied => Some (25%N, inr (one_row 1000%Q))
       | Q_kyc_completed => Some (25%N, inr (one_row 800%Q))
       | Q_credit_check_completed => Some (25%N, inr (one_row 720%Q))
       | Q_plan_creation => Some (30%N, inr (one_row 650%Q))
       | Q_initial_collection => Some (30%N, inr (one_row 600%Q))
       | Q_merchant_rows =>
           Some (35%N, inr (Some [merchant_object "A" 1%Q 1000%Q;
                                  merchant_object "B" 1%Q 600%Q;
                                  merchant_object "C" 1%Q 400%Q;
                                  merchant_object "D" 1%Q 100%Q]))
       | _ => Some (20%N, inr (one_row 7%Q))
       end;
     timer_first := true |}.

Definition query_eqb (a b : query) : bool :=
  match a, b with
  | Q_applied, Q_applied
  | Q_credit_check_completed, Q_credit_check_completed
  | Q_kyc_completed, Q_kyc_completed
  | Q_plan_creation, Q_plan_creation
  | Q_initial_collection, Q_initial_collection
  | Q_consumers_with_plan, Q_consumers_with_plan
  | Q_total_settled, Q_total_settled
  | Q_total_collected, Q_total_collected
  | Q_total_plan_amount, Q_total_plan_amount
  | Q_merchant_rows, Q_merchant_rows
  | Q_consumers_with_plan_all, Q_consumers_with_plan_all
  | Q_overdue, Q_overdue
  | Q_credit_allocated, Q_credit_allocated => true
  | _, _ => false
  end.

(** The same world, but for the execution of one statement. *)
Definition with_outcome (w : World) (q : query)
    (o : option (N * (thrown + option (list row)))) : World :=
  {| create_throws := create_throws w;
     connect_outcome := connect_outcome w;
     execute_outcome := fun q' sql => if query_eqb q' q then o else execute_outcome w q' sql;
     timer_first := timer_first w |}.

(** The count of applications never completes. *)
Definition applied_hangs : World := with_outcome healthy_store Q_applied None.

(** The merchant breakdown fails. *)
Definition merchant_rejected : World :=
  with_outcome healthy_store Q_merchant_rows
    (Some (35%N, inl (ErrorObj "SQL compilation error"))).

(** The merchant breakdown succeeds and finds no merchant. *)
Definition merchant_empty : World :=
  with_outcome healthy_store Q_merchant_rows (Some (35%N, inr (Some []))).

(** Every statement succeeds and returns no row. *)
Definition zero_rows_store : World :=
  {| create_throws := None;
     connect_outcome := Some (40%N, None);
     execute_outcome := fun _ _ => Some (10%N, inr (Some []));
     timer_first := true |}.

(** The connection is refused, with and without an explanation. *)
Definition refused_store : World :=
  {| create_throws := None;
     connect_outcome := Some (10%N, Some (ErrorObj "Network error. Could not reach Snowflake."));
     execute_outcome := fun _ _ => None;
     timer_first := true |}.

Definition silent_refusal_store : World :=
  {| create_throws := None;
     connect_outcome := Some (10%N, Some (ErrorObj ""));
     execute_outcome := fun _ _ => None;
     timer_first := true |}.

(** The connection attempt never calls back. *)
Definition black_hole_store : World :=
  {| create_throws := None;
     connect_outcome := None;
     execute_outcome := fun _ _ => None;
     timer_first := true |}.

Definition january : Request :=
  {| param_from := Some "2024-01-01"; param_to := Some "2024-01-31" |}.

End Scenarios.

(** ** The connection options (lib/snowflake.ts) *)

Module Connection.
Import Js.
Local Open Scope string_scope.

(** [process.env]: the value of a variable, [None] when it is not set. *)
Definition Env : Type := string -> option string.

(** Truthiness of a string. *)
Definition nonempty (s : string) : bool :=
  match s with
  | EmptyString => false
  | String _ _ => true
  end.

(** [s.replace(/^\/+|\/+$/g, '')]: the slashes at both ends go. *)
Fixpoint strip_leading_slashes (s : string) : string :=
  match s with
  | String c s' => if Ascii.eqb c "/"%char then strip_leading_slashes s' else s
  | EmptyString => EmptyString
  end.

Fixpoint strip_trailing_slashes (s : string) : string :=
  match s with
  | EmptyString => EmptyString
  | String c s' =>
      match strip_trailing_slashes s' with
      | EmptyString => if Ascii.eqb c "/"%char then EmptyString else String c EmptyString
      | t => String c t
      end
  end.

Definition strip_slashes (s : string) : string :=
  strip_trailing_slashes (strip_leading_slashes s).

(** [s.split('/')] *)
Fixpoint split_slash (s : string) : list string :=
  match s with
  | EmptyString => [EmptyString]
  | String c s' =>
      match split_slash s' with
      | h :: t => if Ascii.eqb c "/"%char then EmptyString :: h :: t else String c h :: t
      | [] => [String c EmptyString]
      end
  end.

(** [path.split('/').filter(Boolean)] *)
Definition path_parts (path : string) : list string :=
  filter nonempty (split_slash path).

Record ConnectionOptions : Type := {
  account : string;
  username : string;
  password : string;
  warehouse : string;
  database : string;
  schema : string
}.

Section WithEnvironment.

Variable env : Env.

(** [new URL(s).pathname], [None] when the constructor throws. *)
Variable URL_pathname : string -> option string.

(** [(process.env.NAME ?? '').trim()] *)
Definition env_trimmed (name : string) : string :=
  trim (or_default (env name) "").

Definition getConnectionOptions : ConnectionOptions :=
  let account_ := env_trimmed "SNOWFLAKE_ACCOUNT" in
  let accountLocator :=
    if includes "snowflake.com" account_
    then match URL_pathname account_ with
         | Some pathname =>
             match path_parts (strip_slashes pathname) with
             | p0 :: p1 :: _ => p0 ++ "-" ++ p1
             | [p0] => p0
             | [] => account_
             end
         | None => account_
         end
    else account_ in
  let region := env_trimmed "SNOWFLAKE_REGION" in
  let accountLocator :=
    if nonempty region && negb (includes "." accountLocator)
    then accountLocator ++ "." ++ region
    else accountLocator in
  {| account := accountLocator;
     username := env_trimmed "SNOWFLAKE_USER";
     password := env_trimmed "SNOWFLAKE_PASSWORD";
     warehouse := env_trimmed "SNOWFLAKE_WAREHOUSE";
     database := env_trimmed "SNOWFLAKE_DATABASE";
     schema :=
       let s := trim (let v := or_default (env "SNOWFLAKE_SCHEMA") "" in
                      if nonempty v then v else "PUBLIC") in
       if nonempty s then s else "PUBLIC" |}.

End WithEnvironment.

End Connection.

(** ** The diagnostic routes (app/api/check-env, app/api/check-snowflake) *)

Module Diagnostics.
Import Js Async Store Connection Spec.
Local Open Scope string_scope.
Local Open Scope N_scope.

(** *** GET /api/check-env *)

Definition REQUIRED : list string :=
  ["SNOWFLAKE_ACCOUNT"; "SNOWFLAKE_USER"; "SNOWFLAKE_PASSWORD"; "SNOWFLAKE_WAREHOUSE";
   "SNOWFLAKE_DATABASE"].

Definition OPTIONAL : list string := ["SNOWFLAKE_SCHEMA"; "SNOWFLAKE_REGION"].

(** [typeof val === 'string' && val.trim().length > 0] *)
Definition is_set (val : option string) : bool :=
  match val with
  | Some s => nonempty (trim s)
  | None => false
  end.

(** [record[key]] as a condition, in a [Record<string, boolean>]. *)
Fixpoint flag (record : list (string * bool)) (key : string) : bool :=
  match record with
  | [] => false
  | (k, v) :: rest => if String.eqb k key then v else flag rest key
  end.

Record EnvReport : Type := {
  report_ok : bool;
  report_message : string;
  required : list (string * bool);
  optional : list (string * bool)
}.

Definition check_env (env : Env) : EnvReport :=
  let required := map (fun key => (key, is_set (env key))) REQUIRED in
  let optional := map (fun key => (key, is_set (env key))) OPTIONAL in
  let allRequiredSet := forallb (fun k => flag required k) REQUIRED in
  {| report_ok := allRequiredSet;
     report_message :=
       if allRequiredSet
       then "All required Snowflake env vars are set."
       else "Some required env vars are missing or empty. Add them in Vercel → Project → Settings → Environment Variables.";
     required := required;
     optional := optional |}.

(** *** GET /api/check-snowflake *)

Record EnvFlags : Type := {
  env_account : bool;
  env_user : bool;
  env_password : bool;
  env_warehouse : bool;
  env_database : bool
}.

Record CheckResult : Type := {
  ok : bool;
  step : string;
  durationMs : N;
  env_flags : EnvFlags;
  accountHint : option string;
  error : option string;
  code : option string
}.

(** [!!(process.env.NAME?.trim())] *)
Definition present (val : option string) : bool :=
  match val with
  | Some s => nonempty (trim s)
  | None => false
  end.

Definition connectTimeoutMs : N := 15000.

Section WithEnvironment.

Variable env : Env.
Variable URL_pathname : string -> option string.

(** [String(e.code)] for a thrown value whose [code] is truthy. *)
Variable code_of : thrown -> option string.

Definition account_hint : string :=
  let account_ := env_trimmed env "SNOWFLAKE_ACCOUNT" in
  if includes "snowflake.com" account_
  then match URL_pathname account_ with
       | Some pathname =>
           match path_parts (strip_slashes pathname) with
           | p0 :: p1 :: _ => p0 ++ "-" ++ p1
           | _ => slice0 20 account_
           end
       | None => slice0 20 account_
       end
  else slice0 10 account_
       ++ (if (10 <? String.length account_)%nat then "â€¦" else "").

(** The handler, started at [start].  The error of the timer carries no
    [code]; [timed_out] tells which of the two promises of the race the
    handler has caught. *)
Definition GET (w : World) : async CheckResult :=
  fun start =>
    let flags :=
      {| env_account := present (env "SNOWFLAKE_ACCOUNT");
         env_user := present (env "SNOWFLAKE_USER");
         env_password := present (env "SNOWFLAKE_PASSWORD");
         env_warehouse := present (env "SNOWFLAKE_WAREHOUSE");
         env_database := present (env "SNOWFLAKE_DATABASE") |} in
    if negb (env_account flags) || negb (env_user flags) || negb (env_password flags)
       || negb (env_warehouse flags) || negb (env_database flags)
    then
      ret {| ok := false; step := "env_missing"; durationMs := start - start;
             env_flags := flags; accountHint := None; error := None; code := None |}
          start
    else
      match create_throws w with
      | Some e =>
          ret {| ok := false; step := "create_failed"; durationMs := start - start;
                 env_flags := flags; accountHint := Some account_hint;
                 error := Some (error_message e); code := None |}
              start
      | None =>
          let connectPromise := connectAsync w start in
          let timeoutPromise : promise unit :=
            after start connectTimeoutMs
              (Rejected (ErrorObj "Connection timed out after 15s")) in
          let timed_out :=
            match connectPromise with
            | Some (t, _) =>
                negb (operation_first (timer_first w) t (start + connectTimeoutMs))
            | None => true
            end in
          try_catch
            (bind (await (Promise_race (timer_first w) connectPromise timeoutPromise))
               (fun _ now =>
                  ret {| ok := true; step := "connected"; durationMs := now - start;
                         env_flags := flags; accountHint := Some account_hint;
                         error := None; code := None |}
                      now))
            (fun e now =>
               ret {| ok := false; step := "connect_failed"; durationMs := now - start;
                      env_flags := flags; accountHint := Some account_hint;
                      error := Some (error_message e);
                      code := if timed_out then None else code_of e |}
                   now)
            start
      end.

End WithEnvironment.

End Diagnostics.

(** ** The legacy route (app/api/metrics) *)

Module Legacy.
Import Double Js Async Store Connection.
Local Open Scope string_scope.

Definition INSTALMENT_PLAN_COUNT_SQL : string :=
  trim (nl
    ++ "SELECT COUNT(*) AS n" ++ nl
    ++ "FROM CDC_BNPL_PRODUCTION.PUBLIC.INSTALMENT_PLAN" ++ nl
    ++ "WHERE (status = 'ACTIVE' OR status = 'COMPLETED')" ++ nl).

Definition INSTALMENT_PLAN_COUNT_DATE_SQL : string :=
  trim (nl
    ++ "SELECT COUNT(*) AS n" ++ nl
    ++ "FROM CDC_BNPL_PRODUCTION.PUBLIC.INSTALMENT_PLAN" ++ nl
    ++ "WHERE (status = 'ACTIVE' OR status = 'COMPLETED')" ++ nl
    ++ "  AND DATE(created_at) >= ? AND DATE(created_at) <= ?" ++ nl).

(** The query parameters of the request, [null] when absent. *)
Record Request : Type := {
  param_from : option string;
  param_to : option string
}.

(** The JSON body; a field that the handler leaves out is [None]. *)
Record Body : Type := {
  ok : bool;
  instalment_plan_count : option number;
  from : option string;
  to : option string;
  error : option string;
  refreshed_at : time
}.

Record Response : Type := {
  body : Body;
  status : N
}.

Section WithClient.

(** [runCount(conn, sql, binds)]: the client's count of a statement with
    bound values. *)
Variable runCount : World -> string -> list string -> async (option number).

Definition GET (w : World) (request : Request) : async Response :=
  let from := or_default (option_map (slice0 10) (param_from request)) "" in
  let to := or_default (option_map (slice0 10) (param_to request)) "" in
  try_catch
    (bind
       (await_call
          (withConnection w (fun conn =>
             if nonempty from && nonempty to
             then runCount conn INSTALMENT_PLAN_COUNT_DATE_SQL [from; to]
             else runCount conn INSTALMENT_PLAN_COUNT_SQL [])))
       (fun count now =>
          ret {| body := {| ok := true;
                            instalment_plan_count := count;
                            from := if nonempty from then Some from else None;
                            to := if nonempty to then Some to else None;
                            error := None;
                            refreshed_at := now |};
                 status := 200%N |}
              now))
    (fun err now =>
       let message := error_message err in
       ret {| body := {| ok := false;
                         instalment_plan_count := None;
                         from := None;
                         to := None;
                         error := Some message;
                         refreshed_at := now |};
              status := 500%N |}
           now).

End WithClient.

End Legacy.

(** ** More of the page (app/page.tsx) *)

Module Dashboard.
Import Double Js Async Bnpl Page Connection.
Local Open Scope string_scope.

(** [REVENUE_RATE = 0.0499] (lib/constants.ts) *)
Definition REVENUE_RATE : number := fl (499 # 10000).

(** [a < b] and [Math.floor]. *)
Definition lt (a b : number) : bool := negb (Qle_bool b a).
Definition Math_floor (x : number) : number := inject_Z (Qfloor x).

(** [fallbackErrorPayload()], for the two dates of the form and the time of
    the call; the caller adds the error. *)
Definition fallbackErrorPayload (from to : string) (now : time) : BnplPayload :=
  {| Bnpl.from := if nonempty from then Some from else None;
     Bnpl.to := if nonempty to then Some to else None;
     refreshed_at := now;
     applications := None;
     approval_rate_pct := None;
     n_applied := None;
     n_kyc_completed := None;
     n_credit_check_completed := None;
     n_plan_creation := None;
     n_initial_collection := None;
     n_consumers_with_plan := None;
     n_consumers_with_plan_all := None;
     n_overdue := None;
     loan_book := None;
     payload_total_plan_amount := None;
     first_attempt_pct := None;
     default_rate_pct := None;
     penalty_ratio_pct := None;
     payload_merchant :=
       {| top3_volume_pct := None; n_merchants := None; by_merchant := [] |};
     error := None |}.

Definition totalRevenue (d : option BnplPayload) : option number :=
  match opt_field d payload_total_plan_amount with
  | Some total_plan_amount =>
      if gt total_plan_amount 0%Q
      then Some (mul total_plan_amount REVENUE_RATE)
      else None
  | None => None
  end.

(** [a ?? b] on two numbers that may be null. *)
Definition or_else (a b : option number) : option number :=
  match a with
  | Some x => Some x
  | None => b
  end.

(** The funding gap of the loan-book panel, [None] where [fmtRand] is handed
    null. *)
Definition fundingGap (lb : LoanBook) : option number :=
  let settled := or_else (operations_settled lb) (total_settled lb) in
  let collected := or_else (operations_collected lb) (total_collected lb) in
  match settled, collected with
  | Some _, Some _ =>
      Some (Math_max 0%Q (sub (or_default settled 0%Q) (or_default collected 0%Q)))
  | _, _ => None
  end.

Section Clock.

Variable rt : Runtime.

(** [new Date(iso).getTime()], [None] for NaN (an invalid date). *)
Variable Date_getTime : string -> option Z.

(** [d.toLocaleString(undefined, { dateStyle: 'medium', timeStyle: 'short' })]
    for the date with the given time value. *)
Variable Date_toLocaleString : option Z -> thrown + string.

(** [Date.now()] *)
Variable Date_now : Z.

Definition formatRefreshed (iso : string) : string :=
  let d := Date_getTime iso in
  let rendered :=
    match Date_toLocaleString d with
    | inr s => s
    | inl _ => "—"
    end in
  match d with
  | None => rendered
  | Some t =>
      let sec := div (sub (of_Z Date_now) (of_Z t)) 1000%Q in
      if lt sec 60%Q then "Last run: just now"
      else if lt sec 3600%Q
           then "Last run: " ++ NumberToString rt (Math_floor (div sec 60%Q)) ++ " min ago"
           else rendered
  end.

End Clock.

End Dashboard.

(** ** Terms of the further properties *)

Module Terms.
Import Double Js Catalog Spec Diagnostics Connection.
Local Open Scope string_scope.

(** Does the character occur in the string? *)
Fixpoint has_char (c : ascii) (s : string) : bool :=
  match s with
  | EmptyString => false
  | String a s' => Ascii.eqb a c || has_char c s'
  end.

(** Is the character the last one of the string? *)
Fixpoint ends_with (c : ascii) (s : string) : bool :=
  match s with
  | EmptyString => false
  | String a EmptyString => Ascii.eqb a c
  | String _ s' => ends_with c s'
  end.

(** A string that does not begin with white space. *)
Definition no_lead (s : string) : Prop :=
  match s with
  | EmptyString => True
  | String c _ => is_space c = false
  end.

(** The clause that keeps the test users out of a builder's statement. *)
Definition exclusion_clause (b : builder) : string :=
  match b with
  | AppliedCount | ApprovedCount | KycVerifiedCount =>
      " AND ID NOT IN (SELECT ID FROM CDC_CONSUMER_PROFILE_PRODUCTION.PUBLIC.CONSUMER_PROFILE WHERE LOWER(EMAIL) LIKE '%stitch.money%')"
  | LoanBookCollected =>
      " AND ip.CONSUMER_PROFILE_ID NOT IN (SELECT ID FROM CDC_CONSUMER_PROFILE_PRODUCTION.PUBLIC.CONSUMER_PROFILE WHERE LOWER(EMAIL) LIKE '%stitch.money%')"
  | _ =>
      " AND CONSUMER_PROFILE_ID NOT IN (SELECT ID FROM CDC_CONSUMER_PROFILE_PRODUCTION.PUBLIC.CONSUMER_PROFILE WHERE LOWER(EMAIL) LIKE '%stitch.money%')"
  end.

(** A row that is [null] or [undefined]. *)
Definition nullish_row (r : row) : bool :=
  match r with
  | RPrimitive VUndefined | RPrimitive VNull => true
  | _ => false
  end.

(** A count as the warehouse reports it: a binary64 number between 0 and
    [2 ^ 53]. *)
Definition count_like (x : number) : Prop :=
  (is_double x /\ 0 <= x /\ x <= inject_Z (2 ^ 53))%Q.

(** Do the five required variables of the diagnostic routes have a value? *)
Definition all_present (env : Env) : bool :=
  present (env "SNOWFLAKE_ACCOUNT") && present (env "SNOWFLAKE_USER")
  && present (env "SNOWFLAKE_PASSWORD") && present (env "SNOWFLAKE_WAREHOUSE")
  && present (env "SNOWFLAKE_DATABASE").

End Terms.

(** ** Further scenarios *)

Module Samples.
Import Double Js Async Store Bnpl Route Page Scenarios Connection.
Local Open Scope string_scope.

(** Every statement returns one row whose single column is the string [n]. *)
Definition counts_rows (n : string) : World :=
  {| create_throws := None;
     connect_outcome := Some (40%N, None);
     execute_outcome := fun _ _ => Some (10%N, inr (Some [RObject [("N", VStr n)]]));
     timer_first := true |}.

(** The merchant breakdown returns a null row between two merchants. *)
Definition null_row_store : World :=
  with_outcome healthy_store Q_merchant_rows
    (Some (35%N, inr (Some [merchant_object "A" 1%Q 1000%Q; RPrimitive VNull;
                            merchant_object "C" 1%Q 400%Q]))).

(** The connection is established after a minute. *)
Definition slow_connect_store : World :=
  {| create_throws := None;
     connect_outcome := Some (60000%N, None);
     execute_outcome := execute_outcome healthy_store;
     timer_first := true |}.

(** An environment with a padded account, a region and a blank schema. *)
Definition sample_env : Env :=
  fun name =>
    if String.eqb name "SNOWFLAKE_ACCOUNT" then Some " xy12345 "
    else if String.eqb name "SNOWFLAKE_REGION" then Some "eu-west-1"
    else if String.eqb name "SNOWFLAKE_SCHEMA" then Some "   "
    else if String.eqb name "SNOWFLAKE_USER" then Some "svc"
    else if String.eqb name "SNOWFLAKE_PASSWORD" then Some "secret"
    else if String.eqb name "SNOWFLAKE_WAREHOUSE" then Some "COMPUTE_WH"
    else if String.eqb name "SNOWFLAKE_DATABASE" then Some "CDC"
    else None.

(** The same environment without its password. *)
Definition incomplete_env : Env :=
  fun name => if String.eqb name "SNOWFLAKE_PASSWORD" then None else sample_env name.

(** A payload that carries the total plan amount and nothing else. *)
Definition plan_amount_payload (amount : option number) : BnplPayload :=
  {| from := None;
     to := None;
     refreshed_at := 0%N;
     applications := None;
     approval_rate_pct := None;
     n_applied := None;
     n_kyc_completed := None;
     n_credit_check_completed := None;
     n_plan_creation := None;
     n_initial_collection := None;
     n_consumers_with_plan := None;
     n_consumers_with_plan_all := None;
     n_overdue := None;
     loan_book := None;
     payload_total_plan_amount := amount;
     first_attempt_pct := None;
     default_rate_pct := None;
     penalty_ratio_pct := None;
     payload_merchant :=
       {| top3_volume_pct := None; n_merchants := None; by_merchant := [] |};
     error := None |}.

(** A loan book whose settled amount is known under one name and whose
    collected amount under the other. *)
Definition mixed_loan_book : LoanBook :=
  {| credit_allocated := None;
     operations_settled := None;
     operations_collected := Some 900%Q;
     total_settled := Some 700%Q;
     total_collected := None |}.

(** Scenario A with the last three stages level: two pairs share no drop and
    the first pair has the largest. *)
Definition level_funnel : BnplPayload :=
  funnel_payload (Some 1000%Q) (Some 800%Q) (Some 640%Q) (Some 640%Q) (Some 640%Q).

(** The counts of KYC and of plan creation are unknown. *)
Definition gapped_funnel : BnplPayload :=
  funnel_payload (Some 1000%Q) None (Some 720%Q) None None.

(** A client of the legacy route that counts 12 plans after 30 ms. *)
Definition twelve_plans : World -> string -> list string -> async (option number) :=
  fun _ _ _ now => Some ((now + 30)%N, Fulfilled (Some 12%Q)).

End Samples.

(* ================================================================== *)
(** * Part II. Properties *)
(* ================================================================== *)

(** ** Rounding to binary64 *)

Module DoubleFacts.
Import Double.
Local Open Scope Q_scope.

(** Powers of two. *)
Lemma pow2_pos e : 0 < pow2 e.
Proof. apply Qpower_0_lt. reflexivity. Qed.

Lemma pow2_add a b : pow2 (a + b) == pow2 a * pow2 b.
Proof. apply Qpower_plus. discriminate. Qed.

Lemma pow2_succ e : pow2 (e + 1) == 2 * pow2 e.
Proof. rewrite pow2_add. change (pow2 1) with 2. ring. Qed.

Lemma pow2_pred e : pow2 e == 2 * pow2 (e - 1).
Proof. rewrite <- pow2_succ. replace (e - 1 + 1)%Z with e by lia. reflexivity. Qed.

Lemma pow2_le a b : (a <= b)%Z -> pow2 a <= pow2 b.
Proof. intros H. apply Qpower_le_compat_l; [exact H | discriminate]. Qed.

Lemma pow2_lt_inv a b : pow2 a < pow2 b -> (a < b)%Z.
Proof. intros H. apply (Qpower_lt_compat_l_inv 2); [exact H | reflexivity]. Qed.

Lemma pow2_Z n : (0 <= n)%Z -> pow2 n == inject_Z (2 ^ n).
Proof. intros H. unfold pow2. rewrite Zpower_Qpower by exact H. reflexivity. Qed.

Lemma pow2_sub a b : pow2 (a - b) == pow2 a / pow2 b.
Proof.
  assert (Hb := pow2_pos b).
  assert (E : pow2 a == pow2 (a - b) * pow2 b).
  { rewrite <- pow2_add. replace (a - b + b)%Z with a by lia. reflexivity. }
  rewrite E. field. intros C. rewrite C in Hb. discriminate.
Qed.

(** The binary exponent: [ilog2 q] is the one integer [e] with
    [2 ^ e <= q < 2 ^ (e + 1)]. *)
Lemma ratio_bounds (x y A B : Q) :
  0 < A -> 0 < B -> A <= x -> x < 2 * A -> B <= y -> y < 2 * B ->
  A / (2 * B) <= x / y /\ x / y < (2 * A) / B.
Proof.
  intros HA HB H1 H2 H3 H4.
  assert (Hy : 0 < y) by lra.
  split.
  - apply Qle_shift_div_l; [exact Hy|].
    setoid_replace (A / (2 * B) * y) with ((A * y) / (2 * B)) by (field; lra).
    apply Qle_shift_div_r; [lra|]. nra.
  - apply Qlt_shift_div_r; [exact Hy|].
    setoid_replace (2 * A / B * y) with ((2 * A * y) / B) by (field; lra).
    apply Qlt_shift_div_l; [exact HB|]. nra.
Qed.

Lemma ilog2_spec q : 0 < q -> pow2 (ilog2 q) <= q /\ q < pow2 (ilog2 q + 1).
Proof.
  intros Hq. destruct q as [n d]. unfold ilog2. cbn [Qnum Qden].
  assert (Hn : (0 < n)%Z).
  { unfold Qlt in Hq. cbn in Hq. lia. }
  set (a := Z.log2 n). set (b := Z.log2 (Zpos d)).
  destruct (Z.log2_spec n Hn) as [Ha1 Ha2]. fold a in Ha1, Ha2.
  destruct (Z.log2_spec (Zpos d) (eq_refl _)) as [Hb1 Hb2]. fold b in Hb1, Hb2.
  assert (Ha0 : (0 <= a)%Z) by apply Z.log2_nonneg.
  assert (Hb0 : (0 <= b)%Z) by apply Z.log2_nonneg.
  rewrite Z.pow_succ_r in Ha2, Hb2 by assumption.
  destruct (ratio_bounds (inject_Z n) (inject_Z (Zpos d)) (pow2 a) (pow2 b))
    as [Hlo Hhi]; try apply pow2_pos.
  - rewrite pow2_Z by assumption. rewrite <- Zle_Qle. exact Ha1.
  - rewrite pow2_Z by assumption. change 2 with (inject_Z 2).
    rewrite <- inject_Z_mult, <- Zlt_Qlt. exact Ha2.
  - rewrite pow2_Z by assumption. rewrite <- Zle_Qle. exact Hb1.
  - rewrite pow2_Z by assumption. change 2 with (inject_Z 2).
    rewrite <- inject_Z_mult, <- Zlt_Qlt. exact Hb2.
  - rewrite <- Qmake_Qdiv in Hlo, Hhi.
    assert (E1 : pow2 (a - b - 1) == pow2 a / (2 * pow2 b)).
    { replace (a - b - 1)%Z with (a - (b + 1))%Z by lia.
      rewrite pow2_sub, pow2_succ. reflexivity. }
    assert (E2 : pow2 (a - b + 1) == 2 * pow2 a / pow2 b).
    { rewrite pow2_succ, pow2_sub. unfold Qdiv. ring. }
    destruct (Qle_bool (pow2 (a - b)) (n # d)) eqn:Hc.
    + apply Qle_bool_iff in Hc. split; [exact Hc|]. rewrite E2. exact Hhi.
    + split; [rewrite E1; exact Hlo|].
      replace (a - b - 1 + 1)%Z with (a - b)%Z by lia.
      apply Qnot_le_lt. intros C. apply Qle_bool_iff in C. congruence.
Qed.

Lemma ilog2_unique q e : pow2 e <= q -> q < pow2 (e + 1) -> ilog2 q = e.
Proof.
  intros H1 H2.
  assert (Hq : 0 < q) by (pose proof (pow2_pos e); lra).
  destruct (ilog2_spec q Hq) as [H3 H4].
  assert ((ilog2 q < e + 1)%Z) by (apply pow2_lt_inv; lra).
  assert ((e < ilog2 q + 1)%Z) by (apply pow2_lt_inv; lra).
  lia.
Qed.

Lemma ilog2_comp q q' : 0 < q -> q == q' -> ilog2 q = ilog2 q'.
Proof.
  intros Hq E. symmetry. destruct (ilog2_spec q Hq).
  apply ilog2_unique; rewrite <- E; assumption.
Qed.

(** Rounding to the nearest integer errs by a half at most, fixes the
    integers and is monotone. *)
Lemma rne_bounds q : q - (1#2) <= inject_Z (rne q) /\ inject_Z (rne q) <= q + (1#2).
Proof.
  unfold rne. pose proof (Qfloor_le q) as H1. pose proof (Qlt_floor q) as H2.
  rewrite inject_Z_plus in H2. change (inject_Z 1) with 1 in H2.
  destruct (Qcompare_spec (q - inject_Z (Qfloor q)) (1#2)) as [E|E|E].
  - destruct (Z.even (Qfloor q)); [|rewrite inject_Z_plus; change (inject_Z 1) with 1]; lra.
  - lra.
  - rewrite inject_Z_plus; change (inject_Z 1) with 1; lra.
Qed.

Lemma rne_Z n : rne (inject_Z n) = n.
Proof.
  unfold rne. rewrite Qfloor_Z.
  destruct (Qcompare_spec (inject_Z n - inject_Z n) (1#2)) as [E|E|E]; try lra. reflexivity.
Qed.

Lemma rne_comp q q' : q == q' -> rne q = rne q'.
Proof. intros E. unfold rne. rewrite (Qfloor_comp _ _ E). rewrite E. reflexivity. Qed.

Lemma rne_mono q1 q2 : q1 <= q2 -> (rne q1 <= rne q2)%Z.
Proof.
  intros H. pose proof (Qfloor_resp_le _ _ H) as Hf.
  destruct (Z.eq_dec (Qfloor q1) (Qfloor q2)) as [E|NE].
  - unfold rne. rewrite E.
    destruct (Qcompare_spec (q1 - inject_Z (Qfloor q2)) (1#2)) as [E1|E1|E1];
    destruct (Qcompare_spec (q2 - inject_Z (Qfloor q2)) (1#2)) as [E2|E2|E2];
    try lia; try lra; destruct (Z.even (Qfloor q2)); lia.
  - assert (Hlt : (Qfloor q1 + 1 <= Qfloor q2)%Z) by lia.
    assert (A : (rne q1 <= Qfloor q1 + 1)%Z).
    { unfold rne. destruct (Qcompare _ _); [destruct (Z.even _)| |]; lia. }
    assert (B : (Qfloor q2 <= rne q2)%Z).
    { unfold rne. destruct (Qcompare _ _); [destruct (Z.even _)| |]; lia. }
    lia.
Qed.

(** Rounding a positive rational: the significand has 53 bits, the result
    stays in the binade of its argument or is the next power of two, and the
    error is half a unit in the last place at most. *)
Lemma ulp_scale_pos q : 0 < ulp_scale q.
Proof. apply pow2_pos. Qed.

Lemma ulp_scale_eq q : ulp_scale q * inject_Z (2 ^ 52) == pow2 (ilog2 q).
Proof.
  unfold ulp_scale. rewrite <- (pow2_Z 52) by lia. rewrite <- pow2_add.
  replace (ilog2 q - 52 + 52)%Z with (ilog2 q) by lia. reflexivity.
Qed.

Lemma scaled_bounds q :
  0 < q ->
  inject_Z (2 ^ 52) <= q / ulp_scale q /\ q / ulp_scale q < inject_Z (2 ^ 53).
Proof.
  intros Hq. destruct (ilog2_spec q Hq) as [H1 H2].
  pose proof (ulp_scale_pos q) as Hs. pose proof (ulp_scale_eq q) as E.
  rewrite pow2_succ in H2.
  split.
  - apply Qle_shift_div_l; [exact Hs|]. rewrite Qmult_comm, E. exact H1.
  - apply Qlt_shift_div_r; [exact Hs|].
    replace (2 ^ 53)%Z with (2 * 2 ^ 52)%Z by reflexivity.
    rewrite inject_Z_mult. change (inject_Z 2) with 2.
    rewrite <- Qmult_assoc, (Qmult_comm (inject_Z _)), E. exact H2.
Qed.

Lemma mant_bounds q :
  0 < q -> (2 ^ 52 <= rne (q / ulp_scale q) <= 2 ^ 53)%Z.
Proof.
  intros Hq. destruct (scaled_bounds q Hq) as [H1 H2].
  split.
  - rewrite <- (rne_Z (2 ^ 52)). apply rne_mono. exact H1.
  - rewrite <- (rne_Z (2 ^ 53)). apply rne_mono. lra.
Qed.

Lemma fl_pos_unfold q : fl_pos q = inject_Z (rne (q / ulp_scale q)) * ulp_scale q.
Proof. reflexivity. Qed.

Lemma fl_pos_range q :
  0 < q -> pow2 (ilog2 q) <= fl_pos q /\ fl_pos q <= pow2 (ilog2 q + 1).
Proof.
  intros Hq. rewrite fl_pos_unfold. destruct (mant_bounds q Hq) as [H1 H2].
  pose proof (ulp_scale_pos q) as Hs. pose proof (ulp_scale_eq q) as E.
  rewrite pow2_succ, <- E.
  rewrite Zle_Qle in H1, H2.
  replace (2 ^ 53)%Z with (2 * 2 ^ 52)%Z in H2 by reflexivity.
  rewrite inject_Z_mult in H2. change (inject_Z 2) with 2 in H2.
  split; nra.
Qed.

Lemma fl_pos_close q :
  0 < q ->
  q - ulp_scale q * (1#2) <= fl_pos q /\ fl_pos q <= q + ulp_scale q * (1#2).
Proof.
  intros Hq. rewrite fl_pos_unfold.
  pose proof (ulp_scale_pos q) as Hs.
  destruct (rne_bounds (q / ulp_scale q)) as [H1 H2].
  assert (E : q == q / ulp_scale q * ulp_scale q) by (field; lra).
  set (x := q / ulp_scale q) in *. set (m := inject_Z (rne x)) in *.
  split; nra.
Qed.

Lemma ulp_scale_le q : 0 < q -> ulp_scale q * (1#2) <= q * u53.
Proof.
  intros Hq. destruct (ilog2_spec q Hq) as [H1 _].
  rewrite <- ulp_scale_eq in H1. pose proof (ulp_scale_pos q) as Hs.
  unfold u53.
  let c := eval vm_compute in (pow2 (-53)) in change (pow2 (-53)) with c.
  let c := eval vm_compute in (inject_Z (2 ^ 52)) in change (inject_Z (2 ^ 52)) with c in H1.
  lra.
Qed.

Lemma fl_pos_err q :
  0 < q -> q - q * u53 <= fl_pos q /\ fl_pos q <= q + q * u53.
Proof.
  intros Hq. destruct (fl_pos_close q Hq). pose proof (ulp_scale_le q Hq). split; lra.
Qed.

Lemma fl_pos_gt0 q : 0 < q -> 0 < fl_pos q.
Proof.
  intros Hq. destruct (fl_pos_range q Hq) as [H _]. pose proof (pow2_pos (ilog2 q)). lra.
Qed.

Lemma fl_pos_comp q q' : 0 < q -> q == q' -> fl_pos q == fl_pos q'.
Proof.
  intros Hq E. rewrite !fl_pos_unfold. unfold ulp_scale.
  rewrite <- (ilog2_comp q q' Hq E).
  rewrite (rne_comp (q / pow2 (ilog2 q - 52)) (q' / pow2 (ilog2 q - 52))).
  - reflexivity.
  - unfold Qdiv. apply Qmult_comp; [exact E | reflexivity].
Qed.

Lemma fl_pos_mono q1 q2 : 0 < q1 -> q1 <= q2 -> fl_pos q1 <= fl_pos q2.
Proof.
  intros H1 H12. assert (H2 : 0 < q2) by lra.
  destruct (ilog2_spec q1 H1) as [A1 B1]. destruct (ilog2_spec q2 H2) as [A2 B2].
  assert (Hle : (ilog2 q1 < ilog2 q2 + 1)%Z) by (apply pow2_lt_inv; lra).
  destruct (Z.eq_dec (ilog2 q1) (ilog2 q2)) as [E|NE].
  - rewrite !fl_pos_unfold. unfold ulp_scale. rewrite E.
    set (s := pow2 (ilog2 q2 - 52)). assert (Hs : 0 < s) by apply pow2_pos.
    assert (M : (rne (q1 / s) <= rne (q2 / s))%Z).
    { apply rne_mono. apply Qle_shift_div_l; [exact Hs|].
      setoid_replace (q1 / s * s) with q1 by (field; lra). exact H12. }
    rewrite Zle_Qle in M. nra.
  - destruct (fl_pos_range q1 H1) as [_ U]. destruct (fl_pos_range q2 H2) as [L _].
    assert (pow2 (ilog2 q1 + 1) <= pow2 (ilog2 q2)) by (apply pow2_le; lia).
    lra.
Qed.

Lemma fl_pos_idem q : 0 < q -> fl_pos (fl_pos q) == fl_pos q.
Proof.
  intros Hq.
  destruct (mant_bounds q Hq) as [M1 M2].
  pose proof (ulp_scale_pos q) as Hs. pose proof (ulp_scale_eq q) as E.
  set (m := rne (q / ulp_scale q)) in *.
  assert (V : fl_pos q == inject_Z m * ulp_scale q) by reflexivity.
  destruct (Z.eq_dec m (2 ^ 53)) as [Em|Nm].
  - assert (V' : fl_pos q == pow2 (ilog2 q + 1)).
    { rewrite V, Em, pow2_succ, <- E.
      replace (2 ^ 53)%Z with (2 * 2 ^ 52)%Z by reflexivity.
      rewrite inject_Z_mult. change (inject_Z 2) with 2. ring. }
    assert (L : ilog2 (fl_pos q) = (ilog2 q + 1)%Z).
    { apply ilog2_unique; rewrite V'; [lra|].
      rewrite (pow2_succ (ilog2 q + 1)). pose proof (pow2_pos (ilog2 q + 1)). lra. }
    rewrite (fl_pos_unfold (fl_pos q)). unfold ulp_scale at 1 2. rewrite L.
    replace (ilog2 q + 1 - 52)%Z with (ilog2 q - 52 + 1)%Z by lia.
    rewrite (rne_comp _ (inject_Z (2 ^ 52))).
    + rewrite rne_Z, V', pow2_succ, pow2_succ, <- E. unfold ulp_scale. ring.
    + rewrite V', pow2_succ, pow2_succ, <- E. unfold ulp_scale. field.
      pose proof (pow2_pos (ilog2 q - 52)). lra.
  - assert (L : ilog2 (fl_pos q) = ilog2 q).
    { apply ilog2_unique.
      - apply (fl_pos_range q Hq).
      - rewrite V, pow2_succ, <- E.
        assert (Hm : (m < 2 * 2 ^ 52)%Z) by (change (2 * 2 ^ 52)%Z with (2 ^ 53)%Z; lia).
        rewrite Zlt_Qlt in Hm. rewrite inject_Z_mult in Hm. change (inject_Z 2) with 2 in Hm.
        nra. }
    rewrite (fl_pos_unfold (fl_pos q)). unfold ulp_scale at 1 2. rewrite L.
    fold (ulp_scale q).
    rewrite (rne_comp _ (inject_Z m)).
    + rewrite rne_Z. symmetry. exact V.
    + rewrite V. field. lra.
Qed.

(** Rounding in general: [fl] is odd, monotone and idempotent, respects the
    equality of rationals, and has relative error [u53] at most. *)
Lemma fl_of_zero q : q == 0 -> fl q = 0.
Proof.
  intros E. unfold fl.
  destruct (Qcompare_spec q 0) as [H|H|H]; [reflexivity | lra | lra].
Qed.

Lemma fl_of_pos q : 0 < q -> fl q == fl_pos q.
Proof.
  intros H. unfold fl. rewrite Qred_correct.
  destruct (Qcompare_spec q 0) as [E|E|E]; [lra | lra | reflexivity].
Qed.

Lemma fl_of_neg q : q < 0 -> fl q == - fl_pos (- q).
Proof.
  intros H. unfold fl. rewrite Qred_correct.
  destruct (Qcompare_spec q 0) as [E|E|E]; [lra | reflexivity | lra].
Qed.

Lemma fl_comp q q' : q == q' -> fl q = fl q'.
Proof.
  intros E. unfold fl. rewrite <- (Qcompare_comp q q' E 0 0 (Qeq_refl 0)).
  apply Qred_complete.
  destruct (Qcompare_spec q 0) as [H|H|H].
  - reflexivity.
  - assert (E' : - q == - q') by (rewrite E; reflexivity).
    rewrite (fl_pos_comp (- q) (- q')); [reflexivity | lra | exact E'].
  - apply fl_pos_comp; assumption.
Qed.

Lemma fl_opp q : fl (- q) == - fl q.
Proof.
  destruct (Qcompare_spec q 0) as [H|H|H].
  - rewrite (fl_of_zero q H), (fl_of_zero (- q)); [reflexivity | lra].
  - rewrite (fl_of_neg q H), (fl_of_pos (- q)) by lra. ring.
  - rewrite (fl_of_pos q H), (fl_of_neg (- q)) by lra.
    rewrite (fl_pos_comp (- - q) q); [reflexivity | lra | ring].
Qed.

Lemma fl_nonneg q : 0 <= q -> 0 <= fl q.
Proof.
  intros H. destruct (Qcompare_spec q 0) as [E|E|E].
  - rewrite (fl_of_zero q E). lra.
  - lra.
  - rewrite (fl_of_pos q E). pose proof (fl_pos_gt0 q E). lra.
Qed.

Lemma fl_gt0 q : 0 < q -> 0 < fl q.
Proof. intros H. rewrite (fl_of_pos q H). apply fl_pos_gt0, H. Qed.

Lemma fl_nonpos q : q <= 0 -> fl q <= 0.
Proof.
  intros H. assert (H' : 0 <= - q) by lra.
  pose proof (fl_nonneg _ H') as P. rewrite fl_opp in P. lra.
Qed.

Lemma fl_mono_nonneg q1 q2 : 0 <= q1 -> q1 <= q2 -> fl q1 <= fl q2.
Proof.
  intros H1 H12. destruct (Qcompare_spec q1 0) as [E|E|E].
  - rewrite (fl_of_zero q1 E). apply fl_nonneg. lra.
  - lra.
  - rewrite (fl_of_pos q1 E), (fl_of_pos q2) by lra. apply fl_pos_mono; assumption.
Qed.

Lemma fl_mono q1 q2 : q1 <= q2 -> fl q1 <= fl q2.
Proof.
  intros H. destruct (Qlt_le_dec q1 0) as [N1|P1].
  - destruct (Qlt_le_dec 0 q2) as [P2|N2].
    + pose proof (fl_nonpos q1). pose proof (fl_nonneg q2). lra.
    + assert (A : fl (- q2) <= fl (- q1)) by (apply fl_mono_nonneg; lra).
      rewrite !fl_opp in A. lra.
  - apply fl_mono_nonneg; assumption.
Qed.

Lemma fl_canon q : Qred (fl q) = fl q.
Proof. unfold fl. apply Qred_complete, Qred_correct. Qed.

Lemma fl_idem q : fl (fl q) = fl q.
Proof.
  assert (P : forall x, 0 < x -> fl (fl x) == fl x).
  { intros x Hx. pose proof (fl_gt0 x Hx) as Hf.
    rewrite (fl_of_pos (fl x) Hf).
    rewrite (fl_pos_comp (fl x) (fl_pos x) Hf (fl_of_pos x Hx)).
    rewrite (fl_of_pos x Hx). apply fl_pos_idem, Hx. }
  assert (G : fl (fl q) == fl q).
  { destruct (Qcompare_spec q 0) as [E|E|E].
    - rewrite (fl_of_zero q E). reflexivity.
    - assert (Hn : 0 < - q) by lra. specialize (P _ Hn).
      rewrite (fl_comp (fl (- q)) (- fl q) (fl_opp q)) in P.
      rewrite !fl_opp in P. lra.
    - apply P, E. }
  transitivity (Qred (fl (fl q))); [symmetry; apply fl_canon|].
  transitivity (Qred (fl q)); [apply Qred_complete, G | apply fl_canon].
Qed.

Lemma fl_err_nonneg q :
  0 <= q -> q - q * u53 <= fl q /\ fl q <= q + q * u53.
Proof.
  intros H. destruct (Qcompare_spec q 0) as [E|E|E].
  - rewrite (fl_of_zero q E), E. split; lra.
  - lra.
  - rewrite (fl_of_pos q E). apply fl_pos_err, E.
Qed.

(** The integers up to [2 ^ 53] are binary64 numbers. *)
Lemma inject_Z_pos n : (0 < n)%Z -> 0 < inject_Z n.
Proof. intros H. change 0 with (inject_Z 0). rewrite <- Zlt_Qlt. exact H. Qed.

Lemma fl_pos_exact m k :
  (2 ^ 52 <= m < 2 ^ 53)%Z ->
  fl_pos (inject_Z m * pow2 k) == inject_Z m * pow2 k.
Proof.
  intros [H1 H2].
  pose proof (pow2_pos k) as Hk.
  assert (E52 : pow2 (k + 52) == inject_Z (2 ^ 52) * pow2 k).
  { rewrite pow2_add, (pow2_Z 52) by lia. ring. }
  rewrite Zle_Qle in H1. rewrite Zlt_Qlt in H2.
  assert (L : ilog2 (inject_Z m * pow2 k) = (k + 52)%Z).
  { apply ilog2_unique.
    - rewrite E52. nra.
    - rewrite pow2_succ, E52.
      replace (2 ^ 53)%Z with (2 * 2 ^ 52)%Z in H2 by reflexivity.
      rewrite inject_Z_mult in H2. change (inject_Z 2) with 2 in H2. nra. }
  unfold fl_pos, ulp_scale. rewrite L.
  replace (k + 52 - 52)%Z with k by lia.
  rewrite (rne_comp _ (inject_Z m)).
  - rewrite rne_Z. reflexivity.
  - field. lra.
Qed.

Lemma fl_pos_Z_exact n : (0 < n <= 2 ^ 53)%Z -> fl_pos (inject_Z n) == inject_Z n.
Proof.
  intros [H1 H2].
  destruct (Z.eq_dec n (2 ^ 53)) as [E|NE].
  - subst n.
    rewrite (fl_pos_comp _ (inject_Z (2 ^ 52) * pow2 1)); [| reflexivity | reflexivity].
    rewrite fl_pos_exact by lia. reflexivity.
  - destruct (Z.log2_spec n H1) as [L1 L2].
    assert (L0 : (0 <= Z.log2 n)%Z) by apply Z.log2_nonneg.
    assert (L52 : (Z.log2 n < 53)%Z) by (apply Z.log2_lt_pow2; lia).
    set (j := (52 - Z.log2 n)%Z).
    assert (E : inject_Z n == inject_Z (n * 2 ^ j) * pow2 (- j)).
    { rewrite inject_Z_mult, <- (pow2_Z j) by (unfold j; lia).
      rewrite <- Qmult_assoc, <- pow2_add.
      replace (j + - j)%Z with 0%Z by lia. change (pow2 0) with 1. ring. }
    rewrite (fl_pos_comp _ _ (inject_Z_pos n H1) E).
    rewrite fl_pos_exact; [symmetry; exact E|].
    assert (P : (2 ^ Z.log2 n * 2 ^ j = 2 ^ 52)%Z).
    { rewrite <- Z.pow_add_r by (unfold j; lia). f_equal. unfold j. lia. }
    assert (P' : (2 ^ Z.succ (Z.log2 n) * 2 ^ j = 2 ^ 53)%Z).
    { rewrite <- Z.pow_add_r by (unfold j; lia). f_equal. unfold j. lia. }
    assert (Hj : (0 < 2 ^ j)%Z) by (apply Z.pow_pos_nonneg; unfold j; lia).
    nia.
Qed.

Lemma fl_Z_exact n : (Z.abs n <= 2 ^ 53)%Z -> fl (inject_Z n) == inject_Z n.
Proof.
  intros H. destruct (Z.lt_trichotomy n 0) as [N|[E|P]].
  - assert (Hn : inject_Z n < 0) by (change 0 with (inject_Z 0); rewrite <- Zlt_Qlt; exact N).
    rewrite (fl_of_neg _ Hn).
    rewrite (fl_pos_comp (- inject_Z n) (inject_Z (- n))).
    + rewrite fl_pos_Z_exact by lia. rewrite inject_Z_opp. ring.
    + lra.
    + rewrite inject_Z_opp. reflexivity.
  - subst n. reflexivity.
  - assert (Hn : 0 < inject_Z n) by (change 0 with (inject_Z 0); rewrite <- Zlt_Qlt; exact P).
    rewrite (fl_of_pos _ Hn). apply fl_pos_Z_exact. lia.
Qed.

Lemma of_Z_exact n : (Z.abs n <= 2 ^ 53)%Z -> of_Z n == inject_Z n.
Proof. apply fl_Z_exact. Qed.

(** [Math.round] errs by a half at most, is monotone and fixes the integers. *)
Lemma Math_round_bounds x :
  x - (1 # 2) < Math_round x /\ Math_round x <= x + (1 # 2).
Proof.
  unfold Math_round. pose proof (Qfloor_le (x + (1#2))) as H1.
  pose proof (Qlt_floor (x + (1#2))) as H2.
  rewrite inject_Z_plus in H2. change (inject_Z 1) with 1 in H2.
  split; lra.
Qed.

Lemma Math_round_mono x y : x <= y -> Math_round x <= Math_round y.
Proof.
  intros H. unfold Math_round. rewrite <- Zle_Qle. apply Qfloor_resp_le. lra.
Qed.

Lemma Math_round_Z n : Math_round (inject_Z n) = inject_Z n.
Proof.
  unfold Math_round. f_equal.
  assert (H1 := Qfloor_le (inject_Z n + (1#2))).
  assert (H2 : (n <= Qfloor (inject_Z n + (1#2)))%Z).
  { rewrite <- (Qfloor_Z n) at 1. apply Qfloor_resp_le. lra. }
  assert (H3 : (Qfloor (inject_Z n + (1#2)) < n + 1)%Z).
  { rewrite Zlt_Qlt, inject_Z_plus. change (inject_Z 1) with 1. lra. }
  lia.
Qed.

(** An integer that lies within one half of a real that is itself within
    [1/(2A)] of the fraction [N/A] lies within one half of that fraction. *)
Lemma nearest_of_close (N A K : Z) (y : Q) :
  (0 < A)%Z ->
  Qabs (y - inject_Z N / inject_Z A) < 1 / (2 * inject_Z A) ->
  y - (1 # 2) < inject_Z K -> inject_Z K <= y + (1 # 2) ->
  Qabs (inject_Z K - inject_Z N / inject_Z A) <= 1 # 2.
Proof.
  intros HA Hy H1 H2.
  assert (HA' : 0 < inject_Z A) by (change 0 with (inject_Z 0); rewrite <- Zlt_Qlt; exact HA).
  set (a := inject_Z A) in *. set (n := inject_Z N) in *. set (k := inject_Z K) in *.
  set (r := n / a) in *.
  assert (Er : r * a == n) by (unfold r; field; lra).
  apply Qabs_Qlt_condition in Hy. destruct Hy as [Hy1 Hy2].
  assert (I : 1 / (2 * a) * (2 * a) == 1) by (field; lra).
  set (h := 1 / (2 * a)) in *.
  assert (U : 2 * a * k < 2 * n + a + 1) by nra.
  assert (L : 2 * n - a - 1 < 2 * a * k) by nra.
  assert (UZ : (2 * A * K < 2 * N + A + 1)%Z).
  { rewrite Zlt_Qlt. rewrite !inject_Z_plus, !inject_Z_mult. exact U. }
  assert (LZ : (2 * N < 2 * A * K + A + 1)%Z).
  { rewrite Zlt_Qlt. rewrite !inject_Z_plus, !inject_Z_mult. fold a n k.
    change (inject_Z 1) with 1. change (inject_Z 2) with 2. lra. }
  assert (UZ' : (2 * A * K <= 2 * N + A)%Z) by lia.
  assert (LZ' : (2 * N <= 2 * A * K + A)%Z) by lia.
  rewrite Zle_Qle in UZ', LZ'.
  rewrite ?inject_Z_plus, ?inject_Z_mult in UZ', LZ'.
  change (inject_Z 2) with 2 in UZ', LZ'. fold a n k in UZ', LZ'.
  apply Qabs_Qle_condition. split; nra.
Qed.

End DoubleFacts.

(** ** Agreement with the hardware operations

    On the quantities of the scenarios, and on a few that are known to round
    badly, the operations of the model return the very number that the
    primitive binary64 operation returns. *)

Module DoubleAgreement.
Import Double.

Example div_agrees :
  Q_of_float (5000 / 37)%float = Some (div 5000%Q 37%Q)
  /\ Q_of_float (97 / 10)%float = Some (div 97%Q 10%Q)
  /\ Q_of_float (1 / 3)%float = Some (div 1%Q 3%Q).
Proof. repeat split; vm_compute; reflexivity. Qed.

Example add_sub_agree :
  Q_of_float (1 / 10 + 2 / 10)%float = Some (add (div 1%Q 10%Q) (div 2%Q 10%Q))
  /\ Q_of_float (5 / 2 - 31 / 4000)%float = Some (sub (div 5%Q 2%Q) (div 31%Q 4000%Q)).
Proof. repeat split; vm_compute; reflexivity. Qed.

Example mul_agrees :
  Q_of_float (201 / 200 * 1000)%float = Some (mul (div 201%Q 200%Q) 1000%Q)
  /\ Q_of_float (100 * 720 / 1000 * 10)%float
     = Some (mul (div (mul 100%Q 720%Q) 1000%Q) 10%Q)
  /\ Q_of_float (1000 * 70 / 720)%float = Some (div (mul 1000%Q 70%Q) 720%Q)
  /\ Q_of_float (100 * 2000 / 2100)%float = Some (div (mul 100%Q 2000%Q) 2100%Q).
Proof. repeat split; vm_compute; reflexivity. Qed.

End DoubleAgreement.

(** ** The derived metrics *)

Module MetricsFacts.
Import Double DoubleFacts Js Bnpl Page Spec Scenarios.
Local Open Scope Q_scope.

(** The error of one operation on non-negative numbers, and the tests on
    numbers. *)
Lemma u53_val : u53 == 1 # 9007199254740992.
Proof. reflexivity. Qed.

Lemma fl_close q : 0 <= q -> Qabs (fl q - q) <= q * u53.
Proof.
  intros H. destruct (fl_err_nonneg q H). apply Qabs_Qle_condition. split; lra.
Qed.

Lemma inject_Z_nonneg n : (0 <= n)%Z -> 0 <= inject_Z n.
Proof. intros H. change 0 with (inject_Z 0). rewrite <- Zle_Qle. exact H. Qed.

Lemma gt_true a b : gt a b = true <-> b < a.
Proof.
  unfold gt. rewrite negb_true_iff. split; intros H.
  - apply Qnot_le_lt. intros C. apply Qle_bool_iff in C. congruence.
  - destruct (Qle_bool a b) eqn:E; [|reflexivity]. apply Qle_bool_iff in E. lra.
Qed.

Lemma gt_false a b : gt a b = false <-> a <= b.
Proof.
  unfold gt. rewrite negb_false_iff. apply Qle_bool_iff.
Qed.

Lemma truthy_true a : truthy a = true <-> ~ a == 0.
Proof.
  unfold truthy. rewrite negb_true_iff. split; intros H.
  - intros C. apply Qeq_bool_iff in C. congruence.
  - destruct (Qeq_bool a 0) eqn:E; [|reflexivity]. apply Qeq_bool_iff in E. contradiction.
Qed.

(** One division of exact integers and [Math.round]: the result is a nearest
    integer of the exact quotient. *)
Lemma close_one_rounding (n a y : Q) :
  0 < a -> 0 <= n -> n < inject_Z (2 ^ 52) ->
  Qabs (y - n / a) <= n / a * u53 ->
  Qabs (y - n / a) < 1 / (2 * a).
Proof.
  intros Ha Hn Hb C.
  let c := eval vm_compute in (inject_Z (2 ^ 52)) in change (inject_Z (2 ^ 52)) with c in Hb.
  eapply Qle_lt_trans; [exact C|].
  rewrite u53_val.
  apply Qlt_shift_div_l; [lra|].
  assert (E : n / a * a == n) by (field; lra).
  set (r := n / a) in *. clearbody r. nra.
Qed.

Lemma round_div_nearest (N A : Z) :
  (0 < A)%Z -> (0 <= N < 2 ^ 52)%Z ->
  Qabs (Math_round (fl (inject_Z N / inject_Z A)) - inject_Z N / inject_Z A) <= 1 # 2.
Proof.
  intros HA [HN1 HN2].
  pose proof (inject_Z_pos A HA) as Ha. pose proof (inject_Z_nonneg N HN1) as Hn.
  rewrite Zlt_Qlt in HN2.
  assert (Hr : 0 <= inject_Z N / inject_Z A).
  { apply Qle_shift_div_l; [exact Ha|]. rewrite Qmult_0_l. exact Hn. }
  pose proof (fl_close _ Hr) as C.
  destruct (Math_round_bounds (fl (inject_Z N / inject_Z A))) as [R1 R2].
  unfold Math_round in *.
  apply nearest_of_close with (y := fl (inject_Z N / inject_Z A)); try assumption.
  apply close_one_rounding; assumption.
Qed.

Lemma pos_neq0 (a : Q) : 0 < a -> ~ a == 0.
Proof. intros H C. rewrite C in H. discriminate. Qed.

Lemma mul_Z_exact (c n : Z) :
  (Z.abs (c * n) <= 2 ^ 53)%Z -> mul (inject_Z c) (inject_Z n) == inject_Z (c * n).
Proof.
  intros H. unfold mul.
  rewrite (fl_comp _ (inject_Z (c * n))) by (rewrite inject_Z_mult; reflexivity).
  apply fl_Z_exact, H.
Qed.

Lemma div_comp_l (p p' a : Q) : p == p' -> div p a = div p' a.
Proof. intros E. unfold div. apply fl_comp. rewrite E. reflexivity. Qed.

Lemma pctDrop_nearest (P D : Z) :
  (0 < P)%Z -> (0 <= D <= 2 ^ 42)%Z ->
  nearest_tenth (100 * inject_Z D / inject_Z P) (pctDrop (inject_Z P) (inject_Z D)).
Proof.
  intros HP HD. pose proof (inject_Z_pos P HP) as Hp.
  unfold pctDrop.
  assert (T : truthy (inject_Z P) = true) by (apply truthy_true, pos_neq0, Hp).
  rewrite T.
  assert (E : mul 1000 (inject_Z D) == inject_Z (1000 * D)).
  { apply (mul_Z_exact 1000 D). lia. }
  rewrite (div_comp_l _ _ (inject_Z P) E).
  exists (Qfloor (fl (inject_Z (1000 * D) / inject_Z P) + (1 # 2))). split.
  - reflexivity.
  - pose proof (round_div_nearest (1000 * D) P HP ltac:(lia)) as R.
    unfold Math_round in R. unfold div.
    setoid_replace (10 * (100 * inject_Z D / inject_Z P))
      with (inject_Z (1000 * D) / inject_Z P); [exact R|].
    rewrite inject_Z_mult. change (inject_Z 1000) with 1000. field.
    apply pos_neq0, Hp.
Qed.

(** A division, a multiplication by ten and [Math.round], as in the approval
    rate. *)
Lemma close_two_roundings (n a x y : Q) :
  0 < a -> 0 <= n -> n <= inject_Z (1000 * 2 ^ 40) ->
  0 <= x ->
  Qabs (x - n / a * (1 # 10)) <= n / a * (1 # 10) * u53 ->
  Qabs (y - x * 10) <= x * 10 * u53 ->
  Qabs (y - n / a) < 1 / (2 * a).
Proof.
  intros Ha Hn Hb Hx C1 C2.
  let c := eval vm_compute in (inject_Z (1000 * 2 ^ 40)) in
    change (inject_Z (1000 * 2 ^ 40)) with c in Hb.
  rewrite u53_val in C1, C2.
  assert (E : n / a * a == n) by (field; lra).
  assert (Hr : 0 <= n / a) by (apply Qle_shift_div_l; lra).
  set (r := n / a) in *. clearbody r.
  apply Qabs_Qle_condition in C1, C2. destruct C1 as [A1 A2], C2 as [B1 B2].
  apply Qlt_shift_div_l; [lra|].
  assert (G : Qabs (y - r) <= r * (3 # 9007199254740992)).
  { apply Qabs_Qle_condition. split; lra. }
  eapply Qle_lt_trans.
  - apply Qmult_le_compat_r; [exact G | lra].
  - nra.
Qed.

Lemma approval_rate_nearest (A B : Z) :
  (0 < A)%Z -> (0 <= B <= 2 ^ 40)%Z ->
  exists r, approval_rate (Some (inject_Z B)) (Some (inject_Z A)) = Some r
            /\ nearest_tenth (100 * inject_Z B / inject_Z A) r.
Proof.
  intros HA HB. pose proof (inject_Z_pos A HA) as Ha.
  unfold approval_rate.
  assert (G : gt (inject_Z A) 0 = true) by (apply gt_true; exact Ha).
  rewrite G.
  eexists. split; [reflexivity|].
  assert (E : mul 100 (inject_Z B) == inject_Z (100 * B)).
  { apply (mul_Z_exact 100 B). lia. }
  rewrite (div_comp_l _ _ (inject_Z A) E).
  set (x := div (inject_Z (100 * B)) (inject_Z A)).
  set (y := mul x 10).
  exists (Qfloor (y + (1 # 2))). split; [reflexivity|].
  assert (HX : 0 <= inject_Z (100 * B) / inject_Z A).
  { apply Qle_shift_div_l; [exact Ha|]. rewrite Qmult_0_l. apply inject_Z_nonneg. lia. }
  assert (Hx : 0 <= x) by (apply fl_nonneg; exact HX).
  pose proof (fl_close _ HX) as C1. fold (div (inject_Z (100 * B)) (inject_Z A)) in C1. fold x in C1.
  assert (Hx10 : 0 <= x * 10) by (clear - Hx; lra).
  pose proof (fl_close _ Hx10) as C2. fold (mul x 10) in C2. fold y in C2.
  destruct (Math_round_bounds y) as [R1 R2]. unfold Math_round in R1, R2.
  setoid_replace (10 * (100 * inject_Z B / inject_Z A))
    with (inject_Z (1000 * B) / inject_Z A).
  - apply nearest_of_close with (y := y); try assumption.
    apply close_two_roundings with (x := x); try assumption.
    + apply inject_Z_nonneg. lia.
    + rewrite <- Zle_Qle. lia.
    + setoid_replace (inject_Z (1000 * B) / inject_Z A * (1 # 10))
        with (inject_Z (100 * B) / inject_Z A); [exact C1|].
      rewrite !inject_Z_mult. change (inject_Z 1000) with 1000. change (inject_Z 100) with 100.
      field. apply pos_neq0, Ha.
  - rewrite inject_Z_mult. change (inject_Z 1000) with 1000. field. apply pos_neq0, Ha.
Qed.

(** The drop-off count. *)
Lemma Math_max_l a b : a <= Math_max a b.
Proof.
  unfold Math_max. destruct (Qle_bool a b) eqn:E.
  - apply Qle_bool_iff in E. exact E.
  - apply Qle_refl.
Qed.

Lemma drop_nonneg prev next : 0 <= drop prev next.
Proof. apply Math_max_l. Qed.

Lemma sub_Z_exact (P N : Z) :
  (Z.abs (P - N) <= 2 ^ 53)%Z -> sub (inject_Z P) (inject_Z N) == inject_Z (P - N).
Proof.
  intros H. unfold sub.
  rewrite (fl_comp _ (inject_Z (P - N))).
  - apply fl_Z_exact, H.
  - unfold Z.sub. rewrite inject_Z_plus, inject_Z_opp. reflexivity.
Qed.

Lemma drop_exact (P N : Z) :
  (Z.abs (P - N) <= 2 ^ 53)%Z ->
  drop (inject_Z P) (inject_Z N) == inject_Z (Z.max 0 (P - N)).
Proof.
  intros H. unfold drop, Math_max.
  pose proof (sub_Z_exact P N H) as E.
  destruct (Qle_bool 0 (sub (inject_Z P) (inject_Z N))) eqn:C.
  - apply Qle_bool_iff in C. rewrite E in C. change 0 with (inject_Z 0) in C.
    rewrite <- Zle_Qle in C. rewrite E. rewrite Z.max_r by exact C. reflexivity.
  - assert (C' : ~ 0 <= sub (inject_Z P) (inject_Z N)).
    { intros X. apply Qle_bool_iff in X. congruence. }
    rewrite E in C'. change 0 with (inject_Z 0) in C'. rewrite <- Zle_Qle in C'.
    rewrite Z.max_l by lia. reflexivity.
Qed.

(** Sums of non-negative volumes grow with every term, so the first three
    rows never weigh more than all of them. *)
Lemma is_double_fl q : is_double (fl q).
Proof. unfold is_double. generalize (fl_idem q). intros ->. apply Qeq_refl. Qed.

Lemma is_double_0 : is_double 0.
Proof. reflexivity. Qed.

Lemma add_ge_l s v : is_double s -> 0 <= v -> s <= add s v.
Proof.
  intros Hs Hv. unfold add, is_double in *. rewrite <- Hs at 1. apply fl_mono.
  rewrite <- (Qplus_0_r s) at 1. apply Qplus_le_r. exact Hv.
Qed.

Lemma vol_sum_double s l : is_double s -> is_double (vol_sum s l).
Proof.
  revert s. induction l as [|r l IH]; intros s Hs; cbn.
  - exact Hs.
  - apply IH. apply is_double_fl.
Qed.

Lemma vol_sum_ge s l :
  is_double s -> Forall (fun r => 0 <= total_plan_amount r) l -> s <= vol_sum s l.
Proof.
  revert s. induction l as [|r l IH]; intros s Hs Hl; cbn.
  - apply Qle_refl.
  - inversion Hl as [|? ? Hr Hl']; subst.
    eapply Qle_trans; [apply (add_ge_l s (total_plan_amount r) Hs Hr)|].
    apply IH; [apply is_double_fl | exact Hl'].
Qed.

Lemma top3_le_total l :
  Forall (fun r => 0 <= total_plan_amount r) l -> top3Vol l <= totalVol l.
Proof.
  intros H. unfold top3Vol, totalVol.
  rewrite <- (firstn_skipn 3 l) at 2. rewrite fold_left_app.
  apply (vol_sum_ge (vol_sum 0 (firstn 3 l)) (skipn 3 l)).
  - apply vol_sum_double, is_double_0.
  - rewrite <- (firstn_skipn 3 l) in H. apply Forall_app in H. apply H.
Qed.

Lemma top3_nonneg l :
  Forall (fun r => 0 <= total_plan_amount r) l -> 0 <= top3Vol l.
Proof.
  intros H. apply (vol_sum_ge 0 (firstn 3 l) is_double_0).
  rewrite <- (firstn_skipn 3 l) in H. apply Forall_app in H. apply H.
Qed.

Lemma Math_round_is_Z x : Math_round x = inject_Z (Qfloor (x + (1 # 2))).
Proof. reflexivity. Qed.

Lemma share_bound (t T : Q) :
  0 <= t -> t <= T -> 0 < T ->
  exists k : Z, Math_round (div (mul 100 t) T) = inject_Z k /\ (0 <= k <= 100)%Z.
Proof.
  intros H0 H1 H2.
  exists (Qfloor (div (mul 100 t) T + (1 # 2))). split; [reflexivity|].
  assert (Ha0 : 0 <= mul 100 t) by (apply fl_nonneg; lra).
  assert (Ha1 : mul 100 t <= 100 * T + 100 * T * u53).
  { eapply Qle_trans; [apply (fl_mono (100 * t) (100 * T)); lra|].
    apply (fl_err_nonneg (100 * T)). lra. }
  rewrite u53_val in Ha1.
  set (a := mul 100 t) in *. clearbody a.
  assert (Hq0 : 0 <= a / T) by (apply Qle_shift_div_l; lra).
  assert (Hq1 : a / T <= 401 # 4) by (apply Qle_shift_div_r; lra).
  assert (Hy0 : 0 <= div a T) by (apply fl_nonneg; exact Hq0).
  assert (Hy1 : div a T <= 401 # 4).
  { change (401 # 4) with (fl (401 # 4)). apply fl_mono. exact Hq1. }
  set (y := div a T) in *. clearbody y.
  split.
  - change 0%Z with (Qfloor 0). apply Qfloor_resp_le. lra.
  - change 100%Z with (Qfloor ((401 # 4) + (1 # 2))). apply Qfloor_resp_le. lra.
Qed.

Lemma share_single (v : Q) :
  0 < v -> Math_round (div (mul 100 v) v) = 100.
Proof.
  intros Hv.
  assert (Ha : 100 * v - 100 * v * u53 <= mul 100 v /\ mul 100 v <= 100 * v + 100 * v * u53).
  { apply (fl_err_nonneg (100 * v)). lra. }
  rewrite u53_val in Ha. destruct Ha as [Ha1 Ha2].
  set (a := mul 100 v) in *. clearbody a.
  assert (Hq0 : 399 # 4 <= a / v) by (apply Qle_shift_div_l; lra).
  assert (Hq1 : a / v <= 401 # 4) by (apply Qle_shift_div_r; lra).
  assert (Hy0 : 399 # 4 <= div a v).
  { change (399 # 4) with (fl (399 # 4)). apply fl_mono. exact Hq0. }
  assert (Hy1 : div a v <= 401 # 4).
  { change (401 # 4) with (fl (401 # 4)). apply fl_mono. exact Hq1. }
  set (y := div a v) in *. clearbody y.
  unfold Math_round. change 100 with (inject_Z 100). f_equal.
  assert (L : (100 <= Qfloor (y + (1 # 2)))%Z).
  { change 100%Z with (Qfloor ((399 # 4) + (1 # 2))). apply Qfloor_resp_le. lra. }
  assert (U : (Qfloor (y + (1 # 2)) <= 100)%Z).
  { change 100%Z with (Qfloor ((401 # 4) + (1 # 2))). apply Qfloor_resp_le. lra. }
  lia.
Qed.


(** The comparator [b - a] is positive exactly when [a < b]: rounding keeps
    the sign of a difference. *)
Lemma neg_diff_sign (a b : Q) : gt (sub b a) 0 = true <-> a < b.
Proof.
  rewrite gt_true. unfold sub. split; intros H.
  - apply Qnot_le_lt. intros C.
    assert (N : fl (b - a) <= 0) by (apply fl_nonpos; lra). lra.
  - apply fl_gt0. lra.
Qed.

Section SortFacts.
Context {A : Type} (key : A -> Q).

Let cmp (a b : A) : number := sub (key b) (key a).

Lemma insert_In x y l : In y (insert cmp x l) <-> y = x \/ In y l.
Proof.
  induction l as [|z l IH]; cbn.
  - split; intros [H|H]; auto; contradiction.
  - destruct (gt (cmp x z) 0); cbn; rewrite ?IH; intuition auto.
Qed.

Lemma sort_In y l : In y (sort cmp l) <-> In y l.
Proof.
  induction l as [|z l IH]; cbn.
  - reflexivity.
  - fold (sort cmp l). rewrite insert_In, IH. intuition auto.
Qed.

(** Every element is at most the one before it. *)
Fixpoint descending (l : list A) : Prop :=
  match l with
  | [] => True
  | h :: t => Forall (fun y => key y <= key h) t /\ descending t
  end.

Lemma insert_descending x l : descending l -> descending (insert cmp x l).
Proof.
  induction l as [|z l IH]; cbn; intros H.
  - split; [constructor | exact I].
  - destruct H as [Hz Hl].
    destruct (gt (cmp x z) 0) eqn:E.
    + apply neg_diff_sign in E. cbn. split.
      * apply Forall_forall. intros y Hy. apply insert_In in Hy.
        destruct Hy as [->|Hy]; [lra|].
        rewrite Forall_forall in Hz. apply Hz, Hy.
      * apply IH, Hl.
    + assert (E' : key z <= key x).
      { apply Qnot_lt_le. intros C. apply neg_diff_sign in C. unfold cmp in E. congruence. }
      cbn. split; [|split; assumption].
      constructor; [exact E'|].
      rewrite Forall_forall in *. intros y Hy. specialize (Hz y Hy). lra.
Qed.

Lemma sort_descending l : descending (sort cmp l).
Proof.
  induction l as [|z l IH]; cbn.
  - exact I.
  - apply insert_descending, IH.
Qed.

Lemma sort_head_max l x :
  hd_error (sort cmp l) = Some x ->
  In x l /\ forall y, In y l -> key y <= key x.
Proof.
  intros H. pose proof (sort_descending l) as D.
  destruct (sort cmp l) as [|h t] eqn:E; [discriminate|].
  cbn in H. injection H as ->.
  split.
  - apply sort_In. rewrite E. left. reflexivity.
  - intros y Hy. apply sort_In in Hy. rewrite E in Hy.
    destruct Hy as [->|Hy]; [apply Qle_refl|].
    destruct D as [D _]. rewrite Forall_forall in D. apply D, Hy.
Qed.

Lemma forallb_sort (f : A -> bool) l : forallb f (sort cmp l) = forallb f l.
Proof.
  apply eq_true_iff_eq. rewrite !forallb_forall.
  split; intros H y Hy; apply H; apply sort_In; exact Hy.
Qed.

End SortFacts.

Lemma all_zero_iff d :
  forallb (fun x => eqb (pct x) 0) (sortedDrops d) = true <->
  pctDropKyc d == 0 /\ pctDropCredit d == 0 /\ pctDropPlan d == 0 /\ pctDropInitial d == 0.
Proof.
  unfold sortedDrops. rewrite (forallb_sort pct). cbn [drops forallb pct].
  unfold eqb. rewrite !andb_true_iff, !Qeq_bool_iff. tauto.
Qed.

Lemma firstDrop_Some d : exists x, firstDrop d = Some x.
Proof.
  unfold firstDrop, sortedDrops.
  destruct (sort (fun a b : DropItem => sub (pct b) (pct a)) (drops d)) as [|h t] eqn:S.
  - exfalso.
    assert (X : In {| label := "Signed up → KYC"; pct := pctDropKyc d |} (drops d))
      by (left; reflexivity).
    apply (sort_In pct) in X. rewrite S in X. destruct X.
  - exists h. reflexivity.
Qed.

Lemma largestDrop_None d :
  largestDrop d = None <->
  pctDropKyc d == 0 /\ pctDropCredit d == 0 /\ pctDropPlan d == 0 /\ pctDropInitial d == 0.
Proof.
  unfold largestDrop.
  destruct (forallb (fun x => eqb (pct x) 0) (sortedDrops d)) eqn:E.
  - split; [intros _; apply all_zero_iff, E | reflexivity].
  - destruct (firstDrop_Some d) as [x ->]. split; [discriminate|].
    intros H. apply all_zero_iff in H. congruence.
Qed.

Lemma largestDrop_Some d x :
  largestDrop d = Some x ->
  In x (drops d) /\ forall y, In y (drops d) -> pct y <= pct x.
Proof.
  unfold largestDrop. destruct (forallb _ _); [discriminate|].
  unfold firstDrop, sortedDrops. apply (sort_head_max pct).
Qed.

End MetricsFacts.

(** ** Rates, drop-offs and concentration *)

Module Metrics.
Import Double DoubleFacts Js Bnpl Page Spec Scenarios MetricsFacts.
Local Open Scope Q_scope.

Lemma top3_share_refines rows : top3_share rows = top3Share_spec rows.
Proof.
  assert (E : forall l s,
    fold_left (fun s r => add s (total_plan_amount r)) l s
    = fold_left add (map total_plan_amount l) s).
  { induction l as [|r l IH]; intros s; cbn; [reflexivity | apply IH]. }
  unfold top3_share, top3Share_spec, totalVol, top3Vol, sum_volumes.
  rewrite !E. reflexivity.
Qed.

Lemma approval_rate_None countB countA :
  approval_rate countB countA = None <->
  ~ (exists b a, countB = Some b /\ countA = Some a /\ 0 < a).
Proof.
  unfold approval_rate. destruct countB as [b|], countA as [a|].
  - destruct (gt a 0) eqn:G.
    + apply gt_true in G. split; [discriminate|].
      intros H. exfalso. apply H. exists b, a. auto.
    + apply gt_false in G. split; [|reflexivity].
      intros _ (b' & a' & _ & Ea & Ha). injection Ea as <-.
      apply (Qlt_irrefl 0). eapply Qlt_le_trans; eassumption.
  - split; [|reflexivity]. intros _ (b' & a' & _ & Ea & _). discriminate.
  - split; [|reflexivity]. intros _ (b' & a' & Eb & _). discriminate.
  - split; [|reflexivity]. intros _ (b' & a' & Eb & _). discriminate.
Qed.

(** C4.  The approval rate is unknown exactly when a count is unknown or the
    denominator is not positive, and never zero or infinite in that case; for
    counts [B] of approved and [A > 0] of applied it is the percentage
    [100 * B / A] rounded to one decimal; for [A = 100], [B = 80] it is 80;
    and it is the value the loader stores in [approval_rate_pct]. *)
Theorem approval_rate_spec :
  (forall countB countA : option number,
      approval_rate countB countA = None <->
      ~ (exists b a, countB = Some b /\ countA = Some a /\ 0 < a))
  /\ (forall B A : Z,
         (0 < A)%Z -> (0 <= B <= 2 ^ 40)%Z ->
         exists r,
           approval_rate (Some (inject_Z B)) (Some (inject_Z A)) = Some r
           /\ nearest_tenth (100 * inject_Z B / inject_Z A) r)
  /\ approval_rate (Some 80) (Some 100) = Some 80
  /\ (forall from to now g,
         approval_rate_pct (fill (initial_payload from to now) g)
         = approval_rate (or_null (g_credit_check_completed g))
                         (or_null (g_applied g))).
Proof.
  split; [exact approval_rate_None|].
  split; [intros B A; exact (approval_rate_nearest A B)|].
  split; [vm_compute; reflexivity|].
  intros from to now g. cbn.
  destruct (approval_rate _ _); reflexivity.
Qed.

Lemma approval_rate_spec_witness :
  exists r,
    approval_rate (Some (inject_Z 80)) (Some (inject_Z 100)) = Some r
    /\ nearest_tenth (100 * inject_Z 80 / inject_Z 100) r.
Proof.
  destruct approval_rate_spec as (_ & H & _).
  apply (H 80%Z 100%Z); [reflexivity | split; discriminate].
Defined.

Lemma pctDrop_zero prev dropped : prev == 0 -> pctDrop prev dropped = 0.
Proof.
  intros E. unfold pctDrop, truthy.
  apply Qeq_bool_iff in E. rewrite E. reflexivity.
Qed.

(** C5, as the page computes it.  For a non-zero previous count the drop-off
    percentage is [Math.round(1000 * dropCount / countPrev) / 10], the
    percentage [100 * dropCount / countPrev] rounded to one decimal; when the
    previous count is zero or unknown it is the number 0; for 37 and 5 it is
    13.5. *)
Theorem dropoff_pct_spec :
  (forall P D : Z,
      (0 < P)%Z -> (0 <= D <= 2 ^ 42)%Z ->
      nearest_tenth (100 * inject_Z D / inject_Z P) (pctDrop (inject_Z P) (inject_Z D)))
  /\ (forall prev dropped, prev == 0 -> pctDrop prev dropped = 0)
  /\ (forall d,
         (opt_field d n_applied = None -> pctDropKyc d = 0)
         /\ (opt_field d n_kyc_completed = None -> pctDropCredit d = 0)
         /\ (opt_field d n_credit_check_completed = None -> pctDropPlan d = 0)
         /\ (opt_field d n_plan_creation = None -> pctDropInitial d = 0))
  /\ pctDrop 37 5 = 27 # 2.
Proof.
  split; [exact pctDrop_nearest|].
  split; [exact pctDrop_zero|].
  split; [|vm_compute; reflexivity].
  intros d.
  unfold pctDropKyc, pctDropCredit, pctDropPlan, pctDropInitial.
  unfold nApplied, nKyc, nCredit, nPlan.
  repeat split; intros ->; reflexivity.
Qed.

Lemma dropoff_pct_spec_witness :
  nearest_tenth (100 * inject_Z 5 / inject_Z 37) (pctDrop (inject_Z 37) (inject_Z 5))
  /\ pctDrop 0 5 = 0.
Proof.
  destruct dropoff_pct_spec as (H1 & H2 & _).
  split.
  - apply (H1 37%Z 5%Z); [reflexivity | split; discriminate].
  - apply (H2 0 5). reflexivity.
Defined.

(** C5 as stated fails: with a previous count of zero, or with no data at
    all, the percentage is the number 0, and the page shows it as such. *)
Lemma dropoff_pct_zero_not_unknown :
  pctDrop 0 5 = 0
  /\ pctDropKyc (Some (funnel_payload (Some 0) (Some 0) None None None)) = 0
  /\ pctDropKyc None = 0.
Proof. repeat split. Qed.



(** C7, with the total volume required to be positive.  The share of the
    first three rows is the formula of the specification; it is unknown when
    the total volume is not positive; when the volumes are non-negative and
    the total is positive it is an integer between 0 and 100; for a single
    merchant of positive volume it is 100; in scenario B it is 95. *)
Theorem top3_share_spec :
  (forall rows, top3_share rows = top3Share_spec rows)
  /\ (forall rows, ~ 0 < totalVol rows -> top3_share rows = None)
  /\ (forall rows,
         Forall (fun r => 0 <= total_plan_amount r) rows ->
         0 < totalVol rows ->
         exists k : Z, top3_share rows = Some (inject_Z k) /\ (0 <= k <= 100)%Z)
  /\ (forall r, 0 < total_plan_amount r -> top3_share [r] = Some 100)
  /\ top3_share scenario_B = Some 95
  /\ top3_volume_pct (merchant_block (Some scenario_B)) = Some 95.
Proof.
  split; [exact top3_share_refines|].
  split.
  { intros rows H. unfold top3_share.
    destruct (gt (totalVol rows) 0) eqn:G; [|reflexivity].
    apply gt_true in G. contradiction. }
  split.
  { intros rows Hnn Hpos. unfold top3_share.
    assert (G : gt (totalVol rows) 0 = true) by (apply gt_true; exact Hpos).
    rewrite G.
    destruct (share_bound (top3Vol rows) (totalVol rows)) as (k & Ek & Hk).
    - apply top3_nonneg, Hnn.
    - apply top3_le_total, Hnn.
    - exact Hpos.
    - exists k. rewrite Ek. split; [reflexivity | exact Hk]. }
  split.
  { intros r Hr. unfold top3_share, totalVol, top3Vol. cbn [firstn fold_left].
    assert (P : 0 < add 0 (total_plan_amount r)).
    { unfold add. apply fl_gt0. rewrite Qplus_0_l. exact Hr. }
    assert (G : gt (add 0 (total_plan_amount r)) 0 = true) by (apply gt_true; exact P).
    rewrite G. rewrite (share_single _ P). reflexivity. }
  split; vm_compute; reflexivity.
Qed.

Lemma top3_share_spec_witness :
  (exists k : Z, top3_share scenario_B = Some (inject_Z k) /\ (0 <= k <= 100)%Z)
  /\ top3_share [ {| merchant := "A"; plan_count := 1; total_plan_amount := 250 |} ]
     = Some 100.
Proof.
  destruct top3_share_spec as (_ & _ & H & H1 & _).
  split.
  - apply (H scenario_B).
    + repeat constructor; discriminate.
    + vm_compute. reflexivity.
  - apply (H1 {| merchant := "A"; plan_count := 1; total_plan_amount := 250 |}).
    reflexivity.
Defined.

(** C7 as stated fails: a breakdown that is not empty and whose volumes are
    all zero has no share, neither a number between 0 and 100 nor, for its
    single merchant, 100. *)
Lemma top3_share_zero_volume :
  zero_volume_merchant <> []
  /\ Forall (fun r => 0 <= total_plan_amount r) zero_volume_merchant
  /\ top3_share zero_volume_merchant = None.
Proof.
  split; [discriminate|]. split; [repeat constructor; discriminate | reflexivity].
Qed.

(** C8.  Each of the four drop-off counts of the page is
    [Math.max(0, prev - next)] and so is never negative, whatever the two
    counts; for integer counts it is exactly [max(0, prev - next)]. *)
Theorem dropoff_count_spec :
  (forall d,
      dropKyc d = drop (nApplied d) (nKyc d)
      /\ dropCredit d = drop (nKyc d) (nCredit d)
      /\ dropPlan d = drop (nCredit d) (nPlan d)
      /\ dropInitial d = drop (nPlan d) (nInitial d))
  /\ (forall prev next, 0 <= drop prev next)
  /\ (forall P N : Z,
         (Z.abs (P - N) <= 2 ^ 53)%Z ->
         drop (inject_Z P) (inject_Z N) == inject_Z (Z.max 0 (P - N))).
Proof.
  split; [intros d; repeat split|].
  split; [exact drop_nonneg | exact drop_exact].
Qed.

Lemma dropoff_count_spec_witness :
  drop (inject_Z 650) (inject_Z 720) == inject_Z (Z.max 0 (650 - 720))
  /\ 0 <= drop 650 720.
Proof.
  destruct dropoff_count_spec as (_ & H0 & H).
  split; [apply (H 650%Z 720%Z); discriminate | apply (H0 650 720)].
Defined.

End Metrics.

(** ** The date rule of the query catalog *)

Module CatalogFacts.
Import Js Catalog.
Local Open Scope string_scope.

(** Prefixes, occurrences and trimming under concatenation. *)
Lemma append_assoc (a b c : string) : (a ++ b) ++ c = a ++ (b ++ c).
Proof. induction a as [|x a IH]; cbn; [reflexivity | rewrite IH; reflexivity]. Qed.

Lemma startsWith_app (p r : string) : startsWith p (p ++ r) = true.
Proof.
  induction p as [|a p IH]; cbn; [reflexivity|].
  rewrite Ascii.eqb_refl, IH. reflexivity.
Qed.

Lemma startsWith_app_l (p s r : string) :
  startsWith p s = true -> startsWith p (s ++ r) = true.
Proof.
  revert s. induction p as [|a p IH]; intros s H; cbn in *; [reflexivity|].
  destruct s as [|b s]; [discriminate|]. cbn.
  apply andb_true_iff in H. destruct H as [H1 H2].
  rewrite H1, (IH s H2). reflexivity.
Qed.

Lemma includes_here (p s : string) : startsWith p s = true -> includes p s = true.
Proof. intros H. destruct s; cbn in *; rewrite H; reflexivity. Qed.

Lemma includes_app_r (p a s : string) :
  includes p s = true -> includes p (a ++ s) = true.
Proof.
  intros H. induction a as [|c a IH]; cbn; [exact H|].
  rewrite IH. apply orb_true_r.
Qed.

Lemma includes_app_l (p s r : string) :
  includes p s = true -> includes p (s ++ r) = true.
Proof.
  induction s as [|c s IH]; intros H.
  - cbn in H. rewrite orb_false_r in H.
    destruct p; [|discriminate]. destruct r; reflexivity.
  - cbn in H. apply orb_true_iff in H. destruct H as [H|H].
    + apply includes_here. apply (startsWith_app_l p (String c s) r H).
    + cbn. rewrite (IH H). apply orb_true_r.
Qed.

Lemma includes_infix (a p r : string) : includes p (a ++ p ++ r) = true.
Proof. apply includes_app_r, includes_here, startsWith_app. Qed.

(** The shape every filtered statement has around its bounds. *)
Lemma includes_date_predicate (A col F T Z : string) :
  includes (date_predicate col F T)
    ((A ++ date_predicate col F T) ++ Z) = true.
Proof. rewrite append_assoc. apply includes_infix. Qed.

Lemma trim_end_app (a b : string) :
  trim_end b <> "" -> trim_end (a ++ b) = a ++ trim_end b.
Proof.
  intros H. induction a as [|c a IH]; cbn; [reflexivity|].
  rewrite IH. destruct (a ++ trim_end b) eqn:E; [|reflexivity].
  exfalso. destruct a; cbn in E; [contradiction | discriminate].
Qed.

Lemma trim_end_app_nonempty (a b : string) :
  trim_end b <> "" -> trim_end (a ++ b) <> "".
Proof.
  intros H. rewrite (trim_end_app a b H).
  destruct a; cbn; [exact H | discriminate].
Qed.

Lemma includes_after_prefix (L A D p S : string) :
  L = A ++ D -> includes p (D ++ S) = true -> includes p (L ++ S) = true.
Proof. intros -> H. rewrite append_assoc. apply includes_app_r, H. Qed.

Lemma trim_start_nl (c : ascii) (s R : string) :
  is_space c = false -> trim_start (nl ++ String c s ++ R) = String c s ++ R.
Proof. intros H. cbn. rewrite H. reflexivity. Qed.

Lemma both_false from to :
  str_truthy from && str_truthy to = false -> both from to = None.
Proof.
  unfold both. destruct from as [f|], to as [t|]; try reflexivity.
  intros ->. reflexivity.
Qed.

Lemma both_true from to :
  str_truthy from && str_truthy to = true ->
  exists f t, from = Some f /\ to = Some t /\ both from to = Some (f, t).
Proof.
  unfold both. destruct from as [f|], to as [t|]; cbn; try discriminate.
  - intros H. exists f, t. rewrite H. auto.
  - rewrite andb_false_r. discriminate.
Qed.

(** The rest of a statement does not vanish under [trim_end]. *)
Ltac nonempty_tail :=
  lazymatch goal with
  | |- trim_end (?a ++ ?b) <> _ =>
      lazymatch b with
      | context [fd _] => apply (trim_end_app_nonempty a b); nonempty_tail
      | context [EXCL_PLAN _] => apply (trim_end_app_nonempty a b); nonempty_tail
      | _ =>
          lazymatch a with
          | context [fd _] => apply (trim_end_app_nonempty a b); vm_compute; discriminate
          | _ => vm_compute; discriminate
          end
      end
  | |- trim_end _ <> _ => vm_compute; discriminate
  end.

(** Moves [trim_end] to the end of a statement. *)
Ltac push_trim_end :=
  repeat match goal with
         | |- context [trim_end (?a ++ ?b)] =>
             rewrite (trim_end_app a b) by nonempty_tail
         end.

(** Looks for the pattern behind, or inside, the first piece of a statement. *)
Ltac skip_piece :=
  lazymatch goal with
  | |- includes ?p (?a ++ ?s) = true => apply (includes_app_r p a s)
  end.

Ltac in_piece :=
  lazymatch goal with
  | |- includes ?p (?s ++ ?r) = true => apply (includes_app_l p s r)
  end.

(** Splits the literal in front of the lower bound where its predicate
    starts. *)
Ltac split_literal D :=
  lazymatch goal with
  | |- includes ?p (?L ++ ?S) = true =>
      let n := eval vm_compute in (String.length L - String.length D)%nat in
      let A := eval vm_compute in (substring 0 n L) in
      apply (includes_after_prefix L A D p S); [vm_compute; reflexivity|]
  end.

Lemma predicate_starts (col F T Z : string) :
  startsWith (date_predicate col F T)
    (("DATE(" ++ col ++ ") >= '") ++ F ++ ("' AND DATE(" ++ col ++ ") <= '") ++ T ++ "'" ++ Z)
  = true.
Proof.
  replace ((("DATE(" ++ col ++ ") >= '") ++ F ++ ("' AND DATE(" ++ col ++ ") <= '") ++ T ++ "'" ++ Z))
    with (date_predicate col F T ++ Z); [apply startsWith_app|].
  unfold date_predicate.
  rewrite (append_assoc "DATE(" _ Z).
  rewrite (append_assoc col _ Z).
  rewrite (append_assoc ") >= '" _ Z).
  rewrite (append_assoc F _ Z).
  rewrite (append_assoc "' AND DATE(" _ Z).
  rewrite (append_assoc col _ Z).
  rewrite (append_assoc ") <= '" _ Z).
  rewrite (append_assoc T _ Z).
  rewrite (append_assoc "DATE(" _ _).
  rewrite (append_assoc col ") >= '" _).
  rewrite (append_assoc "' AND DATE(" _ _).
  rewrite (append_assoc col ") <= '" _).
  reflexivity.
Qed.

(** The statement from the lower bound's predicate on starts with the whole
    date predicate on the column [col]. *)
Ltac predicate_here col :=
  lazymatch goal with
  | |- includes ?p (_ ++ ?F ++ _ ++ ?T ++ _ ++ ?Z) = true =>
      apply includes_here; exact (predicate_starts col F T Z)
  end.

Section Rule.
Variable env : option string.

Lemma unfiltered_has_no_date (b : builder) :
  has_date_filter (build env b None None) = false.
Proof.
  unfold has_date_filter.
  destruct b; cbn [build];
    unfold appliedCountSql, approvedCountSql, kycVerifiedCountSql, planCreationSql,
      initialCollectionSql, consumersWithPlanSql, loanBookSettledSql,
      loanBookCollectedSql, merchantBreakdownSql, EXCL_CP, EXCL_PLAN;
    destruct (EXCLUDE_TEST_USERS env); vm_compute; reflexivity.
Qed.

Lemma unfiltered_same (b : builder) (from to : option string) :
  both from to = None -> build env b from to = build env b None None.
Proof.
  intros H.
  destruct b; cbn [build];
    unfold appliedCountSql, approvedCountSql, kycVerifiedCountSql, planCreationSql,
      initialCollectionSql, consumersWithPlanSql, loanBookSettledSql,
      loanBookCollectedSql, merchantBreakdownSql;
    rewrite H; reflexivity.
Qed.

Lemma filtered_has_date (b : builder) (from to : option string) (f t : string) :
  both from to = Some (f, t) ->
  has_date_filter (build env b from to) = true
  /\ includes (date_predicate (date_column b) (fd f) (fd t)) (build env b from to) = true.
Proof.
  intros H. unfold has_date_filter.
  destruct b; cbn [build date_column];
    unfold appliedCountSql, approvedCountSql, kycVerifiedCountSql, planCreationSql,
      initialCollectionSql, consumersWithPlanSql, loanBookSettledSql,
      loanBookCollectedSql, merchantBreakdownSql;
    rewrite H.
  - split; [in_piece; vm_compute; reflexivity|].
    split_literal "DATE(CREATED_AT) >= '". predicate_here "CREATED_AT".
  - split; [in_piece; vm_compute; reflexivity|].
    split_literal "DATE(CREATED_AT) >= '". predicate_here "CREATED_AT".
  - split; [in_piece; vm_compute; reflexivity|].
    split_literal "DATE(CREATED_AT) >= '". predicate_here "CREATED_AT".
  - split; [in_piece; vm_compute; reflexivity|].
    split_literal "DATE(COALESCE(ca.EXECUTED_AT, ca.CREATED_AT)) >= '".
    predicate_here "COALESCE(ca.EXECUTED_AT, ca.CREATED_AT)".
  - split; [in_piece; vm_compute; reflexivity|].
    split_literal "DATE(COALESCE(ca.EXECUTED_AT, ca.CREATED_AT)) >= '".
    predicate_here "COALESCE(ca.EXECUTED_AT, ca.CREATED_AT)".
  - split; [in_piece; vm_compute; reflexivity|].
    split_literal "DATE(CREATED_AT) >= '". predicate_here "CREATED_AT".
  - split; [in_piece; vm_compute; reflexivity|].
    split_literal "DATE(ip.CREATED_AT) >= '". predicate_here "ip.CREATED_AT".
  - cbv zeta. split; [skip_piece; in_piece; vm_compute; reflexivity|].
    skip_piece.
    split_literal "DATE(i.CREATED_AT) >= '". predicate_here "i.CREATED_AT".
  - cbv zeta. unfold trim. rewrite trim_start_nl by reflexivity. push_trim_end.
    split.
    + do 8 skip_piece. in_piece. in_piece. vm_compute. reflexivity.
    + do 8 skip_piece. in_piece.
      split_literal "DATE(ip.CREATED_AT) >= '". predicate_here "ip.CREATED_AT".
Qed.

End Rule.

(** C10.  Each of the nine builders filters on a date exactly when both
    bounds are supplied and non-empty: then the statement contains the date
    predicate on the builder's own timestamp, between the first ten characters
    of each bound; otherwise it is the unfiltered statement, the same as with
    no bound at all. *)
Theorem date_rule_uniform
    (env : option string) (b : builder) (from to : option string) :
  has_date_filter (build env b from to) = str_truthy from && str_truthy to
  /\ (str_truthy from && str_truthy to = false ->
      build env b from to = build env b None None)
  /\ (forall f t,
         from = Some f -> to = Some t ->
         str_truthy from && str_truthy to = true ->
         includes (date_predicate (date_column b) (fd f) (fd t))
                  (build env b from to) = true).
Proof.
  destruct (str_truthy from && str_truthy to) eqn:E.
  - destruct (both_true from to E) as (f & t & Ef & Et & B).
    destruct (filtered_has_date env b from to f t B) as [H1 H2].
    split; [exact H1|]. split; [discriminate|].
    intros f' t' Ef' Et' _.
    assert (f' = f) by congruence. assert (t' = t) by congruence. subst f' t'.
    exact H2.
  - pose proof (both_false from to E) as B.
    rewrite (unfiltered_same env b from to B).
    split; [apply unfiltered_has_no_date|].
    split; [reflexivity | discriminate].
Qed.

Lemma date_rule_uniform_witness :
  includes (date_predicate "ip.CREATED_AT" "2024-01-01" "2024-01-31")
           (merchantBreakdownSql None (Some "2024-01-01T00:00:00Z") (Some "2024-01-31"))
  = true
  /\ loanBookCollectedSql None (Some "2024-01-01") (Some "")
     = loanBookCollectedSql None None None.
Proof.
  split.
  - destruct (date_rule_uniform None MerchantBreakdown
                (Some "2024-01-01T00:00:00Z") (Some "2024-01-31")) as (_ & _ & H).
    apply (H "2024-01-01T00:00:00Z" "2024-01-31"); reflexivity.
  - destruct (date_rule_uniform None LoanBookCollected
                (Some "2024-01-01") (Some "")) as (_ & H & _).
    apply H. reflexivity.
Defined.

End CatalogFacts.

(** ** The bounded executor *)

Module AsyncFacts.
Import Double Js Async Store Catalog Bnpl Route Spec Scenarios.
Local Open Scope N_scope.

(** [withTimeoutNull] in closed form. *)
Lemma max_add (now d : N) : N.max now (now + d) = now + d.
Proof. apply N.max_r. lia. Qed.

Lemma withTimeoutNull_eq {T : Type} (tf : bool) (p : promise T) (ms : N) (now : time) :
  withTimeoutNull tf p ms now
  = Some (timeout_time tf p ms now, Fulfilled (timeout_result tf p ms now)).
Proof.
  unfold withTimeoutNull, timeout_time, timeout_result, operation_first,
    try_catch, bind, await, Promise_race, widen, after, ret.
  destruct p as [[t [v|e]]|].
  - destruct ((t <? now + ms) || (t =? now + ms) && negb tf); [reflexivity|].
    rewrite max_add. reflexivity.
  - destruct ((t <? now + ms) || (t =? now + ms) && negb tf); [reflexivity|].
    rewrite max_add. reflexivity.
  - rewrite max_add. reflexivity.
Qed.

Lemma timeout_time_bounds {T : Type} (tf : bool) (p : promise T) (ms : N) (now : time) :
  now <= timeout_time tf p ms now <= now + ms.
Proof.
  unfold timeout_time, operation_first. destruct p as [[t s]|]; [|lia].
  destruct (t <? now + ms) eqn:E1; cbn.
  - apply N.ltb_lt in E1. lia.
  - destruct (t =? now + ms) eqn:E2; cbn; [|lia].
    apply N.eqb_eq in E2. destruct tf; cbn; lia.
Qed.

(** C3.  [withTimeoutNull] always resolves, never rejects and never stays
    pending, and it does so no later than the timeout; it resolves to the
    operation's value when the operation fulfils before the timer fires, and to
    null when the operation rejects, when the timer fires first, and when the
    operation never settles. *)
Theorem withTimeoutNull_spec {T : Type}
    (timer_first : bool) (p : promise T) (ms : N) (now : time) :
  (exists t r,
      withTimeoutNull timer_first p ms now = Some (t, Fulfilled r)
      /\ now <= t <= now + ms)
  /\ (forall t v,
         p = Some (t, Fulfilled v) -> t < now + ms ->
         withTimeoutNull timer_first p ms now = Some (N.max now t, Fulfilled (Some v)))
  /\ (forall t e,
         p = Some (t, Rejected e) ->
         exists t', withTimeoutNull timer_first p ms now = Some (t', Fulfilled None))
  /\ (forall t s,
         p = Some (t, s) -> now + ms < t ->
         withTimeoutNull timer_first p ms now = Some (now + ms, Fulfilled None))
  /\ (p = None ->
      withTimeoutNull timer_first p ms now = Some (now + ms, Fulfilled None)).
Proof.
  rewrite withTimeoutNull_eq.
  split.
  { eexists. eexists. split; [reflexivity | apply timeout_time_bounds]. }
  split.
  { intros t v -> Ht. unfold timeout_time, timeout_result, operation_first.
    apply N.ltb_lt in Ht. rewrite Ht. reflexivity. }
  split.
  { intros t e ->. eexists. reflexivity. }
  split.
  { intros t s -> Ht. unfold timeout_time, timeout_result, operation_first.
    assert (E1 : (t <? now + ms) = false) by (apply N.ltb_ge; lia).
    assert (E2 : (t =? now + ms) = false) by (apply N.eqb_neq; lia).
    rewrite E1, E2. destruct s; reflexivity. }
  intros ->. reflexivity.
Qed.

Lemma withTimeoutNull_spec_witness :
  withTimeoutNull true (Some (25, Fulfilled 7%Q)) 8000 0
  = Some (25, Fulfilled (Some 7%Q))
  /\ withTimeoutNull true (Some (9000, Fulfilled 7%Q)) 8000 0
     = Some (8000, Fulfilled None)
  /\ withTimeoutNull true (@None (time * settled number)) 8000 0
     = Some (8000, Fulfilled None).
Proof.
  split; [|split].
  - destruct (withTimeoutNull_spec true (Some (25, Fulfilled 7%Q)) 8000 0)
      as (_ & H & _).
    apply (H 25 7%Q); reflexivity.
  - destruct (withTimeoutNull_spec true (Some (9000, Fulfilled 7%Q)) 8000 0)
      as (_ & _ & _ & H & _).
    apply (H 9000 (Fulfilled 7%Q)); reflexivity.
  - destruct (withTimeoutNull_spec true (@None (time * settled number)) 8000 0)
      as (_ & _ & _ & _ & H).
    apply H. reflexivity.
Defined.

End AsyncFacts.

(** ** The loader *)

Module LoaderFacts.
Import Double Js Async Store Catalog Bnpl Route Spec Scenarios AsyncFacts.
Local Open Scope N_scope.

(** The client depends on the world only through the execution of its own
    statement, and a statement that fails or is late leaves null behind. *)
Lemma operation_first_shift tf now d ms :
  operation_first tf (now + d) (now + ms) = operation_first tf d ms.
Proof.
  unfold operation_first. f_equal.
  - destruct (N.ltb_spec (now + d) (now + ms)), (N.ltb_spec d ms); try reflexivity; lia.
  - f_equal. destruct (N.eqb_spec (now + d) (now + ms)), (N.eqb_spec d ms);
      try reflexivity; lia.
Qed.

Lemma executeAsync_ext w w' q sql now :
  execute_outcome w' q sql = execute_outcome w q sql ->
  executeAsync w' q sql now = executeAsync w q sql now.
Proof. intros E. unfold executeAsync. rewrite E. reflexivity. Qed.

Lemma runCount_ext w w' q sql now :
  execute_outcome w' q sql = execute_outcome w q sql ->
  runCount w' q sql now = runCount w q sql now.
Proof.
  intros E. unfold runCount, bind, await_call.
  rewrite (executeAsync_ext w w' q sql now E). reflexivity.
Qed.

Lemma runScalar_ext w w' q sql now :
  execute_outcome w' q sql = execute_outcome w q sql ->
  runScalar w' q sql now = runScalar w q sql now.
Proof.
  intros E. unfold runScalar, bind, await_call.
  rewrite (executeAsync_ext w w' q sql now E). reflexivity.
Qed.

Lemma runCount_settles w q sql now d rows :
  execute_outcome w q sql = Some (d, inr rows) ->
  exists v, runCount w q sql now = Some (now + d, Fulfilled v).
Proof.
  intros E. unfold runCount, bind, await_call, await, executeAsync. rewrite E.
  rewrite max_add.
  destruct (or_default rows []) as [|[first|v] rest]; try (eexists; reflexivity).
  destruct (first_value first); try (eexists; reflexivity).
  destruct (matches_digits s); eexists; reflexivity.
Qed.

Lemma runScalar_settles w q sql now d rows :
  execute_outcome w q sql = Some (d, inr rows) ->
  exists v, runScalar w q sql now = Some (now + d, Fulfilled v).
Proof.
  intros E. unfold runScalar, bind, await_call, await, executeAsync. rewrite E.
  rewrite max_add.
  destruct (or_default rows []) as [|[first|v] rest]; try (eexists; reflexivity).
  destruct (first_value first); try (eexists; reflexivity).
  destruct (matches_decimal s); eexists; reflexivity.
Qed.

Lemma runCount_fails tf w q sql ms now :
  fails_or_times_out tf ms (execute_outcome w q sql) ->
  timeout_result tf (runCount w q sql now) ms now = None.
Proof.
  intros H. destruct (execute_outcome w q sql) as [[d [e|rows]]|] eqn:E; cbn in H.
  - unfold runCount, bind, await_call, await, executeAsync. rewrite E. reflexivity.
  - destruct (runCount_settles w q sql now d rows E) as [v ->].
    cbn. rewrite operation_first_shift, H. reflexivity.
  - unfold runCount, bind, await_call, await, executeAsync. rewrite E. reflexivity.
Qed.

Lemma runScalar_fails tf w q sql ms now :
  fails_or_times_out tf ms (execute_outcome w q sql) ->
  timeout_result tf (runScalar w q sql now) ms now = None.
Proof.
  intros H. destruct (execute_outcome w q sql) as [[d [e|rows]]|] eqn:E; cbn in H.
  - unfold runScalar, bind, await_call, await, executeAsync. rewrite E. reflexivity.
  - destruct (runScalar_settles w q sql now d rows E) as [v ->].
    cbn. rewrite operation_first_shift, H. reflexivity.
  - unfold runScalar, bind, await_call, await, executeAsync. rewrite E. reflexivity.
Qed.

Section Loader.
Variable env : option string.
Variable rt : Runtime.

Lemma loadMerchantBreakdown_ext w w' from to now :
  (forall sql, execute_outcome w' Q_merchant_rows sql = execute_outcome w Q_merchant_rows sql) ->
  loadMerchantBreakdown env rt w' from to now = loadMerchantBreakdown env rt w from to now.
Proof.
  intros E. unfold loadMerchantBreakdown, try_catch, bind, await_call.
  rewrite (executeAsync_ext w w' _ _ now (E _)). reflexivity.
Qed.

Lemma loadMerchantBreakdown_fails tf w from to ms now :
  (forall sql, fails_or_times_out tf ms (execute_outcome w Q_merchant_rows sql)) ->
  timeout_result tf (loadMerchantBreakdown env rt w from to now) ms now = None
  \/ timeout_result tf (loadMerchantBreakdown env rt w from to now) ms now = Some [].
Proof.
  intros H. specialize (H (merchantBreakdownSql env from to)).
  unfold loadMerchantBreakdown, try_catch, bind, await_call, await, executeAsync.
  destruct (execute_outcome w Q_merchant_rows (merchantBreakdownSql env from to))
    as [[d [e|rows]]|]; cbn in H.
  - cbn. destruct (operation_first tf (N.max now (now + d)) (now + ms)); auto.
  - left. rewrite max_add.
    destruct (or_default rows []) as [|r rest].
    + cbn. rewrite operation_first_shift, H. reflexivity.
    + destruct (map_rows rt (r :: rest)); cbn; rewrite operation_first_shift, H; reflexivity.
  - left. reflexivity.
Qed.

(** The loader in closed form: it always resolves, within the longer budget,
    with the payload filled from what the thirteen promises resolved to. *)
Lemma loadBnplData_eq (w : World) (fromDate toDate : option string) (now : time) :
  exists t,
    loadBnplData env rt w fromDate toDate now
    = Some (t, Fulfilled
                 (fill (initial_payload (option_map (slice0 10) fromDate)
                                        (option_map (slice0 10) toDate) now)
                       (gathered env rt w (option_map (slice0 10) fromDate)
                                   (option_map (slice0 10) toDate) now)))
    /\ now <= t <= now + BOUNDED_QUERY_TIMEOUT_MS.
Proof.
  unfold loadBnplData. cbv zeta.
  rewrite !withTimeoutNull_eq.
  unfold try_catch, bind, await, Promise_all2, ret.
  eexists. split; [reflexivity|].
  repeat match goal with
         | |- context [timeout_time ?a ?b ?c ?d] =>
             generalize (timeout_time_bounds a b c d);
             generalize (timeout_time a b c d); intros ? ?
         end.
  unfold BOUNDED_QUERY_TIMEOUT_MS, SLOW_QUERY_TIMEOUT_MS in *. lia.
Qed.

Lemma merchant_block_empty (rows : option (list MerchantRow)) :
  rows = None \/ rows = Some [] ->
  merchant_block rows
  = {| top3_volume_pct := None; n_merchants := Some 0%Q; by_merchant := [] |}.
Proof. intros [-> | ->]; reflexivity. Qed.

(** C2, with the merchant breakdown set apart.  When the execution of exactly
    one statement fails or exceeds its budget, the loader still resolves, with
    no error; the result of every other statement is in the payload as it
    would have been; the failed statement's own count or sum is null; and when
    the failed statement is the merchant breakdown, the payload holds an empty
    breakdown, zero merchants and no concentration share. *)
Theorem isolation (w w' : World) (q : query) (fromDate toDate : option string) (now : time) :
  timer_first w' = timer_first w ->
  (forall q' sql, q' <> q -> execute_outcome w' q' sql = execute_outcome w q' sql) ->
  (forall sql, fails_or_times_out (timer_first w') (timeout_of q) (execute_outcome w' q sql)) ->
  exists t p t' p',
    loadBnplData env rt w fromDate toDate now = Some (t, Fulfilled p)
    /\ loadBnplData env rt w' fromDate toDate now = Some (t', Fulfilled p')
    /\ error p' = None
    /\ (forall q', q' <> q -> result_of q' p' = result_of q' p)
    /\ (q <> Q_merchant_rows -> result_of q p' = Count None)
    /\ (q = Q_merchant_rows ->
        payload_merchant p'
        = {| top3_volume_pct := None; n_merchants := Some 0%Q; by_merchant := [] |}).
Proof.
  intros Htf Hsame Hfail.
  destruct (loadBnplData_eq w fromDate toDate now) as (t & E & _).
  destruct (loadBnplData_eq w' fromDate toDate now) as (t' & E' & _).
  exists t. eexists. exists t'. eexists.
  split; [exact E|]. split; [exact E'|].
  split; [reflexivity|].
  set (from := option_map (slice0 10) fromDate).
  set (to := option_map (slice0 10) toDate).
  split; [|split].
  - intros q' Hne. pose proof (fun sql => Hsame q' sql Hne) as S.
    destruct q'; cbn [result_of fill gathered g_applied g_credit_check_completed
      g_kyc_completed g_plan_creation g_initial_collection g_consumers_with_plan
      g_total_settled g_total_collected g_total_plan_amount g_merchantRows
      g_consumers_with_plan_all g_overdue g_credit_allocated
      n_applied n_credit_check_completed n_kyc_completed n_plan_creation
      n_initial_collection n_consumers_with_plan n_consumers_with_plan_all n_overdue
      payload_total_plan_amount payload_merchant by_merchant book_field loan_book
      total_settled total_collected credit_allocated merchant_block];
      rewrite ?Htf;
      rewrite ?(runCount_ext w w' _ _ now (S _)), ?(runScalar_ext w w' _ _ now (S _)),
        ?(loadMerchantBreakdown_ext w w' from to now S);
      reflexivity.
  - intros Hq.
    destruct q; try congruence;
      cbn [result_of fill gathered g_applied g_credit_check_completed
      g_kyc_completed g_plan_creation g_initial_collection g_consumers_with_plan
      g_total_settled g_total_collected g_total_plan_amount g_merchantRows
      g_consumers_with_plan_all g_overdue g_credit_allocated
      n_applied n_credit_check_completed n_kyc_completed n_plan_creation
      n_initial_collection n_consumers_with_plan n_consumers_with_plan_all n_overdue
      payload_total_plan_amount payload_merchant by_merchant book_field loan_book
      total_settled total_collected credit_allocated merchant_block];
      rewrite ?(runCount_fails _ w' _ _ _ now (Hfail _)),
        ?(runScalar_fails _ w' _ _ _ now (Hfail _));
      reflexivity.
  - intros ->. cbn [fill payload_merchant gathered g_merchantRows].
    apply merchant_block_empty.
    apply (loadMerchantBreakdown_fails (timer_first w') w' from to _ now Hfail).
Qed.

End Loader.

Lemma isolation_witness :
  exists t p t' p',
    loadBnplData None plain_runtime healthy_store None None 0 = Some (t, Fulfilled p)
    /\ loadBnplData None plain_runtime applied_hangs None None 0 = Some (t', Fulfilled p')
    /\ error p' = None
    /\ (forall q', q' <> Q_applied -> result_of q' p' = result_of q' p)
    /\ (Q_applied <> Q_merchant_rows -> result_of Q_applied p' = Count None)
    /\ (Q_applied = Q_merchant_rows ->
        payload_merchant p'
        = {| top3_volume_pct := None; n_merchants := Some 0%Q; by_merchant := [] |}).
Proof.
  apply (isolation None plain_runtime healthy_store applied_hangs Q_applied None None 0).
  - reflexivity.
  - intros q' sql Hne. destruct q'; try reflexivity. congruence.
  - intros sql. exact I.
Defined.

(** C2 as stated fails for the merchant breakdown: when that statement is the
    one that fails, the payload does not hold null in its place but an empty
    breakdown and the number 0 of merchants, and is the very payload of a
    request whose breakdown succeeded and found no merchant. *)
Lemma merchant_failure_is_not_unknown :
  (forall sql,
      fails_or_times_out (timer_first merchant_rejected) (timeout_of Q_merchant_rows)
        (execute_outcome merchant_rejected Q_merchant_rows sql))
  /\ loadBnplData None plain_runtime merchant_rejected None None 0
     = loadBnplData None plain_runtime merchant_empty None None 0
  /\ match loadBnplData None plain_runtime merchant_rejected None None 0 with
     | Some (_, Fulfilled p) =>
         result_of Q_merchant_rows p = Rows []
         /\ n_merchants (payload_merchant p) = Some 0%Q
         /\ error p = None
     | _ => False
     end.
Proof.
  split; [intros sql; exact I|].
  split; vm_compute; [reflexivity | repeat split].
Qed.

(** C9, as the client behaves.  A statement that executes successfully and
    returns no row is not an error: [executeAsync] resolves with the empty
    list and the merchant breakdown with the empty breakdown, and [runCount]
    and [runScalar] resolve as well, but with null, not with zero. *)
Theorem zero_rows_spec
    (w : World) (q : query) (sql : string) (now : time)
    (d : N) (rows : option (list row)) :
  execute_outcome w q sql = Some (d, inr rows) ->
  or_default rows [] = [] ->
  executeAsync w q sql now = Some (now + d, Fulfilled [])
  /\ runCount w q sql now = Some (now + d, Fulfilled None)
  /\ runScalar w q sql now = Some (now + d, Fulfilled None)
  /\ (forall env rt from to,
         q = Q_merchant_rows -> sql = merchantBreakdownSql env from to ->
         loadMerchantBreakdown env rt w from to now = Some (now + d, Fulfilled [])).
Proof.
  intros E R.
  assert (X : executeAsync w q sql now = Some (now + d, Fulfilled [])).
  { unfold executeAsync. rewrite E, R. reflexivity. }
  split; [exact X|].
  split; [|split].
  - unfold runCount, bind, await_call, await. rewrite X, max_add. reflexivity.
  - unfold runScalar, bind, await_call, await. rewrite X, max_add. reflexivity.
  - intros env rt from to -> ->.
    unfold loadMerchantBreakdown, try_catch, bind, await_call, await.
    rewrite X, max_add. reflexivity.
Qed.

Lemma zero_rows_spec_witness :
  executeAsync zero_rows_store Q_overdue OVERDUE_COUNT_SQL 100
  = Some (100 + 10, Fulfilled [])
  /\ runCount zero_rows_store Q_overdue OVERDUE_COUNT_SQL 100
     = Some (100 + 10, Fulfilled None)
  /\ runScalar zero_rows_store Q_overdue OVERDUE_COUNT_SQL 100
     = Some (100 + 10, Fulfilled None).
Proof.
  destruct (zero_rows_spec zero_rows_store Q_overdue OVERDUE_COUNT_SQL 100 10 (Some []))
    as (H1 & H2 & H3 & _); [reflexivity | reflexivity |].
  split; [exact H1|]. split; [exact H2 | exact H3].
Defined.

(** C9 as stated fails: on zero rows the count and the sum are null, the
    value that stands for unknown in the payload, not a legitimate zero. *)
Lemma zero_rows_is_unknown :
  runCount zero_rows_store Q_applied (appliedCountSql None None None) 0
  = Some (10, Fulfilled None)
  /\ runScalar zero_rows_store Q_total_settled (loanBookSettledSql None None None) 0
     = Some (10, Fulfilled None)
  /\ match loadBnplData None plain_runtime zero_rows_store None None 0 with
     | Some (_, Fulfilled p) =>
         n_applied p = None /\ book_field p total_settled = None /\ error p = None
     | _ => False
     end.
Proof.
  split; [reflexivity|]. split; [reflexivity|].
  vm_compute. repeat split.
Qed.

End LoaderFacts.

(** ** The entry point *)

Module RouteFacts.
Import Double Js Async Store Catalog Bnpl Route Spec Scenarios AsyncFacts LoaderFacts.
Local Open Scope N_scope.

Section Entry.
Variable env : option string.
Variable rt : Runtime.

(** The handler in closed form. *)
Lemma withTimeout_eq {T : Type} (tf : bool) (p : promise T) (ms : N) (now : time) :
  withTimeout tf p ms now
  = match p with
    | Some (t, s) =>
        if operation_first tf t (now + ms) then Some (t, s)
        else Some (now + ms, Rejected (ErrorObj timeout_message))
    | None => Some (now + ms, Rejected (ErrorObj timeout_message))
    end.
Proof.
  unfold withTimeout, Promise_race, after, operation_first.
  destruct p as [[t s]|]; reflexivity.
Qed.

Lemma GET_eq (w : World) (request : Request) (now : time) :
  GET env rt w request now
  = respond request
      (withTimeout (timer_first w)
         (withConnection w
            (fun conn => loadBnplData env rt conn (param_from request) (param_to request))
            now)
         TIMEOUT_MS now)
      now.
Proof.
  unfold GET, respond, try_catch, bind, await_call, await, ret.
  destruct (withTimeout _ _ _ _) as [[t [v|e]]|]; reflexivity.
Qed.

Lemma withConnection_unreachable {T : Type} (w : World) (fn : World -> async T) (now : time) :
  unreachable w ->
  withConnection w fn now = None
  \/ exists t e, withConnection w fn now = Some (t, Rejected e)
                 /\ connection_failure w = Some e /\ now <= t.
Proof.
  unfold unreachable, connection_failure, withConnection, connectAsync,
    throw, bind, await_call, await.
  destruct (create_throws w) as [e|].
  - intros _. right. exists now, e. repeat split. lia.
  - destruct (connect_outcome w) as [[d [e|]]|]; intros H.
    + right. exists (N.max now (now + d)), e. repeat split. lia.
    + contradiction.
    + left. reflexivity.
Qed.

Lemma withConnection_settles (w : World) (request : Request) (now : time) :
  withConnection w
    (fun conn => loadBnplData env rt conn (param_from request) (param_to request)) now
  = None
  \/ exists t s,
       withConnection w
         (fun conn => loadBnplData env rt conn (param_from request) (param_to request)) now
       = Some (t, s) /\ now <= t.
Proof.
  unfold withConnection, connectAsync, throw, bind, await_call, await, try_finally, ret.
  destruct (create_throws w) as [e|].
  - right. exists now. eexists. split; [reflexivity | lia].
  - destruct (connect_outcome w) as [[d [e|]]|].
    + right. eexists. eexists. split; [reflexivity | lia].
    + destruct (loadBnplData_eq env rt w (param_from request) (param_to request)
                  (N.max now (now + d))) as (t & E & Ht).
      rewrite E. right. eexists. eexists. split; [reflexivity | lia].
    + left. reflexivity.
Qed.

End Entry.



(** A connection attempt that never calls back ends in the time-out message,
    at the deadline. *)
Example black_hole_times_out :
  GET None plain_runtime black_hole_store january 0
  = Some (55000, Fulfilled
                   {| body := emptyPayload (Some "2024-01-01"%string)
                                (Some "2024-01-31"%string) timeout_message 55000;
                      status := 500 |}).
Proof. reflexivity. Qed.

(** A healthy store yields scenario A and scenario B in one payload. *)
Example healthy_request :
  match GET None plain_runtime healthy_store january 0 with
  | Some (t, Fulfilled resp) =>
      t = 75 /\ status resp = 200
      /\ n_applied (body resp) = Some 1000%Q
      /\ approval_rate_pct (body resp) = Some 72%Q
      /\ top3_volume_pct (payload_merchant (body resp)) = Some 95%Q
      /\ n_merchants (payload_merchant (body resp)) = Some 4%Q
      /\ error (body resp) = None
  | _ => False
  end.
Proof. vm_compute. repeat split. Qed.

End RouteFacts.

(** ** The client: deadlines and the reading of a count *)

Module ClientMore.
Import Double DoubleFacts Js Async Store Catalog Bnpl Route Spec Scenarios Samples.
Import AsyncFacts LoaderFacts RouteFacts.
Local Open Scope N_scope.

(** X1.  [withTimeout] of the route always settles, no later than its
    deadline.  A promise that settles before the deadline passes through
    unchanged, a rejection as well as a value; one that settles after it, or
    never, becomes a rejection with the time-out message at the deadline; and
    a value that [withTimeout] delivers is the value of the promise. *)
Theorem withTimeout_spec {T : Type}
    (timer_first : bool) (p : promise T) (ms : N) (now : time) :
  (exists t s, withTimeout timer_first p ms now = Some (t, s) /\ t <= now + ms)
  /\ (forall t s,
         p = Some (t, s) -> t < now + ms ->
         withTimeout timer_first p ms now = Some (t, s))
  /\ (forall t s,
         p = Some (t, s) -> now + ms < t ->
         withTimeout timer_first p ms now
         = Some (now + ms, Rejected (ErrorObj timeout_message)))
  /\ (p = None ->
      withTimeout timer_first p ms now
      = Some (now + ms, Rejected (ErrorObj timeout_message)))
  /\ (forall t v,
         withTimeout timer_first p ms now = Some (t, Fulfilled v) ->
         p = Some (t, Fulfilled v)).
Proof.
  rewrite withTimeout_eq. unfold operation_first.
  split; [|split; [|split; [|split]]].
  - destruct p as [[t s]|].
    + destruct (N.ltb_spec t (now + ms)) as [L|L]; cbn [orb].
      * eexists. eexists. split; [reflexivity | lia].
      * destruct ((t =? now + ms) && negb timer_first) eqn:E.
        -- apply andb_true_iff in E. destruct E as [E _]. apply N.eqb_eq in E.
           eexists. eexists. split; [reflexivity | lia].
        -- eexists. eexists. split; [reflexivity | lia].
    + eexists. eexists. split; [reflexivity | lia].
  - intros t s -> Ht. apply N.ltb_lt in Ht. rewrite Ht. reflexivity.
  - intros t s -> Ht.
    assert (E1 : (t <? now + ms) = false) by (apply N.ltb_ge; lia).
    assert (E2 : (t =? now + ms) = false) by (apply N.eqb_neq; lia).
    rewrite E1, E2. reflexivity.
  - intros ->. reflexivity.
  - intros t v. destruct p as [[t0 s]|]; [|discriminate].
    destruct ((t0 <? now + ms) || (t0 =? now + ms) && negb timer_first); [|discriminate].
    intros H. exact H.
Qed.

Lemma withTimeout_spec_witness :
  withTimeout true (Some (25, @Rejected nat (ErrorObj "boom"))) 55000 0
  = Some (25, Rejected (ErrorObj "boom"))
  /\ withTimeout true (Some (60000, Fulfilled 7%nat)) 55000 0
     = Some (55000, Rejected (ErrorObj timeout_message))
  /\ withTimeout true (@None (time * settled nat)) 55000 0
     = Some (55000, Rejected (ErrorObj timeout_message)).
Proof.
  split; [|split].
  - destruct (withTimeout_spec true (Some (25, @Rejected nat (ErrorObj "boom"))) 55000 0)
      as (_ & H & _).
    apply (H 25 (Rejected (ErrorObj "boom"))); reflexivity.
  - destruct (withTimeout_spec true (Some (60000, Fulfilled 7%nat)) 55000 0)
      as (_ & _ & H & _).
    apply (H 60000 (Fulfilled 7%nat)); reflexivity.
  - destruct (withTimeout_spec true (@None (time * settled nat)) 55000 0)
      as (_ & _ & _ & H & _).
    apply H. reflexivity.
Defined.

(** A string of digits is a decimal without sign or fraction, and both
    parsers read the same number from it. *)
Lemma append_empty_r (s : string) : (s ++ "")%string = s.
Proof. induction s as [|c s IH]; cbn; [reflexivity | rewrite IH; reflexivity]. Qed.

Lemma digit_not_minus c : is_digit c = true -> Ascii.eqb c "-"%char = false.
Proof.
  intros H. destruct (Ascii.eqb_spec c "-"%char) as [->|]; [discriminate | reflexivity].
Qed.

Lemma digit_not_dot c : is_digit c = true -> Ascii.eqb c "."%char = false.
Proof.
  intros H. destruct (Ascii.eqb_spec c "."%char) as [->|]; [discriminate | reflexivity].
Qed.

Lemma split_dot_digits s : all_digits s = true -> split_dot s = (s, None).
Proof.
  induction s as [|c s IH]; cbn; [reflexivity|].
  intros H. apply andb_true_iff in H. destruct H as [Hc Hs].
  rewrite (digit_not_dot c Hc), (IH Hs). reflexivity.
Qed.

Lemma strip_minus_digits s : matches_digits s = true -> strip_minus s = (false, s).
Proof.
  destruct s as [|c s]; cbn; [discriminate|].
  intros H. apply andb_true_iff in H. destruct H as [Hc _].
  rewrite (digit_not_minus c Hc). reflexivity.
Qed.

Lemma matches_digits_all s : matches_digits s = true -> all_digits s = true.
Proof. destruct s; [discriminate | exact (fun H => H)]. Qed.

Lemma digits_are_decimal s :
  matches_digits s = true -> matches_decimal s = true /\ parseFloat s = parseInt10 s.
Proof.
  intros H. unfold matches_decimal, parseFloat, parseInt10, of_Z.
  rewrite (strip_minus_digits s H), (split_dot_digits s (matches_digits_all s H)).
  split; [exact H|]. cbn [or_default String.length]. rewrite append_empty_r.
  apply fl_comp. change (inject_Z (10 ^ Z.of_nat 0)) with 1%Q. field.
Qed.

(** X2.  [runScalar] reads everything that [runCount] reads: whenever
    [runCount] resolves with a number, [runScalar] on the same execution
    resolves with the same number at the same time. *)
Theorem runScalar_extends_runCount (w : World) (q : query) (sql : string)
    (now t : time) (v : number) :
  runCount w q sql now = Some (t, Fulfilled (Some v)) ->
  runScalar w q sql now = Some (t, Fulfilled (Some v)).
Proof.
  unfold runCount, runScalar, bind.
  destruct (await_call (executeAsync w q sql) now) as [[t0 [rows|e]]|]; try discriminate.
  destruct rows as [|[first|x] rest]; try (intros H; exact H).
  destruct (first_value first) as [| | |x|s|s x]; try discriminate; try (intros H; exact H).
  destruct (matches_digits s) eqn:D; [|discriminate].
  destruct (digits_are_decimal s D) as [-> ->]. intros H; exact H.
Qed.

Lemma runScalar_extends_runCount_witness :
  runCount (counts_rows "0042") Q_applied "SELECT 1" 0 = Some (10, Fulfilled (Some 42%Q))
  /\ runScalar (counts_rows "0042") Q_applied "SELECT 1" 0 = Some (10, Fulfilled (Some 42%Q)).
Proof.
  assert (H : runCount (counts_rows "0042") Q_applied "SELECT 1" 0
              = Some (10, Fulfilled (Some 42%Q))) by (vm_compute; reflexivity).
  split; [exact H|].
  apply (runScalar_extends_runCount (counts_rows "0042") Q_applied "SELECT 1" 0 10 42%Q H).
Defined.

(** The value of up to fifteen digits is below [2 ^ 53], and so a binary64
    number. *)
Lemma digit_val_range c : is_digit c = true -> (0 <= digit_val c <= 9)%Z.
Proof.
  unfold is_digit, digit_val. intros H. apply andb_true_iff in H. destruct H as [H1 H2].
  apply Nat.leb_le in H1, H2. lia.
Qed.

Lemma digits_val_range s : forall acc,
  all_digits s = true -> (0 <= acc)%Z ->
  (0 <= digits_val acc s < (acc + 1) * 10 ^ Z.of_nat (String.length s))%Z.
Proof.
  induction s as [|c s IH]; intros acc H Hacc.
  - cbn. lia.
  - cbn [all_digits] in H. apply andb_true_iff in H. destruct H as [Hc Hs].
    pose proof (digit_val_range c Hc) as R.
    cbn [digits_val String.length].
    specialize (IH (10 * acc + digit_val c)%Z Hs ltac:(lia)).
    rewrite Nat2Z.inj_succ, Z.pow_succ_r by lia.
    assert (P : (0 < 10 ^ Z.of_nat (String.length s))%Z) by (apply Z.pow_pos_nonneg; lia).
    nia.
Qed.

Lemma Qred_inject_Z n : Qred (inject_Z n) = inject_Z n.
Proof.
  unfold inject_Z, Qred.
  pose proof (Z.ggcd_gcd n 1) as G. pose proof (Z.ggcd_correct_divisors n 1) as D.
  destruct (Z.ggcd n 1) as [g [a b]]. cbn in G, D. destruct D as [D1 D2].
  rewrite Z.gcd_1_r in G. subst g.
  assert (a = n) by lia. assert (b = 1%Z) by lia. subst a b. reflexivity.
Qed.

Lemma fl_Z_exact_eq n : (Z.abs n <= 2 ^ 53)%Z -> fl (inject_Z n) = inject_Z n.
Proof.
  intros H. rewrite <- (fl_canon (inject_Z n)), <- (Qred_inject_Z n).
  apply Qred_complete. rewrite Qred_inject_Z. apply fl_Z_exact, H.
Qed.

Lemma parseInt10_exact s :
  matches_digits s = true -> (String.length s <= 15)%nat ->
  parseInt10 s = inject_Z (digits_val 0 s) /\ (0 <= digits_val 0 s < 10 ^ 15)%Z.
Proof.
  intros H L.
  pose proof (digits_val_range s 0 (matches_digits_all s H) ltac:(lia)) as R.
  assert (B : (10 ^ Z.of_nat (String.length s) <= 10 ^ 15)%Z)
    by (apply Z.pow_le_mono_r; lia).
  split; [|lia].
  unfold parseInt10, of_Z. apply fl_Z_exact_eq.
  assert (10 ^ 15 < 2 ^ 53)%Z by reflexivity. lia.
Qed.

(** X3.  When the first column of the first row is a string, [runCount]
    resolves, when the execution completes, with the integer that the string
    denotes if it consists of decimal digits (exactly so for up to fifteen
    digits, and never a negative number), and with null for every other
    string: a sign, a fraction, an exponent or the empty string. *)
Theorem runCount_reads_digit_strings (w : World) (q : query) (sql : string) (now : time)
    (d : N) (k s : string) (columns : list (string * value)) (more : list row) :
  execute_outcome w q sql
  = Some (d, inr (Some (RObject ((k, VStr s) :: columns) :: more))) ->
  (matches_digits s = true -> (String.length s <= 15)%nat ->
   runCount w q sql now = Some (now + d, Fulfilled (Some (inject_Z (digits_val 0 s))))
   /\ (0 <= digits_val 0 s < 10 ^ 15)%Z)
  /\ (matches_digits s = false ->
      runCount w q sql now = Some (now + d, Fulfilled None)).
Proof.
  intros E.
  assert (R : runCount w q sql now
              = Some (now + d, Fulfilled (if matches_digits s then Some (parseInt10 s) else None))).
  { unfold runCount, bind, await_call, await, executeAsync. rewrite E, max_add.
    cbn. destruct (matches_digits s); reflexivity. }
  split.
  - intros M L. destruct (parseInt10_exact s M L) as [P B].
    rewrite R, M, P. split; [reflexivity | exact B].
  - intros M. rewrite R, M. reflexivity.
Qed.

Lemma runCount_reads_digit_strings_witness :
  runCount (counts_rows "0042") Q_overdue OVERDUE_COUNT_SQL 5
  = Some (5 + 10, Fulfilled (Some (inject_Z (digits_val 0 "0042"))))
  /\ runCount (counts_rows "-3") Q_overdue OVERDUE_COUNT_SQL 5
     = Some (5 + 10, Fulfilled None)
  /\ runCount (counts_rows "1e3") Q_overdue OVERDUE_COUNT_SQL 5
     = Some (5 + 10, Fulfilled None).
Proof.
  split; [|split].
  - destruct (runCount_reads_digit_strings (counts_rows "0042") Q_overdue OVERDUE_COUNT_SQL 5
                10 "N" "0042" [] [] eq_refl) as [H _].
    apply H; [reflexivity | cbn; lia].
  - destruct (runCount_reads_digit_strings (counts_rows "-3") Q_overdue OVERDUE_COUNT_SQL 5
                10 "N" "-3" [] [] eq_refl) as [_ H].
    apply H. reflexivity.
  - destruct (runCount_reads_digit_strings (counts_rows "1e3") Q_overdue OVERDUE_COUNT_SQL 5
                10 "N" "1e3" [] [] eq_refl) as [_ H].
    apply H. reflexivity.
Defined.

Lemma query_eqb_refl q : query_eqb q q = true.
Proof. destruct q; reflexivity. Qed.

(** X4.  [runCount] and [runScalar] look at the first column of the first row
    and at nothing else: the column's name, the other columns and the other
    rows never change what they resolve with. *)
Theorem first_column_of_first_row (w : World) (q : query) (sql : string) (now : time)
    (d : N) (k k' : string) (v : value) (columns : list (string * value)) (more : list row) :
  runCount (with_outcome w q (Some (d, inr (Some (RObject ((k, v) :: columns) :: more)))))
    q sql now
  = runCount (with_outcome w q (Some (d, inr (Some [RObject [(k', v)]])))) q sql now
  /\ runScalar (with_outcome w q (Some (d, inr (Some (RObject ((k, v) :: columns) :: more)))))
       q sql now
     = runScalar (with_outcome w q (Some (d, inr (Some [RObject [(k', v)]])))) q sql now.
Proof.
  unfold runCount, runScalar, bind, await_call, await, executeAsync.
  cbn [with_outcome execute_outcome]. rewrite query_eqb_refl. cbn. split; reflexivity.
Qed.

End ClientMore.

(** ** The loader: timing, shape of the payload, merchant rows *)

Module LoaderMore.
Import Double Js Async Store Catalog Bnpl Route Spec Scenarios Terms Samples.
Import AsyncFacts LoaderFacts.
Local Open Scope N_scope.

Lemma timeout_time_prompt {T : Type} (tf : bool) (p : promise T) (ms d : N) (now : time) :
  d < ms -> (exists t s, p = Some (t, s) /\ now <= t <= now + d) ->
  timeout_time tf p ms now <= now + d.
Proof.
  intros Hd (t & s & -> & Ht). unfold timeout_time, operation_first.
  assert (E : (t <? now + ms) = true) by (apply N.ltb_lt; lia).
  rewrite E. cbn. lia.
Qed.

Lemma executed_within w q sql d now :
  (exists d' r, execute_outcome w q sql = Some (d', r) /\ d' <= d) ->
  exists t s, executeAsync w q sql now = Some (t, s) /\ now <= t <= now + d.
Proof.
  intros (d' & r & E & H). unfold executeAsync. rewrite E.
  destruct r as [e|rows]; eexists; eexists; (split; [reflexivity | lia]).
Qed.

Lemma runCount_within w q sql d now :
  (exists d' r, execute_outcome w q sql = Some (d', r) /\ d' <= d) ->
  exists t s, runCount w q sql now = Some (t, s) /\ now <= t <= now + d.
Proof.
  intros H. destruct (executed_within w q sql d now H) as (t & s & E & Ht).
  unfold runCount, bind, await_call, await. rewrite E.
  destruct s as [rows|e].
  - destruct rows as [|[first|v] rest]; try (eexists; eexists; split; [reflexivity | lia]).
    destruct (first_value first); try (eexists; eexists; split; [reflexivity | lia]).
    destruct (matches_digits s); eexists; eexists; (split; [reflexivity | lia]).
  - eexists; eexists; split; [reflexivity | lia].
Qed.

Lemma runScalar_within w q sql d now :
  (exists d' r, execute_outcome w q sql = Some (d', r) /\ d' <= d) ->
  exists t s, runScalar w q sql now = Some (t, s) /\ now <= t <= now + d.
Proof.
  intros H. destruct (executed_within w q sql d now H) as (t & s & E & Ht).
  unfold runScalar, bind, await_call, await. rewrite E.
  destruct s as [rows|e].
  - destruct rows as [|[first|v] rest]; try (eexists; eexists; split; [reflexivity | lia]).
    destruct (first_value first); try (eexists; eexists; split; [reflexivity | lia]).
    destruct (matches_decimal s); eexists; eexists; (split; [reflexivity | lia]).
  - eexists; eexists; split; [reflexivity | lia].
Qed.

Lemma map_rows_clean (rt : Runtime) (rows : list row) :
  forallb (fun r => negb (nullish_row r)) rows = true ->
  exists ms, map_rows rt rows = inr ms
             /\ Forall2 (fun r m => merchant_row_of rt r = inr m) rows ms.
Proof.
  induction rows as [|r rows IH]; cbn [forallb map_rows]; intros H.
  - exists []. split; [reflexivity | constructor].
  - apply andb_true_iff in H. destruct H as [Hr Hrows].
    destruct (IH Hrows) as (ms & E & F). rewrite E.
    destruct (merchant_row_of rt r) as [e|m] eqn:R.
    + exfalso. destruct r as [fs|[| | | | |]]; cbn in Hr, R; discriminate.
    + exists (m :: ms). split; [reflexivity|]. constructor; assumption.
Qed.

Lemma map_rows_poisoned (rt : Runtime) (rows : list row) :
  existsb nullish_row rows = true -> exists e, map_rows rt rows = inl e.
Proof.
  induction rows as [|r rows IH]; cbn [existsb map_rows]; intros H; [discriminate|].
  destruct (merchant_row_of rt r) as [e|m] eqn:R; [exists e; reflexivity|].
  apply orb_true_iff in H. destruct H as [H|H].
  - exfalso. destruct r as [fs|[| | | | |]]; cbn in H, R; discriminate.
  - destruct (IH H) as (e & ->). exists e. reflexivity.
Qed.

Section Loader.
Variable env : option string.
Variable rt : Runtime.

(** X5.  Whatever the store does, [loadBnplData] resolves, between the
    moment it is called and 20 seconds later; it never rejects and never
    stays pending, its payload carries no error, and the payload's dates are
    the first ten characters of the dates it was given. *)
Theorem loader_always_resolves (w : World) (fromDate toDate : option string) (now : time) :
  exists t p,
    loadBnplData env rt w fromDate toDate now = Some (t, Fulfilled p)
    /\ now <= t <= now + 20000
    /\ error p = None
    /\ refreshed_at p = now
    /\ from p = option_map (slice0 10) fromDate
    /\ to p = option_map (slice0 10) toDate.
Proof.
  destruct (loadBnplData_eq env rt w fromDate toDate now) as (t & E & Ht).
  exists t. eexists. split; [exact E|]. split; [exact Ht|]. repeat split.
Qed.

(** The merchant breakdown in closed form. *)
Lemma loadMerchantBreakdown_eq (w : World) (from to : option string) (now : time) :
  loadMerchantBreakdown env rt w from to now
  = match execute_outcome w Q_merchant_rows (merchantBreakdownSql env from to) with
    | None => None
    | Some (d, inl _) => Some (now + d, Fulfilled [])
    | Some (d, inr rows) =>
        Some (now + d,
              Fulfilled match map_rows rt (or_default rows []) with
                        | inl _ => []
                        | inr ms => ms
                        end)
    end.
Proof.
  unfold loadMerchantBreakdown, try_catch, bind, await_call, await, executeAsync, ret, throw.
  destruct (execute_outcome w Q_merchant_rows (merchantBreakdownSql env from to))
    as [[d [e|rows]]|]; rewrite ?max_add; try reflexivity.
  destruct (or_default rows []) as [|r rest]; [reflexivity|].
  destruct (map_rows rt (r :: rest)); reflexivity.
Qed.

Lemma loadMerchantBreakdown_within w from to d now :
  (exists d' r, execute_outcome w Q_merchant_rows (merchantBreakdownSql env from to)
                = Some (d', r) /\ d' <= d) ->
  exists t s, loadMerchantBreakdown env rt w from to now = Some (t, s) /\ now <= t <= now + d.
Proof.
  intros (d' & r & E & H). rewrite loadMerchantBreakdown_eq, E.
  destruct r as [e|rows]; eexists; eexists; (split; [reflexivity | lia]).
Qed.

(** X6.  The loader does not wait for its timers: when every statement
    completes or fails within [d] milliseconds, for a [d] below the shorter
    budget of 8 seconds, the loader resolves within [d] milliseconds. *)
Theorem loader_prompt (w : World) (fromDate toDate : option string) (now : time) (d : N) :
  d < 8000 ->
  (forall q sql, exists d' r, execute_outcome w q sql = Some (d', r) /\ d' <= d) ->
  exists t p,
    loadBnplData env rt w fromDate toDate now = Some (t, Fulfilled p)
    /\ now <= t <= now + d.
Proof.
  intros Hd Hall.
  unfold loadBnplData. cbv zeta.
  rewrite !withTimeoutNull_eq.
  unfold try_catch, bind, await, Promise_all2, ret.
  eexists. eexists. split; [reflexivity|].
  assert (B : 8000 <= BOUNDED_QUERY_TIMEOUT_MS) by (unfold BOUNDED_QUERY_TIMEOUT_MS; lia).
  assert (S : SLOW_QUERY_TIMEOUT_MS = 8000) by reflexivity.
  repeat match goal with
         | |- context [timeout_time ?a (runCount ?w ?q ?s ?n) ?c ?n] =>
             generalize (timeout_time_bounds a (runCount w q s n) c n);
             generalize (timeout_time_prompt a (runCount w q s n) c d n ltac:(lia)
                           (runCount_within w q s d n (Hall q s)));
             generalize (timeout_time a (runCount w q s n) c n); intros ? ? ?
         | |- context [timeout_time ?a (runScalar ?w ?q ?s ?n) ?c ?n] =>
             generalize (timeout_time_bounds a (runScalar w q s n) c n);
             generalize (timeout_time_prompt a (runScalar w q s n) c d n ltac:(lia)
                           (runScalar_within w q s d n (Hall q s)));
             generalize (timeout_time a (runScalar w q s n) c n); intros ? ? ?
         | |- context [timeout_time ?a (loadMerchantBreakdown env rt ?w ?f ?t ?n) ?c ?n] =>
             generalize (timeout_time_bounds a (loadMerchantBreakdown env rt w f t n) c n);
             generalize (timeout_time_prompt a (loadMerchantBreakdown env rt w f t n) c d n
                           ltac:(lia) (loadMerchantBreakdown_within w f t d n (Hall _ _)));
             generalize (timeout_time a (loadMerchantBreakdown env rt w f t n) c n); intros ? ? ?
         end.
  split; [try apply N.le_max_l; lia | repeat apply N.max_lub; lia].
Qed.

Lemma loadBnplData_payload w fromDate toDate now t s :
  loadBnplData env rt w fromDate toDate now = Some (t, s) ->
  s = Fulfilled (fill (initial_payload (option_map (slice0 10) fromDate)
                                       (option_map (slice0 10) toDate) now)
                      (gathered env rt w (option_map (slice0 10) fromDate)
                                         (option_map (slice0 10) toDate) now))
  /\ now <= t <= now + BOUNDED_QUERY_TIMEOUT_MS.
Proof.
  destruct (loadBnplData_eq env rt w fromDate toDate now) as (t' & E & Ht).
  rewrite E. intros H. injection H as <- <-. split; [reflexivity | exact Ht].
Qed.

(** X7.  In every payload that the loader resolves with, [applications] is
    the count of initial collections; the approval rate is the one computed
    from the two counts of the same payload; the loan book is present and its
    [operations_*] fields repeat its [total_*] fields; the first-attempt rate,
    the default rate and the penalty ratio are null; the number of merchants
    is the length of the breakdown and the concentration share is the one of
    that breakdown. *)
Theorem loader_payload_shape (w : World) (fromDate toDate : option string)
    (now t : time) (p : BnplPayload) :
  loadBnplData env rt w fromDate toDate now = Some (t, Fulfilled p) ->
  applications p = n_initial_collection p
  /\ approval_rate_pct p = approval_rate (n_credit_check_completed p) (n_applied p)
  /\ (exists lb, loan_book p = Some lb
                 /\ operations_settled lb = total_settled lb
                 /\ operations_collected lb = total_collected lb)
  /\ first_attempt_pct p = None /\ default_rate_pct p = None /\ penalty_ratio_pct p = None
  /\ n_merchants (payload_merchant p)
     = Some (of_Z (Z.of_nat (List.length (by_merchant (payload_merchant p)))))
  /\ top3_volume_pct (payload_merchant p) = top3_share (by_merchant (payload_merchant p)).
Proof.
  intros H. apply loadBnplData_payload in H. destruct H as [H _].
  injection H as ->. cbn. repeat split.
  - destruct (approval_rate _ _); reflexivity.
  - eexists. repeat split.
Qed.

(** X8.  [loadMerchantBreakdown] never rejects.  A failed execution gives the
    empty breakdown; so does a result in which one row is null or undefined,
    whatever the other rows hold; and a result without such a row gives one
    merchant per row, in the order of the rows. *)
Theorem merchant_breakdown_never_rejects
    (w : World) (from to : option string) (now : time) :
  (forall t s,
      loadMerchantBreakdown env rt w from to now = Some (t, s) ->
      exists ms, s = Fulfilled ms)
  /\ (forall d e,
         execute_outcome w Q_merchant_rows (merchantBreakdownSql env from to)
         = Some (d, inl e) ->
         loadMerchantBreakdown env rt w from to now = Some (now + d, Fulfilled []))
  /\ (forall d rows,
         execute_outcome w Q_merchant_rows (merchantBreakdownSql env from to)
         = Some (d, inr (Some rows)) ->
         existsb nullish_row rows = true ->
         loadMerchantBreakdown env rt w from to now = Some (now + d, Fulfilled []))
  /\ (forall d rows,
         execute_outcome w Q_merchant_rows (merchantBreakdownSql env from to)
         = Some (d, inr (Some rows)) ->
         forallb (fun r => negb (nullish_row r)) rows = true ->
         exists ms,
           loadMerchantBreakdown env rt w from to now = Some (now + d, Fulfilled ms)
           /\ Forall2 (fun r m => merchant_row_of rt r = inr m) rows ms).
Proof.
  rewrite loadMerchantBreakdown_eq.
  destruct (execute_outcome w Q_merchant_rows (merchantBreakdownSql env from to))
    as [[d0 [e0|rows0]]|].
  - split; [intros t s H; injection H as <- <-; eexists; reflexivity|].
    split; [intros d e H; injection H as <- <-; reflexivity|].
    split; intros d rows H; discriminate.
  - split; [intros t s H; injection H as <- <-; eexists; reflexivity|].
    split; [intros d e H; discriminate|].
    split.
    + intros d rows H Bad. injection H as <- ->. cbn [or_default].
      destruct (map_rows_poisoned rt rows Bad) as (e & ->). reflexivity.
    + intros d rows H Ok. injection H as <- ->. cbn [or_default].
      destruct (map_rows_clean rt rows Ok) as (ms & E & F).
      rewrite E. exists ms. split; [reflexivity | exact F].
  - split; [intros t s H; discriminate|].
    split; [intros d e H; discriminate|].
    split; intros d rows H; discriminate.
Qed.

End Loader.

Lemma loader_prompt_witness :
  exists t p,
    loadBnplData None plain_runtime healthy_store None None 100 = Some (t, Fulfilled p)
    /\ 100 <= t <= 100 + 35.
Proof.
  apply (loader_prompt None plain_runtime healthy_store None None 100 35).
  - reflexivity.
  - intros q sql. destruct q; eexists; eexists; (split; [reflexivity | discriminate]).
Defined.

Lemma loader_payload_shape_witness :
  exists t p,
    loadBnplData None plain_runtime healthy_store (Some "2024-01-01T00:00:00Z"%string) None 0
    = Some (t, Fulfilled p)
    /\ applications p = n_initial_collection p
    /\ (exists lb, loan_book p = Some lb
                   /\ operations_settled lb = total_settled lb
                   /\ operations_collected lb = total_collected lb)
    /\ first_attempt_pct p = None.
Proof.
  eexists. eexists. split; [vm_compute; reflexivity|].
  destruct (loader_payload_shape None plain_runtime healthy_store
              (Some "2024-01-01T00:00:00Z"%string) None 0 _ _ ltac:(vm_compute; reflexivity))
    as (H1 & _ & H3 & H4 & _).
  split; [exact H1|]. split; [exact H3 | exact H4].
Defined.


Lemma merchant_breakdown_never_rejects_witness :
  loadMerchantBreakdown None plain_runtime null_row_store None None 0
  = Some (0 + 35, Fulfilled [])
  /\ loadMerchantBreakdown None plain_runtime merchant_rejected None None 0
     = Some (0 + 35, Fulfilled [])
  /\ exists ms,
       loadMerchantBreakdown None plain_runtime healthy_store None None 0
       = Some (0 + 35, Fulfilled ms)
       /\ List.length ms = 4%nat.
Proof.
  split; [|split].
  - destruct (merchant_breakdown_never_rejects None plain_runtime null_row_store None None 0)
      as (_ & _ & H & _).
    apply (H 35 [merchant_object "A" 1%Q 1000%Q; RPrimitive VNull;
                 merchant_object "C" 1%Q 400%Q]); reflexivity.
  - destruct (merchant_breakdown_never_rejects None plain_runtime merchant_rejected None None 0)
      as (_ & H & _).
    apply (H 35 (ErrorObj "SQL compilation error")). reflexivity.
  - destruct (merchant_breakdown_never_rejects None plain_runtime healthy_store None None 0)
      as (_ & _ & _ & H).
    destruct (H 35 [merchant_object "A" 1%Q 1000%Q; merchant_object "B" 1%Q 600%Q;
                    merchant_object "C" 1%Q 400%Q; merchant_object "D" 1%Q 100%Q]
                eq_refl eq_refl) as (ms & E & F).
    exists ms. split; [exact E|].
    apply Forall2_length in F. symmetry. exact F.
Defined.

End LoaderMore.

(** ** The entry point: what a response can be *)

Module RouteMore.
Import Double Js Async Store Catalog Bnpl Route Spec Scenarios Samples Dashboard.
Import AsyncFacts LoaderFacts RouteFacts LoaderMore.
Local Open Scope N_scope.

(** [withConnection] by the outcome of the connection attempt. *)
Lemma withConnection_cases {T : Type} (w : World) (fn : World -> async T) (now : time) :
  match create_throws w, connect_outcome w with
  | Some e, _ => withConnection w fn now = Some (now, Rejected e)
  | None, None => withConnection w fn now = None
  | None, Some (d, Some e) => withConnection w fn now = Some (now + d, Rejected e)
  | None, Some (d, None) => withConnection w fn now = await (fn w (now + d)) (now + d)
  end.
Proof.
  unfold withConnection, connectAsync, throw, bind, await_call, await, try_finally, ret.
  destruct (create_throws w) as [e|]; [reflexivity|].
  destruct (connect_outcome w) as [[d [e|]]|]; rewrite ?max_add; try reflexivity.
  destruct (fn w (now + d)) as [[t [v|e]]|]; reflexivity.
Qed.

Section Entry.
Variable env : option string.
Variable rt : Runtime.

Lemma connected_payload (w : World) (request : Request) (now t : time) (p : BnplPayload) :
  withConnection w
    (fun conn => loadBnplData env rt conn (param_from request) (param_to request)) now
  = Some (t, Fulfilled p) ->
  exists d,
    create_throws w = None /\ connect_outcome w = Some (d, None)
    /\ loadBnplData env rt w (param_from request) (param_to request) (now + d)
       = Some (t, Fulfilled p).
Proof.
  intros H.
  pose proof (withConnection_cases w
    (fun conn => loadBnplData env rt conn (param_from request) (param_to request)) now) as C.
  destruct (create_throws w) as [e|]; [congruence|].
  destruct (connect_outcome w) as [[d [e|]]|]; try congruence.
  exists d. split; [reflexivity|]. split; [reflexivity|].
  rewrite C in H. unfold await in H.
  destruct (loadBnplData env rt w (param_from request) (param_to request) (now + d))
    as [[t' s]|] eqn:E; [|discriminate].
  destruct (loadBnplData_payload _ _ _ _ _ _ _ _ E) as [_ Ht].
  rewrite N.max_r in H by lia. exact H.
Qed.

(** X10.  A response of [GET /api/bnpl] is one of two kinds.  With status 200
    its payload comes from the loader: no error, a loan book, a number of
    merchants, and the dates of the request cut to ten characters.  With
    status 500 it is the empty payload: an error message, every metric
    unknown, the dates of the request as they came, and the time of the
    response.  No response mixes data with an error. *)
Theorem GET_status_cases (w : World) (request : Request) (now t : time) (resp : Response) :
  GET env rt w request now = Some (t, Fulfilled resp) ->
  (status resp = 200
   /\ error (body resp) = None
   /\ from (body resp) = option_map (slice0 10) (param_from request)
   /\ to (body resp) = option_map (slice0 10) (param_to request)
   /\ loan_book (body resp) <> None
   /\ n_merchants (payload_merchant (body resp)) <> None)
  \/ (status resp = 500
      /\ (exists message, error (body resp) = Some message)
      /\ from (body resp) = param_from request
      /\ to (body resp) = param_to request
      /\ refreshed_at (body resp) = t
      /\ all_unknown (body resp)).
Proof.
  rewrite GET_eq, withTimeout_eq.
  assert (F : forall t0 e,
    respond request (Some (t0, Rejected e)) now = Some (t, Fulfilled resp) ->
    status resp = 500
    /\ (exists message, error (body resp) = Some message)
    /\ from (body resp) = param_from request
    /\ to (body resp) = param_to request
    /\ refreshed_at (body resp) = t
    /\ all_unknown (body resp)).
  { intros t0 e H. cbn in H. injection H as <- <-. cbn.
    split; [reflexivity|]. split; [eexists; reflexivity|]. repeat split. }
  destruct (withConnection w _ now) as [[t0 [p|e]]|] eqn:W.
  - destruct (operation_first (timer_first w) t0 (now + TIMEOUT_MS)).
    + intros H. left. cbn in H. injection H as <- <-. cbn.
      destruct (connected_payload w request now t0 p W) as (d & _ & _ & L).
      apply loadBnplData_payload in L. destruct L as [L _]. injection L as ->.
      cbn. repeat split; discriminate.
    + intros H. right. exact (F _ _ H).
  - destruct (operation_first (timer_first w) t0 (now + TIMEOUT_MS));
      intros H; right; exact (F _ _ H).
  - intros H. right. exact (F _ _ H).
Qed.

(** X11.  The two deadlines of the route fit together.  When the connection
    is established within 35 seconds, the response has status 200 and is the
    loader's payload, at most 20 seconds after the connection, whatever the
    statements do; when the connection attempt takes longer than 55 seconds,
    the response is the time-out response, exactly 55 seconds after the
    request. *)
Theorem GET_connection_budget (w : World) (request : Request) (now : time) (d : N) :
  create_throws w = None ->
  (connect_outcome w = Some (d, None) ->
   d < 35000 ->
   exists t resp,
     GET env rt w request now = Some (t, Fulfilled resp)
     /\ now + d <= t <= now + d + 20000
     /\ status resp = 200
     /\ loadBnplData env rt w (param_from request) (param_to request) (now + d)
        = Some (t, Fulfilled (body resp)))
  /\ (forall o,
         connect_outcome w = Some (d, o) ->
         55000 < d ->
         GET env rt w request now
         = Some (now + 55000,
                 Fulfilled {| body := emptyPayload (param_from request) (param_to request)
                                        timeout_message (now + 55000);
                              status := 500 |})).
Proof.
  intros Hc.
  pose proof (withConnection_cases w
    (fun conn => loadBnplData env rt conn (param_from request) (param_to request)) now) as C.
  rewrite Hc in C.
  split.
  - intros Hk Hd. rewrite Hk in C.
    rewrite GET_eq, withTimeout_eq, C.
    destruct (loadBnplData_eq env rt w (param_from request) (param_to request) (now + d))
      as (t & E & Ht).
    unfold BOUNDED_QUERY_TIMEOUT_MS in Ht.
    rewrite E. unfold await. rewrite (N.max_r (now + d) t) by lia.
    unfold operation_first, TIMEOUT_MS.
    assert (L : (t <? now + 55000) = true) by (apply N.ltb_lt; lia).
    rewrite L. cbn.
    eexists. eexists. split; [reflexivity|].
    rewrite (N.max_r now t) by lia.
    split; [lia|]. repeat split.
  - intros o Hk Hd. rewrite Hk in C.
    rewrite GET_eq, withTimeout_eq.
    assert (R : respond request
                  (Some (now + TIMEOUT_MS, Rejected (ErrorObj timeout_message))) now
                = Some (now + 55000,
                        Fulfilled {| body := emptyPayload (param_from request)
                                               (param_to request) timeout_message
                                               (now + 55000);
                                     status := 500 |})).
    { cbn. unfold TIMEOUT_MS. rewrite max_add. reflexivity. }
    assert (Late : forall t, now + d <= t ->
              operation_first (timer_first w) t (now + TIMEOUT_MS) = false).
    { intros t Ht. unfold operation_first, TIMEOUT_MS.
      assert (E1 : (t <? now + 55000) = false) by (apply N.ltb_ge; lia).
      assert (E2 : (t =? now + 55000) = false) by (apply N.eqb_neq; lia).
      rewrite E1, E2. reflexivity. }
    destruct o as [e|].
    + rewrite C, (Late (now + d)) by lia. exact R.
    + rewrite C. unfold await.
      destruct (loadBnplData env rt w (param_from request) (param_to request) (now + d))
        as [[t s]|]; [|exact R].
      rewrite Late by lia. exact R.
Qed.

End Entry.

Lemma GET_status_cases_witness :
  exists t resp,
    GET None plain_runtime healthy_store january 0 = Some (t, Fulfilled resp)
    /\ status resp = 200 /\ error (body resp) = None.
Proof.
  eexists. eexists. split; [vm_compute; reflexivity|].
  destruct (GET_status_cases None plain_runtime healthy_store january 0 _ _
              ltac:(vm_compute; reflexivity)) as [(H1 & H2 & _) | (H1 & _)].
  - split; [exact H1 | exact H2].
  - discriminate H1.
Defined.

Lemma GET_connection_budget_witness :
  (exists t resp,
      GET None plain_runtime applied_hangs january 0 = Some (t, Fulfilled resp)
      /\ 0 + 40 <= t <= 0 + 40 + 20000
      /\ status resp = 200
      /\ loadBnplData None plain_runtime applied_hangs (param_from january)
           (param_to january) (0 + 40) = Some (t, Fulfilled (body resp)))
  /\ GET None plain_runtime slow_connect_store january 0
     = Some (0 + 55000,
             Fulfilled {| body := emptyPayload (param_from january) (param_to january)
                                    timeout_message (0 + 55000);
                          status := 500 |}).
Proof.
  split.
  - destruct (GET_connection_budget None plain_runtime applied_hangs january 0 40 eq_refl)
      as [H _].
    apply H; reflexivity.
  - destruct (GET_connection_budget None plain_runtime slow_connect_store january 0 60000
                eq_refl) as [_ H].
    apply (H None); reflexivity.
Defined.

(** X12.  The three places that spell out the empty payload agree: the one
    of the route is the loader's initial payload with the error set, the
    fallback of the page is the loader's initial payload for the dates of the
    form (an empty date being null), and in each of them every metric is
    unknown. *)
Theorem empty_payloads_agree
    (from to : option string) (message : string) (now : time) (form_from form_to : string) :
  emptyPayload from to message now = set_error (initial_payload from to now) message
  /\ all_unknown (initial_payload from to now)
  /\ all_unknown (emptyPayload from to message now)
  /\ fallbackErrorPayload form_from form_to now
     = initial_payload (if Connection.nonempty form_from then Some form_from else None)
                       (if Connection.nonempty form_to then Some form_to else None) now
  /\ all_unknown (fallbackErrorPayload form_from form_to now).
Proof. repeat split. Qed.

End RouteMore.

(** ** The query catalog: bounds and test users *)

Module CatalogMore.
Import Js Catalog Terms CatalogFacts.
Local Open Scope string_scope.

Lemma substring_idem n : forall s, substring 0 n (substring 0 n s) = substring 0 n s.
Proof.
  induction n as [|n IH]; intros [|c s]; cbn; try reflexivity.
  rewrite IH. reflexivity.
Qed.

Lemma fd_idem f : fd (fd f) = fd f.
Proof. apply substring_idem. Qed.

Lemma str_truthy_fd f : str_truthy (Some (fd f)) = str_truthy (Some f).
Proof. destruct f; reflexivity. Qed.

Lemma both_fd from to :
  both (option_map fd from) (option_map fd to)
  = match both from to with
    | Some (f, t) => Some (fd f, fd t)
    | None => None
    end.
Proof.
  destruct from as [f|], to as [t|]; try reflexivity.
  unfold both. cbn [option_map]. rewrite !str_truthy_fd.
  destruct (str_truthy (Some f) && str_truthy (Some t)); reflexivity.
Qed.

Ltac unfold_builders :=
  unfold appliedCountSql, approvedCountSql, kycVerifiedCountSql, planCreationSql,
    initialCollectionSql, consumersWithPlanSql, loanBookSettledSql,
    loanBookCollectedSql, merchantBreakdownSql.

Lemma build_fd env b from to :
  build env b (option_map fd from) (option_map fd to) = build env b from to.
Proof.
  destruct b; cbn [build]; unfold_builders;
    rewrite (both_fd from to); destruct (both from to) as [[f t]|];
    rewrite ?(fd_idem f), ?(fd_idem t); reflexivity.
Qed.

(** X13.  Only the first ten characters of a bound reach a statement: two
    pairs of bounds that agree on their first ten characters give the same
    statement, in each of the nine builders. *)
Theorem only_first_ten_characters (env : option string) (b : builder) (f t f' t' : string) :
  fd f = fd f' -> fd t = fd t' ->
  build env b (Some f) (Some t) = build env b (Some f') (Some t').
Proof.
  intros Hf Ht.
  rewrite <- (build_fd env b (Some f) (Some t)), <- (build_fd env b (Some f') (Some t')).
  cbn [option_map]. rewrite Hf, Ht. reflexivity.
Qed.

Lemma only_first_ten_characters_witness :
  planCreationSql None (Some "2024-01-01T00:00:00.000Z") (Some "2024-01-31T23:59:59.999Z")
  = planCreationSql None (Some "2024-01-01") (Some "2024-01-31").
Proof.
  apply (only_first_ten_characters None PlanCreation); reflexivity.
Defined.

(** Occurrences of a pattern around a separator that it does not contain. *)
Lemma startsWith_sep (c : ascii) (p : string) : forall L X,
  has_char c p = false -> ends_with c L = true ->
  startsWith p (L ++ X) = startsWith p L.
Proof.
  induction p as [|a p IH]; intros L X Hp HL; [reflexivity|].
  cbn in Hp. apply orb_false_iff in Hp. destruct Hp as [Ha Hp].
  destruct L as [|b L]; [discriminate|].
  cbn [append startsWith].
  destruct L as [|b' L].
  - cbn in HL. apply Ascii.eqb_eq in HL. subst b. rewrite Ha. reflexivity.
  - rewrite (IH (String b' L) X Hp HL). reflexivity.
Qed.

Lemma includes_empty_pattern s : includes "" s = true.
Proof. destruct s; reflexivity. Qed.

Lemma includes_sep (c : ascii) (p : string) : forall L X,
  has_char c p = false -> ends_with c L = true ->
  includes p (L ++ X) = includes p L || includes p X.
Proof.
  intros L X Hp. induction L as [|b L IH]; intros HL; [discriminate|].
  change (includes p (String b L ++ X))
    with (startsWith p (String b L ++ X) || includes p (L ++ X)).
  change (includes p (String b L)) with (startsWith p (String b L) || includes p L).
  rewrite (startsWith_sep c p (String b L) X Hp HL).
  destruct L as [|b' L].
  - cbn [append]. destruct p as [|a p].
    + rewrite includes_empty_pattern. cbn. reflexivity.
    + cbn. rewrite !orb_false_r. reflexivity.
  - rewrite (IH HL). rewrite orb_assoc. reflexivity.
Qed.

Lemma startsWith_short (c : ascii) (d : string) : forall p Y,
  has_char c p = false -> (String.length d < String.length p)%nat ->
  startsWith p (d ++ String c Y) = false.
Proof.
  induction d as [|x d IH]; intros p Y Hp Hl.
  - destruct p as [|a p]; [cbn in Hl; lia|].
    cbn in Hp. apply orb_false_iff in Hp. destruct Hp as [Ha _].
    cbn. rewrite Ha. reflexivity.
  - destruct p as [|a p]; [cbn in Hl; lia|].
    cbn in Hp. apply orb_false_iff in Hp. destruct Hp as [_ Hp].
    cbn [append startsWith]. rewrite (IH p Y Hp) by (cbn in Hl; lia).
    apply andb_false_r.
Qed.

Lemma includes_short (c : ascii) (p : string) (d : string) : forall Y,
  has_char c p = false -> (String.length d < String.length p)%nat ->
  includes p (d ++ String c Y) = includes p (String c Y).
Proof.
  induction d as [|x d IH]; intros Y Hp Hl; [reflexivity|].
  change (includes p (String x d ++ String c Y))
    with (startsWith p (String x d ++ String c Y) || includes p (d ++ String c Y)).
  rewrite (startsWith_short c (String x d) p Y Hp Hl).
  rewrite (IH Y Hp) by (cbn in Hl; lia). reflexivity.
Qed.

Lemma length_substring n : forall s, (String.length (substring 0 n s) <= n)%nat.
Proof.
  induction n as [|n IH]; intros [|c s]; cbn; try lia.
  specialize (IH s). lia.
Qed.

Lemma length_fd f : (String.length (fd f) <= 10)%nat.
Proof. apply length_substring. Qed.

(** A pattern without a quote and longer than a bound occurs in a statement
    with its two bounds between quotes only where the fixed text has it. *)
Lemma includes_around_bounds (p L1 L2 R : string) (f t : string) :
  has_char "'" p = false -> (10 < String.length p)%nat ->
  ends_with "'" L1 = true -> ends_with "'" L2 = true ->
  startsWith "'" L2 = true -> startsWith "'" R = true ->
  includes p (L1 ++ fd f ++ L2 ++ fd t ++ R)
  = includes p L1 || includes p L2 || includes p R.
Proof.
  intros Hp Hl E1 E2 S2 SR.
  rewrite (includes_sep "'" p L1 _ Hp E1).
  destruct L2 as [|q L2]; [discriminate|].
  cbn [startsWith] in S2. rewrite andb_true_r in S2. apply Ascii.eqb_eq in S2. subst q.
  destruct R as [|q R]; [discriminate|].
  cbn [startsWith] in SR. rewrite andb_true_r in SR. apply Ascii.eqb_eq in SR. subst q.
  change (String "'" L2 ++ fd t ++ String "'" R)
    with (String "'" (L2 ++ fd t ++ String "'" R)).
  rewrite (includes_short "'" p (fd f) _ Hp) by (pose proof (length_fd f); lia).
  change (String "'" (L2 ++ fd t ++ String "'" R))
    with (String "'" L2 ++ fd t ++ String "'" R).
  rewrite (includes_sep "'" p (String "'" L2) _ Hp E2).
  rewrite (includes_short "'" p (fd t) _ Hp) by (pose proof (length_fd t); lia).
  rewrite orb_assoc. reflexivity.
Qed.

Lemma regroup (pre L d1 L2 d2 q E post : string) :
  pre ++ ((L ++ d1 ++ L2 ++ d2 ++ q ++ E) ++ post)
  = (pre ++ L) ++ d1 ++ L2 ++ d2 ++ (q ++ E ++ post).
Proof.
  rewrite (append_assoc L _ post), (append_assoc d1 _ post), (append_assoc L2 _ post),
    (append_assoc d2 _ post), (append_assoc q E post).
  rewrite <- (append_assoc pre L _). reflexivity.
Qed.

Ltac bounds_formula :=
  lazymatch goal with
  | |- includes ?p (?L1 ++ fd ?f ++ ?L2 ++ fd ?t ++ ?R) = _ =>
      rewrite (includes_around_bounds p L1 L2 R f t
                 ltac:(vm_compute; reflexivity) ltac:(cbn; lia)
                 ltac:(vm_compute; reflexivity) ltac:(vm_compute; reflexivity)
                 ltac:(reflexivity) ltac:(reflexivity))
  end.

Section Flag.
Variable env : option string.

Lemma none_excluded_filtered (b : builder) (from to : option string) (f t : string) :
  EXCLUDE_TEST_USERS env = false ->
  both from to = Some (f, t) ->
  includes "stitch.money" (build env b from to) = false.
Proof.
  intros Off H.
  destruct b; cbn [build]; unfold_builders; rewrite H.
  - bounds_formula. unfold EXCL_CP. rewrite Off. vm_compute. reflexivity.
  - bounds_formula. unfold EXCL_CP. rewrite Off. vm_compute. reflexivity.
  - bounds_formula. unfold EXCL_CP. rewrite Off. vm_compute. reflexivity.
  - bounds_formula. unfold EXCL_PLAN. rewrite Off. vm_compute. reflexivity.
  - bounds_formula. unfold EXCL_PLAN. rewrite Off. vm_compute. reflexivity.
  - bounds_formula. unfold EXCL_PLAN. rewrite Off. vm_compute. reflexivity.
  - bounds_formula. unfold EXCL_PLAN. rewrite Off. vm_compute. reflexivity.
  - cbv zeta.
    lazymatch goal with
    | |- includes ?p (?B ++ ?A ++ ?Z) = _ => rewrite <- (append_assoc B A Z)
    end.
    bounds_formula. unfold EXCL_PLAN. rewrite Off. vm_compute. reflexivity.
  - cbv zeta. unfold trim. rewrite trim_start_nl by reflexivity. push_trim_end.
    lazymatch goal with
    | |- includes ?p (?a1 ++ ?a2 ++ ?a3 ++ ?a4 ++ ?a5 ++ ?a6 ++ ?a7 ++ ?a8
                        ++ (?L ++ ?d1 ++ ?L2 ++ ?d2 ++ ?q ++ ?E) ++ ?post) = ?r =>
        let pre := eval vm_compute in (a1 ++ a2 ++ a3 ++ a4 ++ a5 ++ a6 ++ a7 ++ a8) in
        change (includes p (pre ++ ((L ++ d1 ++ L2 ++ d2 ++ q ++ E) ++ post)) = r);
        rewrite (regroup pre L d1 L2 d2 q E post)
    end.
    bounds_formula. unfold EXCL_PLAN. rewrite Off. vm_compute. reflexivity.
Qed.

Lemma none_excluded (b : builder) (from to : option string) :
  EXCLUDE_TEST_USERS env = false ->
  includes "stitch.money" (build env b from to) = false.
Proof.
  intros Off. destruct (both from to) as [[f t]|] eqn:H.
  - exact (none_excluded_filtered b from to f t Off H).
  - destruct b; cbn [build]; unfold_builders; rewrite H;
      unfold EXCL_CP, EXCL_PLAN; rewrite Off; vm_compute; reflexivity.
Qed.

Lemma all_excluded (b : builder) (from to : option string) :
  EXCLUDE_TEST_USERS env = true ->
  includes (exclusion_clause b) (build env b from to) = true.
Proof.
  intros On. destruct (both from to) as [[f t]|] eqn:H.
  - destruct b; cbn [build exclusion_clause]; unfold_builders; rewrite H.
    + do 5 skip_piece. unfold EXCL_CP. rewrite On. vm_compute. reflexivity.
    + do 5 skip_piece. unfold EXCL_CP. rewrite On. vm_compute. reflexivity.
    + do 5 skip_piece. unfold EXCL_CP. rewrite On. vm_compute. reflexivity.
    + do 5 skip_piece. in_piece. unfold EXCL_PLAN. rewrite On. vm_compute. reflexivity.
    + do 5 skip_piece. in_piece. unfold EXCL_PLAN. rewrite On. vm_compute. reflexivity.
    + do 5 skip_piece. in_piece. unfold EXCL_PLAN. rewrite On. vm_compute. reflexivity.
    + do 5 skip_piece. unfold EXCL_PLAN. rewrite On. vm_compute. reflexivity.
    + cbv zeta. do 6 skip_piece. unfold EXCL_PLAN. rewrite On. vm_compute. reflexivity.
    + cbv zeta. unfold trim. rewrite trim_start_nl by reflexivity. push_trim_end.
      do 8 skip_piece. in_piece. do 5 skip_piece.
      unfold EXCL_PLAN. rewrite On. vm_compute. reflexivity.
  - destruct b; cbn [build exclusion_clause]; unfold_builders; rewrite H;
      unfold EXCL_CP, EXCL_PLAN; rewrite On; vm_compute; reflexivity.
Qed.

End Flag.

Lemma flag_values (env : option string) :
  EXCLUDE_TEST_USERS env = true
  <-> env = None \/ exists s, env = Some s /\ (toLowerCase s = "true" \/ s = "1").
Proof.
  unfold EXCLUDE_TEST_USERS. rewrite orb_true_iff, !String.eqb_eq.
  destruct env as [s|]; cbn [or_default].
  - split.
    + intros H. right. exists s. split; [reflexivity | exact H].
    + intros [H | (s' & E & H)]; [discriminate|]. injection E as <-. exact H.
  - split; [intros _; left; reflexivity | intros _; left; reflexivity].
Qed.

(** X14.  The exclusion of test users is on when [EXCLUDE_TEST_USERS] is not
    set, is [true] in any mix of cases, or is [1], and off for every other
    value, the empty string included.  When it is on, the statement of each
    of the nine builders contains the builder's exclusion clause, with or
    without bounds; when it is off, no statement mentions the test users'
    domain, whatever the bounds are.  The statements of the overdue count and
    of the allocated credit never exclude test users. *)
Theorem test_user_exclusion (env : option string) (b : builder) (from to : option string) :
  (EXCLUDE_TEST_USERS env = true <->
   env = None \/ exists s, env = Some s /\ (toLowerCase s = "true" \/ s = "1"))
  /\ (EXCLUDE_TEST_USERS env = true ->
      includes (exclusion_clause b) (build env b from to) = true)
  /\ (EXCLUDE_TEST_USERS env = false ->
      includes "stitch.money" (build env b from to) = false)
  /\ includes "stitch.money" OVERDUE_COUNT_SQL = false
  /\ includes "stitch.money" CREDIT_ALLOCATED_SQL = false.
Proof.
  split; [apply flag_values|].
  split; [apply all_excluded|].
  split; [apply none_excluded|].
  split; vm_compute; reflexivity.
Qed.

Lemma test_user_exclusion_witness :
  includes " AND ip.CONSUMER_PROFILE_ID NOT IN (SELECT ID FROM CDC_CONSUMER_PROFILE_PRODUCTION.PUBLIC.CONSUMER_PROFILE WHERE LOWER(EMAIL) LIKE '%stitch.money%')"
    (loanBookCollectedSql (Some "TRUE") (Some "2024-01-01") (Some "2024-01-31")) = true
  /\ includes "stitch.money"
       (merchantBreakdownSql (Some "yes") (Some "stitch.money") (Some "2024-01-31")) = false
  /\ includes "stitch.money" (appliedCountSql (Some "") None None) = false.
Proof.
  split; [|split].
  - destruct (test_user_exclusion (Some "TRUE") LoanBookCollected
                (Some "2024-01-01") (Some "2024-01-31")) as (_ & H & _).
    apply H. reflexivity.
  - destruct (test_user_exclusion (Some "yes") MerchantBreakdown
                (Some "stitch.money") (Some "2024-01-31")) as (_ & _ & H & _).
    apply H. reflexivity.
  - destruct (test_user_exclusion (Some "") AppliedCount None None) as (_ & _ & H & _).
    apply H. reflexivity.
Defined.

End CatalogMore.

(** ** The page: bounds, ties, revenue, funding gap, time of the last run *)

Module PageMore.
Import Double DoubleFacts Js Async Bnpl Route Page Spec Scenarios Terms Samples Dashboard.
Import MetricsFacts ClientMore.
Local Open Scope Q_scope.

Lemma permille_bound (t T : Q) :
  0 <= t -> t <= T -> 0 < T ->
  exists k : Z, Math_round (div (mul 1000 t) T) = inject_Z k /\ (0 <= k <= 1000)%Z.
Proof.
  intros H0 H1 H2.
  exists (Qfloor (div (mul 1000 t) T + (1 # 2))). split; [reflexivity|].
  assert (Ha0 : 0 <= mul 1000 t) by (apply fl_nonneg; lra).
  assert (Ha1 : mul 1000 t <= 1000 * T + 1000 * T * u53).
  { eapply Qle_trans; [apply (fl_mono (1000 * t) (1000 * T)); lra|].
    apply (fl_err_nonneg (1000 * T)). lra. }
  rewrite u53_val in Ha1.
  set (a := mul 1000 t) in *. clearbody a.
  assert (Hq0 : 0 <= a / T) by (apply Qle_shift_div_l; lra).
  assert (Hq1 : a / T <= 4001 # 4) by (apply Qle_shift_div_r; lra).
  assert (Hy0 : 0 <= div a T) by (apply fl_nonneg; exact Hq0).
  assert (Hy1 : div a T <= 4001 # 4).
  { change (4001 # 4) with (fl (4001 # 4)). apply fl_mono. exact Hq1. }
  set (y := div a T) in *. clearbody y.
  split.
  - change 0%Z with (Qfloor 0). apply Qfloor_resp_le. lra.
  - change 1000%Z with (Qfloor ((4001 # 4) + (1 # 2))). apply Qfloor_resp_le. lra.
Qed.

Lemma tenth_bound (k : Z) :
  (0 <= k <= 1000)%Z -> 0 <= div (inject_Z k) 10 /\ div (inject_Z k) 10 <= 100.
Proof.
  intros [H1 H2]. rewrite Zle_Qle in H1, H2.
  change (inject_Z 0) with 0 in H1. change (inject_Z 1000) with 1000 in H2.
  unfold div. split.
  - apply fl_nonneg. apply Qle_shift_div_l; lra.
  - change 100 with (fl 100). apply fl_mono. apply Qle_shift_div_r; lra.
Qed.

Lemma drop_le_prev prev next :
  is_double prev -> 0 <= prev -> 0 <= next -> drop prev next <= prev.
Proof.
  intros D Hp Hn. unfold drop, Math_max.
  destruct (Qle_bool 0 (sub prev next)); [|exact Hp].
  unfold sub. unfold is_double in D. rewrite <- D at 2. apply fl_mono. lra.
Qed.

Lemma pctDrop_bounds prev dropped :
  0 <= prev -> 0 <= dropped -> dropped <= prev ->
  0 <= pctDrop prev dropped /\ pctDrop prev dropped <= 100.
Proof.
  intros Hp H0 H1. unfold pctDrop.
  destruct (truthy prev) eqn:T.
  - apply truthy_true in T.
    assert (P : 0 < prev) by (destruct (Qlt_le_dec 0 prev) as [L|L]; [exact L|];
                              exfalso; apply T; lra).
    destruct (permille_bound dropped prev H0 H1 P) as (k & -> & Hk).
    apply tenth_bound, Hk.
  - split; lra.
Qed.

Lemma count_like_Z (n : Z) : (0 <= n <= 2 ^ 53)%Z -> count_like (inject_Z n).
Proof.
  intros [H1 H2]. split; [|split].
  - unfold is_double. apply fl_Z_exact. lia.
  - change 0 with (inject_Z 0). rewrite <- Zle_Qle. exact H1.
  - rewrite <- Zle_Qle. exact H2.
Qed.

(** X15.  When the five counts of the funnel are counts (binary64 numbers
    between 0 and [2 ^ 53], null counting as 0), no stage loses more than it
    had, and each of the four drop-off percentages lies between 0 and 100,
    also where a later stage counts more than the stage before it. *)
Theorem dropoff_pct_bounds (d : option BnplPayload) :
  count_like (nApplied d) -> count_like (nKyc d) -> count_like (nCredit d) ->
  count_like (nPlan d) -> count_like (nInitial d) ->
  (dropKyc d <= nApplied d /\ dropCredit d <= nKyc d
   /\ dropPlan d <= nCredit d /\ dropInitial d <= nPlan d)
  /\ (forall x, In x (drops d) -> 0 <= pct x /\ pct x <= 100).
Proof.
  intros (D1 & L1 & _) (D2 & L2 & _) (D3 & L3 & _) (D4 & L4 & _) (_ & L5 & _).
  assert (B1 := drop_le_prev _ _ D1 L1 L2).
  assert (B2 := drop_le_prev _ _ D2 L2 L3).
  assert (B3 := drop_le_prev _ _ D3 L3 L4).
  assert (B4 := drop_le_prev _ _ D4 L4 L5).
  split; [repeat split; assumption|].
  intros x [<-|[<-|[<-|[<-|[]]]]]; cbn [pct];
    apply pctDrop_bounds; try assumption; apply drop_nonneg.
Qed.

Lemma dropoff_pct_bounds_witness :
  (dropKyc (Some scenario_A) <= nApplied (Some scenario_A)
   /\ dropCredit (Some scenario_A) <= nKyc (Some scenario_A)
   /\ dropPlan (Some scenario_A) <= nCredit (Some scenario_A)
   /\ dropInitial (Some scenario_A) <= nPlan (Some scenario_A))
  /\ (forall x, In x (drops (Some scenario_A)) -> 0 <= pct x /\ pct x <= 100).
Proof.
  apply (dropoff_pct_bounds (Some scenario_A));
    [apply (count_like_Z 1000) | apply (count_like_Z 800) | apply (count_like_Z 720)
    | apply (count_like_Z 650) | apply (count_like_Z 600)]; split; discriminate.
Defined.

Lemma permille_full (v : Q) :
  0 < v -> Math_round (div (mul 1000 v) v) = 1000.
Proof.
  intros Hv.
  assert (Ha : 1000 * v - 1000 * v * u53 <= mul 1000 v
               /\ mul 1000 v <= 1000 * v + 1000 * v * u53).
  { apply (fl_err_nonneg (1000 * v)). lra. }
  rewrite u53_val in Ha. destruct Ha as [Ha1 Ha2].
  set (a := mul 1000 v) in *. clearbody a.
  assert (Hq0 : 3999 # 4 <= a / v) by (apply Qle_shift_div_l; lra).
  assert (Hq1 : a / v <= 4001 # 4) by (apply Qle_shift_div_r; lra).
  assert (Hy0 : 3999 # 4 <= div a v).
  { change (3999 # 4) with (fl (3999 # 4)). apply fl_mono. exact Hq0. }
  assert (Hy1 : div a v <= 4001 # 4).
  { change (4001 # 4) with (fl (4001 # 4)). apply fl_mono. exact Hq1. }
  set (y := div a v) in *. clearbody y.
  unfold Math_round. change 1000 with (inject_Z 1000). f_equal.
  assert (L : (1000 <= Qfloor (y + (1 # 2)))%Z).
  { change 1000%Z with (Qfloor ((3999 # 4) + (1 # 2))). apply Qfloor_resp_le. lra. }
  assert (U : (Qfloor (y + (1 # 2)) <= 1000)%Z).
  { change 1000%Z with (Qfloor ((4001 # 4) + (1 # 2))). apply Qfloor_resp_le. lra. }
  lia.
Qed.

Lemma total_drop prev :
  is_double prev -> 0 < prev ->
  drop prev 0 == prev /\ pctDrop prev (drop prev 0) = 100.
Proof.
  intros D P.
  assert (S : sub prev 0 == prev).
  { unfold sub. unfold is_double in D. rewrite <- D at 2.
    rewrite (fl_comp (prev - 0) prev) by ring. reflexivity. }
  assert (E : drop prev 0 == prev).
  { unfold drop, Math_max. destruct (Qle_bool 0 (sub prev 0)) eqn:C; [exact S|].
    exfalso. assert (X : Qle_bool 0 (sub prev 0) = true) by (apply Qle_bool_iff; lra).
    congruence. }
  split; [exact E|].
  unfold pctDrop.
  assert (T : truthy prev = true) by (apply truthy_true, pos_neq0, P).
  rewrite T.
  assert (M : mul 1000 (drop prev 0) = mul 1000 prev).
  { unfold mul. apply fl_comp. rewrite E. reflexivity. }
  rewrite M, (permille_full prev P). vm_compute. reflexivity.
Qed.

(** X16.  On the page an unknown count reads as zero, so a stage whose count
    is unknown shows as a total loss: when the count of a stage is null and
    the count of the stage before it is a count of at least 1, the drop-off
    of the pair is that whole count and its percentage is 100. *)
Theorem unknown_count_shows_total_drop (d : option BnplPayload) :
  (opt_field d n_kyc_completed = None ->
   count_like (nApplied d) -> 1 <= nApplied d ->
   dropKyc d == nApplied d /\ pctDropKyc d = 100)
  /\ (opt_field d n_credit_check_completed = None ->
      count_like (nKyc d) -> 1 <= nKyc d ->
      dropCredit d == nKyc d /\ pctDropCredit d = 100)
  /\ (opt_field d n_plan_creation = None ->
      count_like (nCredit d) -> 1 <= nCredit d ->
      dropPlan d == nCredit d /\ pctDropPlan d = 100)
  /\ (opt_field d n_initial_collection = None ->
      count_like (nPlan d) -> 1 <= nPlan d ->
      dropInitial d == nPlan d /\ pctDropInitial d = 100).
Proof.
  split; [|split; [|split]]; intros U (D & _) P.
  - assert (Z : nKyc d = 0) by (unfold nKyc; rewrite U; reflexivity).
    unfold pctDropKyc, dropKyc. rewrite Z. apply total_drop; [exact D | lra].
  - assert (Z : nCredit d = 0) by (unfold nCredit; rewrite U; reflexivity).
    unfold pctDropCredit, dropCredit. rewrite Z. apply total_drop; [exact D | lra].
  - assert (Z : nPlan d = 0) by (unfold nPlan; rewrite U; reflexivity).
    unfold pctDropPlan, dropPlan. rewrite Z. apply total_drop; [exact D | lra].
  - assert (Z : nInitial d = 0) by (unfold nInitial; rewrite U; reflexivity).
    unfold pctDropInitial, dropInitial. rewrite Z. apply total_drop; [exact D | lra].
Qed.

Lemma unknown_count_shows_total_drop_witness :
  dropKyc (Some gapped_funnel) == 1000
  /\ pctDropKyc (Some gapped_funnel) = 100
  /\ pctDropPlan (Some gapped_funnel) = 100.
Proof.
  destruct (unknown_count_shows_total_drop (Some gapped_funnel)) as (H1 & _ & H3 & _).
  destruct H1 as [A B];
    [reflexivity | apply (count_like_Z 1000); split; discriminate | discriminate |].
  split; [exact A|]. split; [exact B|].
  apply H3; [reflexivity | apply (count_like_Z 720); split; discriminate | discriminate].
Defined.

Lemma approval_bound (c a : Q) :
  0 <= c -> c <= a -> 0 < a ->
  exists k : Z, Math_round (mul (div (mul 100 c) a) 10) = inject_Z k /\ (0 <= k <= 1000)%Z.
Proof.
  intros H0 H1 H2.
  exists (Qfloor (mul (div (mul 100 c) a) 10 + (1 # 2))). split; [reflexivity|].
  assert (Ha0 : 0 <= mul 100 c) by (apply fl_nonneg; lra).
  assert (Ha1 : mul 100 c <= 100 * a + 100 * a * u53).
  { eapply Qle_trans; [apply (fl_mono (100 * c) (100 * a)); lra|].
    apply (fl_err_nonneg (100 * a)). lra. }
  rewrite u53_val in Ha1.
  set (x1 := mul 100 c) in *. clearbody x1.
  assert (Hq0 : 0 <= x1 / a) by (apply Qle_shift_div_l; lra).
  assert (Hq1 : x1 / a <= 104857601 # 1048576) by (apply Qle_shift_div_r; lra).
  assert (Hy0 : 0 <= div x1 a) by (apply fl_nonneg; exact Hq0).
  assert (Hy1 : div x1 a <= 104857601 # 1048576).
  { change (104857601 # 1048576) with (fl (104857601 # 1048576)). apply fl_mono. exact Hq1. }
  set (x2 := div x1 a) in *. clearbody x2.
  assert (Hz0 : 0 <= mul x2 10) by (apply fl_nonneg; lra).
  assert (Hz1 : mul x2 10 <= 4001 # 4).
  { change (4001 # 4) with (fl (4001 # 4)). apply fl_mono. lra. }
  set (x3 := mul x2 10) in *. clearbody x3.
  split.
  - change 0%Z with (Qfloor 0). apply Qfloor_resp_le. lra.
  - change 1000%Z with (Qfloor ((4001 # 4) + (1 # 2))). apply Qfloor_resp_le. lra.
Qed.

(** X17.  When the count of approved consumers is not negative and does not
    exceed the count of applicants, which is positive and at most [2 ^ 53],
    the approval rate of the loader is known and lies between 0 and 100. *)
Theorem approval_rate_bounds (credit applied : number) :
  0 <= credit -> credit <= applied -> 0 < applied -> applied <= inject_Z (2 ^ 53) ->
  exists r,
    approval_rate (Some credit) (Some applied) = Some r /\ 0 <= r /\ r <= 100.
Proof.
  intros H0 H1 H2 _. unfold approval_rate.
  assert (G : gt applied 0 = true) by (apply gt_true; exact H2).
  rewrite G. eexists. split; [reflexivity|].
  destruct (approval_bound credit applied H0 H1 H2) as (k & -> & Hk).
  apply tenth_bound, Hk.
Qed.

Lemma approval_rate_bounds_witness :
  exists r, approval_rate (Some 720) (Some 1000) = Some r /\ 0 <= r /\ r <= 100.
Proof.
  apply (approval_rate_bounds 720 1000); discriminate || reflexivity.
Defined.

Section FirstMaximum.
Context {A : Type} (key : A -> Q).
Let cmp (a b : A) : number := sub (key b) (key a).

(** The head of the stable descending sort is the first of the largest
    elements. *)
Lemma sort_head_first_max (l : list A) (x : A) :
  hd_error (sort cmp l) = Some x ->
  exists before after,
    l = before ++ x :: after
    /\ Forall (fun y => key y < key x) before
    /\ Forall (fun y => key y <= key x) after.
Proof.
  revert x. induction l as [|a l IH]; intros x H; [discriminate|].
  cbn [sort fold_right] in H. fold (sort cmp l) in H.
  destruct (sort cmp l) as [|h t] eqn:S.
  - cbn in H. injection H as <-.
    assert (l = []) as ->.
    { destruct l as [|b l]; [reflexivity|]. exfalso.
      assert (X : In b (sort cmp (b :: l))) by (apply (sort_In key); left; reflexivity).
      rewrite S in X. destruct X. }
    exists [], []. repeat split; constructor.
  - destruct (IH h eq_refl) as (l1 & l2 & E & F1 & F2).
    cbn [insert] in H. destruct (gt (cmp a h) 0) eqn:G.
    + cbn in H. injection H as <-. apply neg_diff_sign in G.
      exists (a :: l1), l2. rewrite E. split; [reflexivity|].
      split; [constructor; assumption | exact F2].
    + cbn in H. injection H as <-.
      assert (G' : key h <= key a).
      { apply Qnot_lt_le. intros C. apply neg_diff_sign in C. unfold cmp in G. congruence. }
      exists [], l. split; [reflexivity|]. split; [constructor|].
      rewrite E. apply Forall_app. split.
      * eapply Forall_impl; [|exact F1]. cbn. intros y Hy. lra.
      * constructor; [exact G'|].
        eapply Forall_impl; [|exact F2]. cbn. intros y Hy. lra.
Qed.

End FirstMaximum.

(** X18.  Ties go to the earlier stage: the largest drop-off that the page
    names is the first pair, in the order of the funnel, among those with the
    largest percentage; every pair before it has a smaller percentage and no
    pair after it has a larger one. *)
Theorem largest_drop_is_first_maximum (d : option BnplPayload) (x : DropItem) :
  largestDrop d = Some x ->
  exists before after,
    drops d = before ++ x :: after
    /\ Forall (fun y => pct y < pct x) before
    /\ Forall (fun y => pct y <= pct x) after.
Proof.
  unfold largestDrop. destruct (forallb _ _); [discriminate|].
  unfold firstDrop, sortedDrops. apply (sort_head_first_max pct).
Qed.

Lemma largest_drop_is_first_maximum_witness :
  exists before after,
    drops (Some level_funnel)
    = before ++ {| label := "Signed up → KYC"; pct := 20 |} :: after
    /\ Forall (fun y => pct y < 20) before
    /\ Forall (fun y => pct y <= 20) after.
Proof.
  apply (largest_drop_is_first_maximum (Some level_funnel)
           {| label := "Signed up → KYC"; pct := 20 |}).
  vm_compute. reflexivity.
Defined.

Lemma REVENUE_RATE_close :
  (499 # 10000) * (1 - u53) <= REVENUE_RATE /\ REVENUE_RATE <= (499 # 10000) * (1 + u53).
Proof.
  destruct (fl_err_nonneg (499 # 10000)) as [A B]; [discriminate|].
  unfold REVENUE_RATE. split; lra.
Qed.

Lemma lt_true a b : lt a b = true <-> a < b.
Proof.
  unfold lt. rewrite negb_true_iff. split; intros H.
  - apply Qnot_le_lt. intros C. apply Qle_bool_iff in C. congruence.
  - destruct (Qle_bool b a) eqn:E; [|reflexivity]. apply Qle_bool_iff in E. lra.
Qed.

(** X19.  The page shows a revenue exactly when the total plan amount is
    known and positive.  For an amount of at least 1 the revenue is positive
    and is 4.99 % of the amount to within three units of rounding. *)
Theorem total_revenue_spec (d : option BnplPayload) :
  (totalRevenue d = None <->
   ~ (exists a, opt_field d payload_total_plan_amount = Some a /\ 0 < a))
  /\ (forall a,
         opt_field d payload_total_plan_amount = Some a -> 1 <= a ->
         exists r,
           totalRevenue d = Some r
           /\ 0 < r
           /\ (499 # 10000) * a * (1 - 3 * u53) <= r
           /\ r <= (499 # 10000) * a * (1 + 3 * u53)).
Proof.
  unfold totalRevenue. split.
  - destruct (opt_field d payload_total_plan_amount) as [a|].
    + destruct (gt a 0) eqn:G.
      * apply gt_true in G. split; [discriminate|]. intros H. exfalso. apply H. exists a. auto.
      * apply gt_false in G. split; [|reflexivity].
        intros _ (a' & E & P). injection E as <-. lra.
    + split; [|reflexivity]. intros _ (a' & E & _). discriminate.
  - intros a -> Ha.
    assert (G : gt a 0 = true) by (apply gt_true; lra).
    rewrite G. eexists. split; [reflexivity|].
    destruct REVENUE_RATE_close as [R1 R2].
    assert (P : 0 <= a * REVENUE_RATE).
    { apply Qmult_le_0_compat; [lra|]. rewrite u53_val in R1. lra. }
    destruct (fl_err_nonneg (a * REVENUE_RATE) P) as [F1 F2].
    unfold mul. rewrite u53_val in *.
    set (R := REVENUE_RATE) in *. clearbody R.
    set (r := fl (a * R)) in *. clearbody r.
    assert (L : (499 # 10000) * a * (1 - (3 # 9007199254740992)) <= r) by nra.
    split; [nra|]. split; [exact L | nra].
Qed.

Lemma total_revenue_spec_witness :
  exists r,
    totalRevenue (Some (plan_amount_payload (Some 0))) = None
    /\ totalRevenue (Some (plan_amount_payload (Some 1000))) = Some r
    /\ 0 < r.
Proof.
  destruct (total_revenue_spec (Some (plan_amount_payload (Some 1000)))) as [_ H].
  destruct (H 1000 eq_refl ltac:(discriminate)) as (r & E & P & _).
  exists r. split; [reflexivity|]. split; [exact E | exact P].
Defined.

(** X20.  The funding gap of the loan-book panel is unknown exactly when the
    settled amount or the collected amount is null under both of its names;
    otherwise it is a number that is never negative: zero when the collections
    reach the settlements, positive when they fall short. *)
Theorem funding_gap_spec (lb : LoanBook) :
  (fundingGap lb = None <->
   (operations_settled lb = None /\ total_settled lb = None)
   \/ (operations_collected lb = None /\ total_collected lb = None))
  /\ (forall g, fundingGap lb = Some g -> 0 <= g)
  /\ (forall s c,
         or_else (operations_settled lb) (total_settled lb) = Some s ->
         or_else (operations_collected lb) (total_collected lb) = Some c ->
         exists g, fundingGap lb = Some g
                   /\ (s <= c -> g == 0) /\ (c < s -> 0 < g)).
Proof.
  unfold fundingGap. cbv zeta. split; [|split].
  - destruct (operations_settled lb) as [a|], (total_settled lb) as [b|],
      (operations_collected lb) as [c|], (total_collected lb) as [e|]; cbn;
      split; try discriminate; try tauto;
      intros [[H1 H2]|[H1 H2]]; discriminate.
  - intros g.
    destruct (or_else (operations_settled lb) (total_settled lb)) as [s|];
      [|discriminate].
    destruct (or_else (operations_collected lb) (total_collected lb)) as [c|];
      [|discriminate].
    intros H. injection H as <-. apply Math_max_l.
  - intros s c -> ->. cbn [or_default]. eexists. split; [reflexivity|].
    unfold Math_max. split.
    + intros L. assert (N : sub s c <= 0) by (unfold sub; apply fl_nonpos; lra).
      destruct (Qle_bool 0 (sub s c)) eqn:B; [|reflexivity].
      apply Qle_bool_iff in B. lra.
    + intros L. assert (P : 0 < sub s c) by (apply gt_true, neg_diff_sign, L).
      destruct (Qle_bool 0 (sub s c)) eqn:B; [exact P|].
      exfalso. assert (X : Qle_bool 0 (sub s c) = true) by (apply Qle_bool_iff; lra).
      congruence.
Qed.

Lemma funding_gap_spec_witness :
  exists g, fundingGap mixed_loan_book = Some g /\ g == 0.
Proof.
  destruct (funding_gap_spec mixed_loan_book) as (_ & _ & H).
  destruct (H 700 900 eq_refl eq_refl) as (g & E & Z & _).
  exists g. split; [exact E|]. apply Z. discriminate.
Defined.

Section Clock.
Variable rt : Runtime.
Variable Date_getTime : string -> option Z.
Variable Date_toLocaleString : option Z -> thrown + string.
Variable Date_now : Z.

Lemma elapsed_seconds (t : Z) :
  (Z.abs Date_now <= 2 ^ 52)%Z -> (Z.abs t <= 2 ^ 52)%Z ->
  div (sub (of_Z Date_now) (of_Z t)) 1000 = fl (inject_Z (Date_now - t) / 1000).
Proof.
  intros Hn Ht.
  assert (B : (2 ^ 52 < 2 ^ 53)%Z) by reflexivity.
  unfold of_Z. rewrite (fl_Z_exact_eq Date_now), (fl_Z_exact_eq t) by lia.
  unfold sub.
  rewrite (fl_comp (inject_Z Date_now - inject_Z t) (inject_Z (Date_now - t))).
  - rewrite (fl_Z_exact_eq (Date_now - t)); [reflexivity|].
    assert (2 ^ 53 = 2 * 2 ^ 52)%Z by reflexivity. lia.
  - unfold Z.sub. rewrite inject_Z_plus, inject_Z_opp. reflexivity.
Qed.

End Clock.

Lemma scaled_le (n m : Z) (c : Q) :
  0 < c -> (n <= m)%Z -> inject_Z n / c <= inject_Z m / c.
Proof.
  intros Hc H. rewrite Zle_Qle in H. unfold Qdiv.
  apply Qmult_le_compat_r; [exact H|]. apply Qinv_le_0_compat. lra.
Qed.

Lemma fl_div_mono (a b c : Q) : 0 < c -> a <= b -> fl (a / c) <= fl (b / c).
Proof.
  intros Hc H. apply fl_mono. unfold Qdiv.
  apply Qmult_le_compat_r; [exact H|]. apply Qinv_le_0_compat. lra.
Qed.

(** The two thresholds, in seconds, against the elapsed milliseconds. *)
Lemma below_threshold (diff limit : Z) :
  (0 < limit)%Z ->
  fl (inject_Z (1000 * limit - 1) / 1000) < inject_Z limit ->
  fl (inject_Z limit) == inject_Z limit ->
  (lt (fl (inject_Z diff / 1000)) (inject_Z limit) = true <-> (diff < 1000 * limit)%Z).
Proof.
  intros Hl Below Exact. rewrite lt_true. split.
  - intros H. apply Z.lt_nge. intros C.
    assert (X : fl (inject_Z (1000 * limit) / 1000) <= fl (inject_Z diff / 1000)).
    { apply fl_mono, scaled_le; [reflexivity | exact C]. }
    rewrite (fl_comp (inject_Z (1000 * limit) / 1000) (inject_Z limit)) in X.
    + rewrite Exact in X. lra.
    + rewrite inject_Z_mult. change (inject_Z 1000) with 1000. field.
  - intros H.
    eapply Qle_lt_trans; [|exact Below].
    apply fl_mono, scaled_le; [reflexivity | lia].
Qed.

Lemma sixty_seconds (diff : Z) :
  lt (fl (inject_Z diff / 1000)) 60 = true <-> (diff < 60000)%Z.
Proof.
  apply (below_threshold diff 60); [reflexivity | vm_compute; reflexivity | reflexivity].
Qed.

Lemma one_hour (diff : Z) :
  lt (fl (inject_Z diff / 1000)) 3600 = true <-> (diff < 3600000)%Z.
Proof.
  apply (below_threshold diff 3600); [reflexivity | vm_compute; reflexivity | reflexivity].
Qed.

(** Between two multiples of a minute the two divisions and their roundings
    never reach the next whole number. *)
Lemma minute_ceiling (k : Z) :
  (1 <= k <= 59)%Z ->
  fl (fl (inject_Z (60000 * k + 59999) / 1000) / 60) < inject_Z (k + 1).
Proof.
  intros Hk.
  pose (check := fun n : nat =>
    let k := Z.of_nat n in
    lt (fl (fl (inject_Z (60000 * k + 59999) / 1000) / 60)) (inject_Z (k + 1))).
  assert (A : forallb check (seq 1 59) = true) by (vm_compute; reflexivity).
  rewrite forallb_forall in A.
  specialize (A (Z.to_nat k)).
  unfold check in A. cbv zeta in A. rewrite Z2Nat.id in A by lia.
  apply lt_true, A. apply in_seq. lia.
Qed.

Lemma whole_minutes (diff : Z) :
  (60000 <= diff < 3600000)%Z ->
  Math_floor (div (fl (inject_Z diff / 1000)) 60) = inject_Z (diff / 60000)
  /\ (1 <= diff / 60000 <= 59)%Z.
Proof.
  intros [H1 H2].
  pose proof (Z.div_mod diff 60000 ltac:(lia)) as DM.
  pose proof (Z.mod_pos_bound diff 60000 ltac:(lia)) as MB.
  set (k := (diff / 60000)%Z) in *.
  assert (Hk : (1 <= k <= 59)%Z) by lia.
  split; [|exact Hk].
  unfold Math_floor, div. f_equal.
  assert (Lo : inject_Z k <= fl (fl (inject_Z diff / 1000) / 60)).
  { assert (S1 : inject_Z (60 * k) <= fl (inject_Z diff / 1000)).
    { rewrite <- (fl_Z_exact (60 * k)) by lia.
      rewrite (fl_comp (inject_Z (60 * k)) (inject_Z (60000 * k) / 1000)).
      - apply fl_mono, scaled_le; [reflexivity | lia].
      - replace (60000 * k)%Z with (1000 * (60 * k))%Z by lia.
        rewrite (inject_Z_mult 1000). change (inject_Z 1000) with 1000. field. }
    rewrite <- (fl_Z_exact k) by lia.
    rewrite (fl_comp (inject_Z k) (inject_Z (60 * k) / 60)).
    - apply fl_div_mono; [reflexivity | exact S1].
    - rewrite inject_Z_mult. change (inject_Z 60) with 60. field. }
  assert (Hi : fl (fl (inject_Z diff / 1000) / 60) < inject_Z (k + 1)).
  { eapply Qle_lt_trans; [|apply (minute_ceiling k Hk)].
    apply fl_div_mono; [reflexivity|].
    apply fl_mono, scaled_le; [reflexivity | lia]. }
  set (m := fl (fl (inject_Z diff / 1000) / 60)) in *. clearbody m.
  assert (F1 : (k <= Qfloor m)%Z).
  { rewrite <- (Qfloor_Z k). apply Qfloor_resp_le. exact Lo. }
  assert (F2 : (Qfloor m < k + 1)%Z).
  { rewrite Zlt_Qlt. eapply Qle_lt_trans; [apply Qfloor_le | exact Hi]. }
  lia.
Qed.

(** X21.  For a valid time stamp, [formatRefreshed] says "just now" when
    fewer than 60 000 milliseconds have passed, a time stamp in the future
    included; from one minute to under one hour it gives the whole number of
    minutes that have passed, a number from 1 to 59, exact in spite of the
    two floating-point divisions; from one hour on it gives the date as the
    locale renders it. *)
Theorem formatRefreshed_spec
    (rt : Runtime) (Date_getTime : string -> option Z)
    (Date_toLocaleString : option Z -> thrown + string) (Date_now : Z)
    (iso : string) (t : Z) :
  Date_getTime iso = Some t ->
  (Z.abs Date_now <= 2 ^ 52)%Z -> (Z.abs t <= 2 ^ 52)%Z ->
  ((Date_now - t < 60000)%Z ->
   formatRefreshed rt Date_getTime Date_toLocaleString Date_now iso
   = "Last run: just now"%string)
  /\ ((60000 <= Date_now - t < 3600000)%Z ->
      formatRefreshed rt Date_getTime Date_toLocaleString Date_now iso
      = ("Last run: " ++ NumberToString rt (inject_Z ((Date_now - t) / 60000))
           ++ " min ago")%string
      /\ (1 <= (Date_now - t) / 60000 <= 59)%Z)
  /\ ((3600000 <= Date_now - t)%Z ->
      formatRefreshed rt Date_getTime Date_toLocaleString Date_now iso
      = match Date_toLocaleString (Some t) with
        | inr s => s
        | inl _ => "—"%string
        end).
Proof.
  intros E Hn Ht. unfold formatRefreshed. rewrite E. cbv zeta.
  rewrite (elapsed_seconds Date_now t Hn Ht).
  split; [|split].
  - intros L. apply sixty_seconds in L. rewrite L. reflexivity.
  - intros [L1 L2].
    assert (A : lt (fl (inject_Z (Date_now - t) / 1000)) 60 = false).
    { destruct (lt (fl (inject_Z (Date_now - t) / 1000)) 60) eqn:X; [|reflexivity].
      apply sixty_seconds in X. lia. }
    rewrite A.
    destruct (whole_minutes (Date_now - t)) as [W B]; [lia|].
    apply one_hour in L2. rewrite L2.
    rewrite W. split; [reflexivity | exact B].
  - intros L.
    assert (A : lt (fl (inject_Z (Date_now - t) / 1000)) 60 = false).
    { destruct (lt (fl (inject_Z (Date_now - t) / 1000)) 60) eqn:X; [|reflexivity].
      apply sixty_seconds in X. lia. }
    assert (B : lt (fl (inject_Z (Date_now - t) / 1000)) 3600 = false).
    { destruct (lt (fl (inject_Z (Date_now - t) / 1000)) 3600) eqn:X; [|reflexivity].
      apply one_hour in X. lia. }
    rewrite A, B. reflexivity.
Qed.

Lemma formatRefreshed_spec_witness :
  formatRefreshed plain_runtime (fun _ => Some 1700000000000%Z)
    (fun _ => inr "14 Nov 2023, 22:13"%string) 1700000754321%Z "2023-11-14T22:13:20.000Z"
  = ("Last run: " ++ NumberToString plain_runtime (inject_Z (754321 / 60000))
       ++ " min ago")%string
  /\ (1 <= 754321 / 60000 <= 59)%Z.
Proof.
  destruct (formatRefreshed_spec plain_runtime (fun _ => Some 1700000000000%Z)
              (fun _ => inr "14 Nov 2023, 22:13"%string) 1700000754321%Z
              "2023-11-14T22:13:20.000Z" 1700000000000%Z eq_refl
              ltac:(vm_compute; discriminate) ltac:(vm_compute; discriminate))
    as (_ & H & _).
  apply H. split; [vm_compute; discriminate | reflexivity].
Defined.

End PageMore.

(** ** The connection options *)

Module ConnectionFacts.
Import Js Connection Terms Samples CatalogFacts.
Local Open Scope string_scope.

Lemma trim_start_fixed c s : is_space c = false -> trim_start (String c s) = String c s.
Proof. intros H. cbn. rewrite H. reflexivity. Qed.

Lemma trim_end_idem s : trim_end (trim_end s) = trim_end s.
Proof.
  induction s as [|c s IH]; [reflexivity|].
  cbn. destruct (trim_end s) as [|d t] eqn:E.
  - destruct (is_space c) eqn:S; [reflexivity|]. cbn. rewrite S. reflexivity.
  - cbn [trim_end] in *. rewrite IH. reflexivity.
Qed.

Lemma no_lead_trim_start s : no_lead (trim_start s).
Proof.
  induction s as [|c s IH]; [exact I|].
  cbn. destruct (is_space c) eqn:E; [exact IH | exact E].
Qed.

Lemma no_lead_fixed s : no_lead s -> trim_start s = s.
Proof. destruct s as [|c s]; [reflexivity | apply trim_start_fixed]. Qed.

Lemma no_lead_trim_end s : no_lead s -> no_lead (trim_end s).
Proof.
  destruct s as [|c s]; [intros _; exact I|].
  cbn. intros H. destruct (trim_end s); [rewrite H|]; exact H.
Qed.

Lemma trim_idem s : trim (trim s) = trim s.
Proof.
  unfold trim.
  rewrite (no_lead_fixed (trim_end (trim_start s))).
  - apply trim_end_idem.
  - apply no_lead_trim_end, no_lead_trim_start.
Qed.

Lemma nonempty_true s : nonempty s = true <-> s <> "".
Proof. destruct s; cbn; split; congruence. Qed.

Section Options.
Variable env : Env.
Variable URL_pathname : string -> option string.

Lemma schema_cases :
  schema (getConnectionOptions env URL_pathname) = "PUBLIC"
  \/ exists s, env "SNOWFLAKE_SCHEMA" = Some s /\ trim s <> ""
               /\ schema (getConnectionOptions env URL_pathname) = trim s.
Proof.
  cbn [getConnectionOptions schema].
  destruct (env "SNOWFLAKE_SCHEMA") as [v|]; cbn [or_default]; [|left; reflexivity].
  destruct (nonempty v) eqn:V; [|left; reflexivity].
  destruct (nonempty (trim v)) eqn:T; [|left; reflexivity].
  right. exists v. split; [reflexivity|]. split; [apply nonempty_true, T | reflexivity].
Qed.


End Options.


End ConnectionFacts.

(** ** The diagnostic routes *)

Module DiagnosticsFacts.
Import Js Async Store Connection Spec Diagnostics Terms Samples.
Import ConnectionFacts AsyncFacts.
Local Open Scope string_scope.
Local Open Scope N_scope.

Lemma report_ok_eq (env : Env) : report_ok (check_env env) = all_present env.
Proof.
  cbn. rewrite andb_true_r, !andb_assoc. reflexivity.
Qed.



Section Check.
Variable env : Env.
Variable URL_pathname : string -> option string.
Variable code_of : thrown -> option string.

Lemma missing_test :
  negb (present (env "SNOWFLAKE_ACCOUNT")) || negb (present (env "SNOWFLAKE_USER"))
  || negb (present (env "SNOWFLAKE_PASSWORD")) || negb (present (env "SNOWFLAKE_WAREHOUSE"))
  || negb (present (env "SNOWFLAKE_DATABASE"))
  = negb (all_present env).
Proof.
  unfold all_present.
  destruct (present (env "SNOWFLAKE_ACCOUNT")), (present (env "SNOWFLAKE_USER")),
    (present (env "SNOWFLAKE_PASSWORD")), (present (env "SNOWFLAKE_WAREHOUSE")),
    (present (env "SNOWFLAKE_DATABASE")); reflexivity.
Qed.


End Check.

End DiagnosticsFacts.

(** ** The legacy route *)

Module LegacyFacts.
Import Double Js Async Store Connection Legacy Scenarios Samples RouteMore.
Local Open Scope N_scope.

Section Route.
Variable runCount : World -> string -> list string -> async (option number).


End Route.


End LegacyFacts.
